(** * PNG to JPEG batch conversion: a model of [scripts/convert-png-to-jpg.py]

    The script walks [public/images] (and [public/square] when it exists),
    re-encodes every PNG as a JPEG, optionally moves the [-square] variants,
    deletes the PNG and tallies what happened.

    The program is embedded as it is written: the six functions of the script
    ([log], [collect_png_files], [clamp_quality], [flatten_to_rgb],
    [convert_file], [main]) keep their names and their control flow.  What the
    script calls but does not define is modelled next to it:

    - [str] methods and [pathlib] on strings and lists of path components;
    - the file system as a finite map from paths to nodes, with the calls of
      [os] and [pathlib] the script makes; every call that reads or changes a
      file is recorded in a trace, and every call can be made to fail by a
      fault oracle of the platform (permissions, full disk);
    - Pillow images as a mode, a size, an info dictionary and pixel data, with
      [Image.new], [Image.split], [Image.paste] and [Image.convert] written
      after Pillow's [Image.py] and [Paste.c]; decoding and JPEG encoding are
      functions of the platform;
    - the standard output as the lines that were written and the line that
      is begun; [print] writes its objects one by one, and a text that the
      encoding of the output does not have raises [UnicodeEncodeError] after
      the texts before it have been written;
    - the text of an exception, [str(exc)], as a function of the platform.

    Symbolic links, signals, an output that is closed while the script runs
    and concurrent changes of the tree by other processes are outside the
    model. *)

From Stdlib Require Import ZArith Lia List Ascii String Bool.
From stdpp Require Import base tactics option list gmap strings pretty.

Local Open Scope string_scope.
Local Open Scope list_scope.
Local Open Scope Z_scope.

(** A path is the list of its components below the root of the file system;
    the script only builds absolute paths, from [Path.cwd()]. *)
Abbreviation Path := (list string).

(** ** Exceptions *)

Inductive Errno :=
| ENOENT | EIO | EACCES | EEXIST | ENOTDIR | EISDIR | EINVAL | ENOSPC
| EROFS | ENOTEMPTY.

(** Python exceptions the script can meet.  [PILError] stands for the errors
    of Pillow's codecs ([UnidentifiedImageError], a truncated file, an encoder
    error); [UnicodeEncodeError] is what a write to [sys.stdout] raises for a
    text its encoding does not have, and carries that text; [SystemExit] is
    the only one that is not an [Exception]. *)
Inductive Exn :=
| OSError (e : Errno) (filename : Path)
| ValueError (msg : string)
| IndexError (msg : string)
| PILError (msg : string)
| UnicodeEncodeError (object : string)
| SystemExit (code : Z).

Definition is_Exception (e : Exn) : bool :=
  match e with
  | SystemExit _ => false
  | _ => true
  end.

(** The errors [pathlib] takes for "there is no such file"
    ([_ignore_error]). *)
Definition ignore_error (e : Errno) : bool :=
  match e with
  | ENOENT | ENOTDIR => true
  | _ => false
  end.

(** A call returns a value or raises. *)
Inductive result (A : Type) : Type :=
| Ok (a : A)
| Raise (e : Exn).
Arguments Ok {A} a.
Arguments Raise {A} e.

Definition result_bind {A B} (r : result A) (k : A -> result B) : result B :=
  match r with
  | Ok a => k a
  | Raise e => Raise e
  end.

(** ** Python strings *)

Module Str.

(** [s.lower()] on the ASCII range; bytes above 127 are left as they are. *)
Definition lower_ascii (c : ascii) : ascii :=
  let n := nat_of_ascii c in
  if ((65 <=? n) && (n <=? 90))%nat then ascii_of_nat (n + 32) else c.

Fixpoint lower (s : string) : string :=
  match s with
  | EmptyString => EmptyString
  | String c s' => String (lower_ascii c) (lower s')
  end.

(** [s.endswith(suffix)] *)
Definition endswith (s suffix : string) : bool :=
  let n := String.length s in
  let m := String.length suffix in
  if (m <=? n)%nat then String.eqb (substring (n - m) m s) suffix else false.

(** [s.rfind(c)]: the index of the last occurrence, [None] for Python's -1. *)
Fixpoint rfind (c : ascii) (s : string) : option nat :=
  match s with
  | EmptyString => None
  | String d s' =>
      match rfind c s' with
      | Some i => Some (S i)
      | None => if Ascii.eqb c d then Some 0%nat else None
      end
  end.

(** [s[:i]] and [s[i:]] for [0 <= i]. *)
Definition take (i : nat) (s : string) : string := substring 0 i s.
Definition drop (i : nat) (s : string) : string :=
  substring i (String.length s - i) s.

(** [s[:-k]] for [0 < k]: the stop index is clamped at 0. *)
Definition drop_end (k : nat) (s : string) : string :=
  take (String.length s - k) s.

(** [s.isascii()] *)
Definition isascii_char (c : ascii) : bool :=
  match c with
  | Ascii _ _ _ _ _ _ _ b7 => negb b7
  end.

Fixpoint isascii (s : string) : bool :=
  match s with
  | EmptyString => true
  | String c s' => isascii_char c && isascii s'
  end.

(** [" ".join(parts)] *)
Fixpoint join (sep : string) (parts : list string) : string :=
  match parts with
  | [] => ""
  | [x] => x
  | x :: rest => x +:+ sep +:+ join sep rest
  end.

End Str.

(** ** pathlib *)

Module Pathlib.

(** [p.name]: the last component, empty for the root. *)
Definition name (p : Path) : string := List.last p "".

(** [p.parent]; the root is its own parent. *)
Definition parent (p : Path) : Path := removelast p.

(** [p / child] for a single component. *)
Definition joinpath (p : Path) (child : string) : Path := p ++ [child].

(** The position of the dot that starts the suffix: the last dot of the name,
    unless it is the first or the last character. *)
Definition suffix_index (nm : string) : option nat :=
  match Str.rfind "."%char nm with
  | Some i =>
      if ((0 <? i) && (i <? String.length nm - 1))%nat then Some i else None
  | None => None
  end.

(** [p.suffix] *)
Definition suffix (p : Path) : string :=
  match suffix_index (name p) with
  | Some i => Str.drop i (name p)
  | None => ""
  end.

(** [p.stem] *)
Definition stem (p : Path) : string :=
  match suffix_index (name p) with
  | Some i => Str.take i (name p)
  | None => name p
  end.

(** [str(p)] *)
Definition str (p : Path) : string :=
  match p with
  | [] => "/"
  | _ => String.concat "" (List.map (fun c => "/" +:+ c) p)
  end.

(** [p.with_suffix(suffix)]: the suffix of the name is replaced, or
    [suffix] is added when the name has none; a path without a name is
    refused. *)
Definition with_suffix (p : Path) (new_suffix : string) : result Path :=
  if String.eqb (name p) "" then
    Raise (ValueError (str p +:+ " has an empty name"))
  else Ok (joinpath (parent p) (stem p +:+ new_suffix)).

End Pathlib.

Notation "p // c" := (Pathlib.joinpath p c) (at level 40, left associativity).

(** [x in (a, b, ...)] on strings *)
Definition str_in (x : string) (tuple : list string) : bool :=
  existsb (String.eqb x) tuple.

(** [t[-1]] *)
Definition tuple_last {A} (t : list A) : result A :=
  match List.rev t with
  | x :: _ => Ok x
  | [] => Raise (IndexError "tuple index out of range")
  end.

(** ** Pillow images *)

Module PIL.

(** Values of the [info] dictionary the PNG reader fills in for a [tRNS]
    chunk: a gray level or a palette index, a table of alphas, a colour. *)
Inductive info_value :=
| InfoInt (n : Z)
| InfoBytes (b : list Z)
| InfoTuple (t : list Z).

(** An image: [data] holds one entry per pixel in row order, each entry the
    values of its bands ([[r; g; b; a]] in mode RGBA, [[l; a]] in mode LA,
    [[l]] in mode L, a palette index in mode P). *)
Record Image := mkImage {
  mode : string;
  size : Z * Z;
  info : gmap string info_value;
  data : list (list Z)
}.

(** What the model takes from the installed Pillow and its codecs: the
    conversions and pastes the model does not spell out, the PNG reader and
    the JPEG writer.  Each returns an error message or its result; a failing
    writer also tells which bytes it had written. *)
Class Codecs := {
  convert_other : Image -> string -> string + Image;
  paste_other : Image -> Image -> Image -> string + Image;
  decode : list Byte.byte -> string + Image;
  encode_jpeg : Image -> Z -> string * list Byte.byte + list Byte.byte
}.

Definition of_codec {A} (r : string + A) : result A :=
  match r with
  | inl msg => Raise (PILError msg)
  | inr a => Ok a
  end.

(** [len(img.getbands())] *)
Definition nbands (m : string) : nat :=
  if str_in m ["RGBA"; "CMYK"; "RGBX"; "RGBa"] then 4%nat
  else if str_in m ["RGB"; "YCbCr"; "LAB"; "HSV"] then 3%nat
  else if str_in m ["LA"; "PA"; "La"] then 2%nat
  else 1%nat.

Definition band (k : nat) (px : list Z) : Z := nth k px 0.

(** [Image.new(mode, size, color)] *)
Definition new (m : string) (sz : Z * Z) (color : list Z) : Image :=
  {| mode := m; size := sz; info := ∅;
     data := repeat color (Z.to_nat (fst sz * snd sz)) |}.

(** [img.split()]: a single-band image is returned as it is, the bands of
    another one as images of mode L. *)
Definition split (img : Image) : list Image :=
  if (nbands (mode img) =? 1)%nat then [img]
  else
    List.map
      (fun k =>
         {| mode := "L"; size := size img; info := info img;
            data := List.map (fun px => [band k px]) (data img) |})
      (seq 0 (nbands (mode img))).

(** The first three bytes Pillow stores for a pixel of a multi-band image:
    the colour of an RGB or RGBA pixel, the gray level three times for LA. *)
Definition rgb_bytes (m : string) (px : list Z) : list Z :=
  if str_in m ["LA"; "La"; "L"] then [band 0 px; band 0 px; band 0 px]
  else [band 0 px; band 1 px; band 2 px].

(** The alpha byte of a pixel of a mask of mode LA, RGBA or RGBa. *)
Definition alpha_byte (m : string) (px : list Z) : Z :=
  if str_in m ["LA"; "La"] then band 1 px else band 3 px.

(** [img.convert("RGB")] for the modes whose conversion drops or repeats
    bands, after [Convert.c] ([l2rgb], [la2rgb], [rgba2rgb]); a transparent
    gray level in [info] is re-expressed as a colour.  Other conversions are
    the platform's. *)
Definition convert_info (img : Image) : gmap string info_value :=
  if String.eqb (mode img) "L" then
    match info img !! "transparency" with
    | Some (InfoInt t) => <["transparency" := InfoTuple [t; t; t]]> (info img)
    | Some (InfoBytes _) => delete "transparency" (info img)
    | _ => info img
    end
  else info img.

Definition convert `{Codecs} (img : Image) (m : string) : result Image :=
  if String.eqb m (mode img) then Ok img
  else if String.eqb m "RGB" && str_in (mode img) ["L"; "LA"; "RGBA"] then
    Ok {| mode := "RGB"; size := size img; info := convert_info img;
          data := List.map (rgb_bytes (mode img)) (data img) |}
  else of_codec (convert_other img m).

(** The integer arithmetic of [Paste.c]. *)
Definition u8 (x : Z) : Z := x mod 256.
Definition SHIFTFORDIV255 (a : Z) : Z := Z.shiftr (Z.shiftr a 8 + a) 8.
Definition DIV255 (a : Z) : Z := SHIFTFORDIV255 (a + 128).
Definition MULDIV255 (a b : Z) : Z := SHIFTFORDIV255 (a * b + 128).
Definition BLEND (mask in1 in2 : Z) : Z :=
  u8 (DIV255 (in1 * (255 - mask) + in2 * mask)).
Definition PREBLEND (mask in1 in2 : Z) : Z :=
  u8 (MULDIV255 in1 (255 - mask) + in2).

Definition zip3_with {A B C D} (f : A -> B -> C -> D)
    (xs : list A) (ys : list B) (zs : list C) : list D :=
  List.map (fun '(x, (y, z)) => f x y z) (combine xs (combine ys zs)).

(** [ImagingPaste] of a whole image onto an RGB image of the same size: the
    mask's mode selects [paste_mask_1], [paste_mask_L], [paste_mask_RGBA] or
    [paste_mask_RGBa]; any other mode is refused. *)
Definition core_paste (out im mask : Image) : result Image :=
  let paste_with (f : list Z -> list Z -> list Z -> list Z) :=
    Ok {| mode := mode out; size := size out; info := info out;
          data := zip3_with f (data out) (data im) (data mask) |} in
  let src := rgb_bytes (mode im) in
  if negb (bool_decide (size mask = size im)) then
    Raise (ValueError "images do not match")
  else if String.eqb (mode mask) "1" then
    paste_with (fun o i m => if band 0 m =? 0 then o else src i)
  else if String.eqb (mode mask) "L" then
    paste_with (fun o i m => zip_with (BLEND (band 0 m)) o (src i))
  else if str_in (mode mask) ["LA"; "RGBA"] then
    paste_with
      (fun o i m => zip_with (BLEND (alpha_byte (mode mask) m)) o (src i))
  else if String.eqb (mode mask) "RGBa" then
    paste_with
      (fun o i m => zip_with (PREBLEND (alpha_byte (mode mask) m)) o (src i))
  else Raise (ValueError "bad transparency mask").

(** [self.paste(im, mask=mask)] with the default box, after [Image.paste]:
    the source is converted to the destination's mode unless it is pasted
    onto RGB from LA, RGBA or RGBa. *)
Definition paste `{Codecs} (self im mask : Image) : result Image :=
  result_bind
    (if negb (String.eqb (mode self) (mode im)) then
       if negb (String.eqb (mode self) "RGB")
          || negb (str_in (mode im) ["LA"; "RGBA"; "RGBa"])
       then convert im (mode self)
       else Ok im
     else Ok im)
    (fun im' =>
       if String.eqb (mode self) "RGB" && bool_decide (size self = size im)
       then core_paste self im' mask
       else of_codec (paste_other self im' mask)).

(** An image as the decoder delivers it: as many pixels as the size says,
    as many values per pixel as the mode has bands, every value a byte. *)
Definition wf (img : Image) : Prop :=
  0 <= fst (size img) /\ 0 <= snd (size img) /\
  length (data img) = Z.to_nat (fst (size img) * snd (size img)) /\
  Forall (fun px => length px = nbands (mode img) /\
                    Forall (fun v => 0 <= v <= 255) px) (data img).

End PIL.

(** ** The file system and the process state *)

Inductive Node :=
| File (content : list Byte.byte)
| Dir.

(** The system calls the fault oracle can fail. *)
Inductive Syscall :=
| SysStat (p : Path)
| SysOpenRead (p : Path)
| SysOpenWrite (p : Path)
| SysMkdir (p : Path)
| SysReplace (src dst : Path)
| SysUnlink (p : Path).

(** What has been done to the files, oldest first.  Looking a path up
    ([exists], [stat], [os.walk]) leaves no event. *)
Inductive Event :=
| EvRead (p : Path)
| EvSave (p : Path) (content : list Byte.byte)
| EvSaveFailed (p : Path)
| EvMkdir (p : Path)
| EvReplace (src dst : Path)
| EvUnlink (p : Path).

(** [stdout] holds the lines written to the standard output, oldest first,
    and [pending] the text written since the last end of line. *)
Record World := mkWorld {
  fs : gmap Path Node;
  cwd : Path;
  stdout : list string;
  pending : string;
  trace : list Event
}.

Definition set_fs (f : gmap Path Node -> gmap Path Node) (w : World) : World :=
  {| fs := f (fs w); cwd := cwd w; stdout := stdout w; pending := pending w;
     trace := trace w |}.
Definition emit (e : Event) (w : World) : World :=
  {| fs := fs w; cwd := cwd w; stdout := stdout w; pending := pending w;
     trace := trace w ++ [e] |}.
(** Text is added to the line that is being written. *)
Definition put (text : string) (w : World) : World :=
  {| fs := fs w; cwd := cwd w; stdout := stdout w;
     pending := pending w +:+ text; trace := trace w |}.
(** The line that is being written is ended. *)
Definition end_line (w : World) : World :=
  {| fs := fs w; cwd := cwd w; stdout := stdout w ++ [pending w];
     pending := ""; trace := trace w |}.
(** A whole line is written. *)
Definition print (line : string) (w : World) : World := end_line (put line w).

(** What the model takes from the machine and from the libraries:
    - which calls are refused, and with which error (permissions, input and
      output errors, a full disk); that an entry is missing is for the tree
      to say, not for the oracle;
    - the size [stat] reports for a directory;
    - the tenths of a KiB that [f"{x / 1024:.1f}"] rounds [x] bytes to
      (floating point is not modelled);
    - the texts, beyond the ASCII ones, that the encoding and the error
      handler of [sys.stdout] can write;
    - the text [str(exc)] gives for the exception that the conversion of a
      file has raised (the message formats of Python, [pathlib] and Pillow are
      not modelled). *)
Class Host := {
  io_fault : World -> Syscall -> option Errno;
  io_fault_lookup : forall w c e, io_fault w c = Some e -> ignore_error e = false;
  dir_st_size : Z;
  kib_tenths : Z -> Z;
  stdout_encodes : string -> bool;
  str_exc : World -> Path -> Exn -> string
}.

(** [sys.stdout] can encode ASCII text whatever its encoding. *)
Definition encodable `{Host} (text : string) : bool :=
  Str.isascii text || stdout_encodes text.

(** [f"{x / 1024:.1f}"] *)
Definition format_kib `{Host} (x : Z) : string :=
  pretty (kib_tenths x / 10) +:+ "." +:+ pretty (kib_tenths x mod 10).

(** Computations that read and change the world and may raise; what was done
    before an exception stays done. *)
Definition M (A : Type) : Type := World -> result A * World.

Definition ret {A} (a : A) : M A := fun w => (Ok a, w).
Definition raise {A} (e : Exn) : M A := fun w => (Raise e, w).
Definition bind {A B} (m : M A) (k : A -> M B) : M B :=
  fun w =>
    match m w with
    | (Ok a, w') => k a w'
    | (Raise e, w') => (Raise e, w')
    end.
Definition lift {A} (r : result A) : M A := fun w => (r, w).
Definition get : M World := fun w => (Ok w, w).

(** [try: body except Exception as exc: handler(exc)] *)
Definition try_except_Exception {A} (body : M A) (handler : Exn -> M A) : M A :=
  fun w =>
    match body w with
    | (Raise e, w') => if is_Exception e then handler e w' else (Raise e, w')
    | r => r
    end.

(** [try: body except OSError: handler(errno)] *)
Definition try_except_OSError {A} (body : M A) (handler : Errno -> Path -> M A)
    : M A :=
  fun w =>
    match body w with
    | (Raise (OSError e p), w') => handler e p w'
    | r => r
    end.

Notation "'let*' x ':=' m 'in' k" := (bind m (fun x => k))
  (at level 10, x pattern, m at level 100, k at level 200).

Module Os.
Section WithHost.
Context `{Host}.

(** A call the oracle refuses raises and changes nothing. *)
Definition syscall {A} (c : Syscall) (filename : Path) (body : M A) : M A :=
  fun w =>
    match io_fault w c with
    | Some e => (Raise (OSError e filename), w)
    | None => body w
    end.

(** The error of a lookup that finds nothing: [ENOTDIR] below a file. *)
Definition below_file (m : gmap Path Node) (p : Path) : bool :=
  existsb
    (fun k => match m !! take k p with Some (File _) => true | _ => false end)
    (seq 0 (length p)).
Definition missing (m : gmap Path Node) (p : Path) : Errno :=
  if below_file m p then ENOTDIR else ENOENT.

(** Whether an entry can be created at [p]: its parent must be a directory. *)
Definition parent_error (m : gmap Path Node) (p : Path) : option Errno :=
  match m !! Pathlib.parent p with
  | Some Dir => None
  | Some (File _) => Some ENOTDIR
  | None => Some (missing m p)
  end.

(** [p.exists()] and [p.is_dir()], after [pathlib]: the path is looked up
    with [stat]; a missing entry answers [False], and so does an error that
    [_ignore_error] takes for one, any other error is raised. *)
Definition exists_ (p : Path) : M bool :=
  fun w =>
    match io_fault w (SysStat p) with
    | Some e =>
        if ignore_error e then (Ok false, w) else (Raise (OSError e p), w)
    | None => (Ok (bool_decide (is_Some (fs w !! p))), w)
    end.
Definition is_dir (p : Path) : M bool :=
  fun w =>
    match io_fault w (SysStat p) with
    | Some e =>
        if ignore_error e then (Ok false, w) else (Raise (OSError e p), w)
    | None => (Ok (match fs w !! p with Some Dir => true | _ => false end), w)
    end.

(** [p.stat().st_size] *)
Definition stat_st_size (p : Path) : M Z :=
  syscall (SysStat p) p
    (fun w =>
       match fs w !! p with
       | Some (File c) => (Ok (Z.of_nat (length c)), w)
       | Some Dir => (Ok dir_st_size, w)
       | None => (Raise (OSError (missing (fs w) p) p), w)
       end).

(** [os.mkdir(p)] *)
Definition mkdir1 (p : Path) : M unit :=
  syscall (SysMkdir p) p
    (fun w =>
       match fs w !! p with
       | Some _ => (Raise (OSError EEXIST p), w)
       | None =>
           match parent_error (fs w) p with
           | Some e => (Raise (OSError e p), w)
           | None => (Ok tt, emit (EvMkdir p) (set_fs (insert p Dir) w))
           end
       end).

(** [p.mkdir(parents=False, exist_ok=True)]: an error is let through unless
    the directory is there. *)
Definition mkdir_exist_ok (p : Path) : M unit :=
  try_except_OSError (mkdir1 p)
    (fun e filename =>
       let* d := is_dir p in
       if d then ret tt else raise (OSError e filename)).

(** [p.mkdir(parents=True, exist_ok=True)], after pathlib: when the parent is
    missing it is made first, in the same way, and the call is repeated.  The
    recursion is on the components of [p], last one first. *)
Fixpoint mkdir_parents_rev (rp : list string) : M unit :=
  let p := rev rp in
  try_except_OSError (mkdir1 p)
    (fun e filename =>
       match e, rp with
       | ENOENT, _ :: rp' =>
           let* _ := mkdir_parents_rev rp' in mkdir_exist_ok p
       | ENOENT, [] => raise (OSError e filename)
       | _, _ =>
           let* d := is_dir p in
           if d then ret tt else raise (OSError e filename)
       end).

Definition mkdir_parents (p : Path) : M unit := mkdir_parents_rev (rev p).

(** [os.replace(src, dst)].  A file replaces whatever file is at [dst]; a
    directory moves with everything below it, onto nothing or onto an empty
    directory. *)
Definition under (d : Path) (q : Path) : bool := bool_decide (d `prefix_of` q).

Definition move_tree (src dst : Path) (m : gmap Path Node) : gmap Path Node :=
  list_to_map
    (List.map (fun '(q, n) => (dst ++ drop (length src) q, n))
       (List.filter (fun '(q, _) => under src q) (map_to_list m)))
  ∪ filter (fun '(q, _) => under src q = false) m.

Definition has_entries (m : gmap Path Node) (d : Path) : bool :=
  existsb (fun '(q, _) => under d q && negb (bool_decide (q = d)))
    (map_to_list m).

Definition replace (src dst : Path) : M unit :=
  syscall (SysReplace src dst) src
    (fun w =>
       let moved m := (Ok tt, emit (EvReplace src dst) (set_fs (fun _ => m) w)) in
       let fail e p := (Raise (OSError e p), w) in
       match fs w !! src with
       | None => fail (missing (fs w) src) src
       | Some (File c) =>
           match fs w !! dst with
           | Some Dir => fail EISDIR dst
           | _ =>
               match parent_error (fs w) dst with
               | Some e => fail e dst
               | None => moved (<[dst := File c]> (delete src (fs w)))
               end
           end
       | Some Dir =>
           match fs w !! dst with
           | Some (File _) => fail ENOTDIR dst
           | d =>
               if bool_decide (src = dst) then moved (fs w)
               else if under src dst then fail EINVAL dst
               else if has_entries (fs w) dst then fail ENOTEMPTY dst
               else
                 match d, parent_error (fs w) dst with
                 | None, Some e => fail e dst
                 | _, _ => moved (move_tree src dst (fs w))
                 end
           end
       end).

(** [p.unlink()] *)
Definition unlink (p : Path) : M unit :=
  syscall (SysUnlink p) p
    (fun w =>
       match fs w !! p with
       | Some (File _) => (Ok tt, emit (EvUnlink p) (set_fs (delete p) w))
       | Some Dir => (Raise (OSError EISDIR p), w)
       | None => (Raise (OSError (missing (fs w) p) p), w)
       end).

(** [os.walk(top)]: every directory that is reached from [top] through
    directories, with the names of its sub-directories and of its other
    entries.  Errors of the walk are ignored, as [os.walk] does by default;
    the order is the map's, the real one being that of [os.scandir]. *)
Definition listdir (m : gmap Path Node) (d : Path) : list (string * Node) :=
  omap
    (fun '(q, n) =>
       match q with
       | [] => None
       | _ => if bool_decide (Pathlib.parent q = d)
              then Some (Pathlib.name q, n) else None
       end)
    (map_to_list m).

Definition reached (m : gmap Path Node) (top d : Path) : bool :=
  under top d
  && forallb
       (fun k => match m !! take k d with Some Dir => true | _ => false end)
       (seq (length top) (S (length d - length top))).

Definition walk (top : Path) (m : gmap Path Node)
    : list (Path * list string * list string) :=
  List.map
    (fun d =>
       let entries := listdir m d in
       (d,
        omap (fun '(nm, n) => match n with Dir => Some nm | _ => None end)
          entries,
        omap (fun '(nm, n) => match n with File _ => Some nm | _ => None end)
          entries))
    (List.filter (reached m top) (List.map fst (map_to_list m))).

Definition getcwd : M Path := fun w => (Ok (cwd w), w).

End WithHost.
End Os.

(** ** Pillow on the file system *)

Section Script.
Context `{PIL.Codecs} `{Host}.

(** [Image.open(p)] and the loading of its pixels. *)
Definition Image_open (p : Path) : M PIL.Image :=
  Os.syscall (SysOpenRead p) p
    (fun w =>
       match fs w !! p with
       | Some (File c) => (PIL.of_codec (PIL.decode c), emit (EvRead p) w)
       | Some Dir => (Raise (OSError EISDIR p), w)
       | None => (Raise (OSError (Os.missing (fs w) p) p), w)
       end).

(** [img.save(p, "JPEG", quality=..., optimize=True, progressive=True,
    subsampling="4:2:0")], after [Image.save]: the file is opened for writing
    (created or emptied), then the encoder runs.  When the encoder fails, a
    file the call had created is removed again, unless the removal is
    refused for lack of permission; a file that was there before keeps what
    the encoder had written. *)
Definition Image_save (img : PIL.Image) (p : Path) (quality : Z) : M unit :=
  Os.syscall (SysOpenWrite p) p
    (fun w =>
       let written c := set_fs (insert p (File c)) w in
       match fs w !! p, Os.parent_error (fs w) p with
       | Some Dir, _ => (Raise (OSError EISDIR p), w)
       | None, Some e => (Raise (OSError e p), w)
       | before, _ =>
           match PIL.encode_jpeg img quality with
           | inr c => (Ok tt, emit (EvSave p c) (written c))
           | inl (msg, partial) =>
               match before, io_fault (written partial) (SysUnlink p) with
               | Some _, _ | None, Some EACCES =>
                   (Raise (PILError msg), emit (EvSaveFailed p) (written partial))
               | None, Some e =>
                   (Raise (OSError e p), emit (EvSaveFailed p) (written partial))
               | None, None => (Raise (PILError msg), emit (EvSaveFailed p) w)
               end
           end
       end).

(** ** The script *)

(** [sys.stdout.write(text)] *)
Definition write (text : string) : M unit :=
  fun w =>
    if encodable text then (Ok tt, put text w)
    else (Raise (UnicodeEncodeError text), w).

Fixpoint write_each (texts : list string) : M unit :=
  match texts with
  | [] => ret tt
  | text :: rest => let* _ := write text in write_each rest
  end.

(** What [print] writes for its objects: each one, with the separator
    between two of them. *)
Fixpoint separated (sep : string) (objects : list string) : list string :=
  match objects with
  | [] => []
  | x :: rest =>
      match rest with
      | [] => [x]
      | _ => x :: sep :: separated sep rest
      end
  end.

(** [print] of some objects: they are written one by one, then the line is
    ended; an object that cannot be encoded raises after those before it have
    been written.  The objects are given as [str] has printed them. *)
Definition print_objects (objects : list string) : M unit :=
  let* _ := write_each (separated " " objects) in
  fun w => (Ok tt, end_line w).

(** [log] *)
Definition log (args : list string) : M unit :=
  print_objects ("[png2jpg]" :: args).

(** [collect_png_files(root)], as the list the caller makes of it. *)
Definition collect_png_files (root : Path) : M (list Path) :=
  fun w =>
    (Ok (flat_map
           (fun '(dirpath, _, filenames) =>
              flat_map
                (fun name =>
                   if Str.endswith (Str.lower name) ".png"
                   then [dirpath // name] else [])
                filenames)
           (Os.walk root (fs w))),
     w).

(** [clamp_quality(value)] *)
Definition clamp_quality (value : Z) : Z := Z.max 40 (Z.min 95 value).

(** ["transparency" in img.info] *)
Definition has_key (k : string) (d : gmap string PIL.info_value) : bool :=
  bool_decide (is_Some (d !! k)).

(** [flatten_to_rgb(img)] *)
Definition flatten_to_rgb (img : PIL.Image) : result PIL.Image :=
  if str_in (PIL.mode img) ["RGB"; "L"] then PIL.convert img "RGB"
  else if str_in (PIL.mode img) ["RGBA"; "LA"]
          || has_key "transparency" (PIL.info img) then
    let bg := PIL.new "RGB" (PIL.size img) [255; 255; 255] in
    result_bind (tuple_last (PIL.split img)) (fun mask => PIL.paste bg img mask)
  else PIL.convert img "RGB".

(** [convert_file(png_path, quality, force, move_square, square_dir)] *)
Definition convert_file (png_path : Path) (quality : Z)
    (force move_square : bool) (square_dir : Path) : M (string * Z * Z) :=
  let base := Pathlib.stem png_path in
  let* jpg_path := lift (Pathlib.with_suffix png_path ".jpg") in
  let* jpg_exists := Os.exists_ jpg_path in
  if jpg_exists && negb force then ret ("skipped", 0, 0)
  else
    let* input_size := Os.stat_st_size png_path in
    let* img := Image_open png_path in
    let* rgb := lift (flatten_to_rgb img) in
    let* _ := Image_save rgb jpg_path quality in
    let* jpg_path :=
      if move_square && Str.endswith base "-square" then
        let* _ := Os.mkdir_parents square_dir in
        let clean_base := Str.drop_end (String.length "-square") base in
        let target := square_dir // (clean_base +:+ ".jpg") in
        let* target_exists := Os.exists_ target in
        if target_exists && negb force then
          let* _ := log ["Exists, skip move (use --force):"; Pathlib.str target] in
          ret jpg_path
        else
          let* _ := Os.replace jpg_path target in
          ret target
      else ret jpg_path in
    let* _ := Os.unlink png_path in
    let* output_size := Os.stat_st_size jpg_path in
    ret ("converted", input_size, output_size).

(** The command line as [argparse] has parsed it. *)
Record Args := mkArgs {
  force : bool;
  quality : Z;
  move_square : bool
}.

(** The four counters of [main]. *)
Record Tally := mkTally {
  converted : Z;
  skipped : Z;
  errors : Z;
  saved_total : Z
}.

Definition tally0 : Tally :=
  {| converted := 0; skipped := 0; errors := 0; saved_total := 0 |}.

(** The body of the loop of [main] for the file [f]. *)
Definition loop_body (args : Args) (q : Z) (square_dir : Path)
    (t : Tally) (f : Path) : M Tally :=
  try_except_Exception
    (let* (status, input_size, output_size) :=
       convert_file f q (force args) (move_square args) square_dir in
     if String.eqb status "converted" then
       ret {| converted := converted t + 1; skipped := skipped t;
              errors := errors t;
              saved_total := saved_total t + Z.max 0 (input_size - output_size) |}
     else
       ret {| converted := converted t; skipped := skipped t + 1;
              errors := errors t; saved_total := saved_total t |})
    (fun exc =>
       let t' := {| converted := converted t; skipped := skipped t;
                    errors := errors t + 1; saved_total := saved_total t |} in
       let* w := get in
       let* _ := log ["Error:"; Pathlib.str f; str_exc w f exc] in
       ret t').

(** [for f in files: ...] *)
Fixpoint for_files (args : Args) (q : Z) (square_dir : Path)
    (files : list Path) (t : Tally) : M Tally :=
  match files with
  | [] => ret t
  | f :: rest =>
      let* t' := loop_body args q square_dir t f in
      for_files args q square_dir rest t'
  end.

(** [main()], from the parsed arguments on. *)
Definition main (args : Args) : M unit :=
  let* root := Os.getcwd in
  let images_root := root // "public" // "images" in
  let square_dir := root // "public" // "square" in
  let* images_exist := Os.exists_ images_root in
  if negb images_exist then
    let* _ := log ["Images directory not found:"; Pathlib.str images_root] in
    raise (SystemExit 1)
  else
    let q := clamp_quality (quality args) in
    let* files := collect_png_files images_root in
    let* square_exists := Os.exists_ square_dir in
    let* files :=
      if square_exists then
        let* more := collect_png_files square_dir in
        ret (files ++ more)
      else ret files in
    let* _ :=
      log ["Found " +:+ pretty (Z.of_nat (length files))
           +:+ " PNG file(s). Starting conversion (quality=" +:+ pretty q
           +:+ ")"
           +:+ (if move_square args then " (move-square enabled)" else "")
           +:+ " ..."] in
    let* t := for_files args q square_dir files tally0 in
    let* _ := log ["--- Summary ---"] in
    let* _ := log ["Converted: " +:+ pretty (converted t)] in
    let* _ := log ["Skipped:   " +:+ pretty (skipped t)] in
    let* _ := log ["Errors:    " +:+ pretty (errors t)] in
    let* _ := log ["Size saved: " +:+ format_kib (saved_total t) +:+ " KiB"] in
    if negb (errors t =? 0) then raise (SystemExit 1) else ret tt.

(** The exit status of the process: 0 when [main] returns, the code of a
    [SystemExit], 1 when another exception ends the interpreter. *)
Definition exit_status (r : result unit) : Z :=
  match r with
  | Ok _ => 0
  | Raise (SystemExit code) => code
  | Raise _ => 1
  end.

End Script.

(** ** What the specification says about flattening

    The definitions of this module follow the words of the specification,
    not the script: they are what [flatten_to_rgb] is compared with. *)

Module Spec.

(** The nearest integer to [(alpha * v + (255 - alpha) * 255) / 255]: the
    value [v] laid over white with opacity [alpha / 255]. *)
Definition over_white (alpha v : Z) : Z :=
  (2 * (alpha * v + (255 - alpha) * 255) + 255) / 510.

(** "has an alpha channel (RGBA or luminance+alpha)" *)
Definition has_alpha (img : PIL.Image) : bool :=
  str_in (PIL.mode img) ["RGBA"; "LA"].

(** "carries transparency metadata" *)
Definition has_transparency (img : PIL.Image) : bool :=
  bool_decide (is_Some (PIL.info img !! "transparency")).

(** The opacity of a pixel, from "the image's own alpha/transparency data":
    the alpha band when there is one; otherwise the [tRNS] entry, which makes
    one gray level, one colour or one palette index fully transparent, or
    gives an alpha per palette index. *)
Definition alpha (img : PIL.Image) (px : list Z) : Z :=
  if has_alpha img then PIL.band (PIL.nbands (PIL.mode img) - 1) px
  else
    match PIL.info img !! "transparency" with
    | Some (PIL.InfoInt t) => if PIL.band 0 px =? t then 0 else 255
    | Some (PIL.InfoTuple t) => if bool_decide (px = t) then 0 else 255
    | Some (PIL.InfoBytes table) => nth (Z.to_nat (PIL.band 0 px)) table 255
    | None => 255
    end.

(** The colour of a pixel that has an alpha band: its red, green and blue
    values, or its gray level three times. *)
Definition colour (img : PIL.Image) (px : list Z) : list Z :=
  if String.eqb (PIL.mode img) "LA"
  then [PIL.band 0 px; PIL.band 0 px; PIL.band 0 px]
  else [PIL.band 0 px; PIL.band 1 px; PIL.band 2 px].

(** An RGB buffer: a size and one colour per pixel. *)
Definition Buffer : Type := (Z * Z) * list (list Z).

Definition buffer (img : PIL.Image) : Buffer := (PIL.size img, PIL.data img).

(** "composite it onto an opaque white background of identical dimensions,
    using the image's own alpha/transparency data as the blend mask" *)
Definition composite_white (img : PIL.Image) (colours : list (list Z)) : Buffer :=
  (PIL.size img,
   zip_with (fun px colour => List.map (over_white (alpha img px)) colour)
     (PIL.data img) colours).

(** The policy of the specification: composite when there is an alpha
    channel or transparency metadata, convert directly otherwise. *)
Definition flatten `{PIL.Codecs} (img : PIL.Image) : result Buffer :=
  result_bind (PIL.convert img "RGB")
    (fun rgb =>
       if has_alpha img || has_transparency img
       then Ok (composite_white img (PIL.data rgb))
       else Ok (buffer rgb)).

End Spec.

Definition result_map {A B} (f : A -> B) (r : result A) : result B :=
  result_bind r (fun a => Ok (f a)).

(** ** Names for what the properties speak of *)

Section Observations.
Context `{PIL.Codecs} `{Host}.

(** The path the relocated JPEG of [png_path] gets in [square_dir]. *)
Definition square_target (png_path square_dir : Path) : Path :=
  square_dir
  // (Str.drop_end (String.length "-square") (Pathlib.stem png_path) +:+ ".jpg").

(** The line [convert_file] logs when it leaves the JPEG where it is. *)
Definition skip_move_notice (target : Path) : string :=
  "[png2jpg] Exists, skip move (use --force): " +:+ Pathlib.str target.

(** The line the loop logs for an error that was raised in the world [w]. *)
Definition error_line (w : World) (f : Path) (exc : Exn) : string :=
  "[png2jpg] Error: " +:+ Pathlib.str f +:+ " " +:+ str_exc w f exc.

(** The modes with an alpha band that the PNG reader delivers. *)
Definition alpha_mode (m : string) : Prop := m = "RGBA" \/ m = "LA".

(** The pixel the paste of [flatten_to_rgb] makes of a pixel with an alpha
    band: white blended with the pixel's bytes by the last band. *)
Definition pasted_pixel (m : string) (px : list Z) : list Z :=
  zip_with (PIL.BLEND (PIL.band (PIL.nbands m - 1) px)) [255; 255; 255]
    (PIL.rgb_bytes m px).

(** The two steps of [convert_file] that follow the encoding: the move of
    a square variant, which gives the path the JPEG ends at, and the removal
    of the PNG with the report. *)
Definition relocate (base : string) (jpg_path : Path) (force move_square : bool)
    (square_dir : Path) : M Path :=
  if move_square && Str.endswith base "-square" then
    let* _ := Os.mkdir_parents square_dir in
    let clean_base := Str.drop_end (String.length "-square") base in
    let target := square_dir // (clean_base +:+ ".jpg") in
    let* target_exists := Os.exists_ target in
    if target_exists && negb force then
      let* _ := log ["Exists, skip move (use --force):"; Pathlib.str target] in
      ret jpg_path
    else
      let* _ := Os.replace jpg_path target in
      ret target
  else ret jpg_path.

Definition finish (png_path jpg_path : Path) (input_size : Z)
    : M (string * Z * Z) :=
  let* _ := Os.unlink png_path in
  let* output_size := Os.stat_st_size jpg_path in
  ret ("converted", input_size, output_size).

(** The world once [png_path] has been read and [jpg_path] written. *)
Definition saved (png_path jpg_path : Path) (content : list Byte.byte)
    (w : World) : World :=
  emit (EvSave jpg_path content)
    (set_fs (insert jpg_path (File content)) (emit (EvRead png_path) w)).

(** Events that are directory creations; events that are no removal. *)
Definition only_mkdir (evs : list Event) : Prop :=
  Forall (fun e => exists p, e = EvMkdir p) evs.
Definition no_unlink (evs : list Event) : Prop :=
  Forall (fun e => forall p, e <> EvUnlink p) evs.

(** [w'] is [w] with directories added on the way to [p], and nothing else
    changed. *)
Definition grows (p : Path) (w w' : World) : Prop :=
  cwd w' = cwd w /\ (stdout w', pending w') = (stdout w, pending w) /\
  (exists evs, trace w' = trace w ++ evs /\ only_mkdir evs) /\
  forall q, fs w' !! q = fs w !! q
            \/ (fs w !! q = None /\ fs w' !! q = Some Dir /\ q `prefix_of` p).

(** A computation whose exceptions are all of class [Exception], the ones
    the loop of [main] catches. *)
Definition result_safe {A} (r : result A) : Prop :=
  forall e, r = Raise e -> is_Exception e = true.
Definition safe {A} (m : M A) : Prop :=
  forall w e w', m w = (Raise e, w') -> is_Exception e = true.

(** The two roots of [main] and the list of files it builds. *)
Definition images_root (w : World) : Path := cwd w // "public" // "images".
Definition square_dir (w : World) : Path := cwd w // "public" // "square".

Definition discovered (w : World) : list Path :=
  let collect root :=
    match collect_png_files root w with
    | (Ok files, _) => files
    | _ => []
    end in
  collect (images_root w)
  ++ (if bool_decide (is_Some (fs w !! square_dir w))
      then collect (square_dir w) else []).

Definition found_line (args : Args) (w : World) : string :=
  "[png2jpg] Found " +:+ pretty (Z.of_nat (length (discovered w)))
  +:+ " PNG file(s). Starting conversion (quality="
  +:+ pretty (clamp_quality (quality args)) +:+ ")"
  +:+ (if move_square args then " (move-square enabled)" else "")
  +:+ " ...".

(** The two checks of [main] before its loop: something is at the path of
    the image directory, and the look at the square directory is not
    refused. *)
Definition startup_passes (w : World) : bool :=
  match Os.exists_ (images_root w) w, Os.exists_ (square_dir w) w with
  | (Ok true, _), (Ok _, _) => true
  | _, _ => false
  end.

(** The loop of [main] on the files it has discovered. *)
Definition main_loop (args : Args) (w : World) : result Tally * World :=
  for_files args (clamp_quality (quality args)) (square_dir w)
    (discovered w) tally0 (print (found_line args w) w).

(** The counters at the end of a run, when the run gets that far. *)
Definition final_tally (args : Args) (w : World) : option Tally :=
  if startup_passes w then
    match main_loop args w with
    | (Ok t, _) => Some t
    | _ => None
    end
  else None.

(** The summary [main] prints. *)
Definition summary (t : Tally) (w : World) : World :=
  print ("[png2jpg] Size saved: " +:+ format_kib (saved_total t) +:+ " KiB")
    (print ("[png2jpg] Errors:    " +:+ pretty (errors t))
       (print ("[png2jpg] Skipped:   " +:+ pretty (skipped t))
          (print ("[png2jpg] Converted: " +:+ pretty (converted t))
             (print "[png2jpg] --- Summary ---" w)))).

(** What [convert_file] returns or raises for each file the loop gets to, in
    order, each call starting in the world the loop has reached; the list
    ends where the loop is left. *)
Fixpoint outcomes (args : Args) (q : Z) (sq : Path) (files : list Path)
    (w : World) : list (result (string * Z * Z)) :=
  match files with
  | [] => []
  | f :: rest =>
      fst (convert_file f q (force args) (move_square args) sq w)
      :: match loop_body args q sq tally0 f w with
         | (Ok _, w') => outcomes args q sq rest w'
         | (Raise _, _) => []
         end
  end.

(** The bytes one outcome adds to the savings. *)
Definition saving (r : result (string * Z * Z)) : Z :=
  match r with
  | Ok (status, input_size, output_size) =>
      if String.eqb status "converted"
      then Z.max 0 (input_size - output_size) else 0
  | Raise _ => 0
  end.

Definition sum_Z (l : list Z) : Z := fold_right Z.add 0 l.

(** The three ways the loop updates its counters. *)
Definition count_converted (t : Tally) (i o : Z) : Tally :=
  {| converted := converted t + 1; skipped := skipped t; errors := errors t;
     saved_total := saved_total t + Z.max 0 (i - o) |}.
Definition count_skipped (t : Tally) : Tally :=
  {| converted := converted t; skipped := skipped t + 1; errors := errors t;
     saved_total := saved_total t |}.
Definition count_error (t : Tally) : Tally :=
  {| converted := converted t; skipped := skipped t; errors := errors t + 1;
     saved_total := saved_total t |}.

(** One more in exactly one of the three counters, none lowered. *)
Definition counts_one (t t' : Tally) : Prop :=
  saved_total t <= saved_total t' /\
  ((converted t' = converted t + 1 /\ skipped t' = skipped t
    /\ errors t' = errors t)
   \/ (converted t' = converted t /\ skipped t' = skipped t + 1
       /\ errors t' = errors t)
   \/ (converted t' = converted t /\ skipped t' = skipped t
       /\ errors t' = errors t + 1)).

Definition total (t : Tally) : Z := converted t + skipped t + errors t.

End Observations.

(** ** What the specification says about a run

    The definitions of this module follow the words of the specification,
    not the script: they are what [convert_file] and [main] are compared
    with. *)

Module Claimed.
Section WithHost.
Context `{PIL.Codecs} `{Host}.

(** "the produced JPEG ends at <square_dir>/<stem with '-square'
    stripped>.jpg and no JPEG remains at the original directory": the JPEG
    is at the target, the target is not in the directory of the PNG, and
    the natural output path of the PNG is empty. *)
Definition relocated (png sq : Path) (content : list Byte.byte) (w' : World)
    : Prop :=
  fs w' !! square_target png sq = Some (File content)
  /\ Pathlib.parent (square_target png sq) <> Pathlib.parent png
  /\ forall jpg, Pathlib.with_suffix png ".jpg" = Ok jpg -> fs w' !! jpg = None.

(** "the primary image directory does not exist at startup" *)
Definition directory_missing (w : World) : Prop :=
  fs w !! images_root w <> Some Dir.

(** "The process exit status is 1 if and only if the primary image
    directory does not exist at startup or the errored count at the end of
    the run is nonzero" *)
Definition exit_status_rule (args : Args) (w : World) : Prop :=
  exit_status (fst (main args w)) = 1
  <-> directory_missing w
      \/ exists t, final_tally args w = Some t /\ errors t <> 0.

(** "an error raised while processing any single file is caught at the
    aggregation boundary, counted as one error, and logged with the
    offending path, and processing continues with every remaining file" *)
Definition continues_after_error (args : Args) (q : Z) (sq : Path) : Prop :=
  forall pre f rest t w t1 w1 e w2,
    for_files args q sq pre t w = (Ok t1, w1) ->
    convert_file f q (force args) (move_square args) sq w1 = (Raise e, w2) ->
    for_files args q sq (pre ++ f :: rest) t w
    = for_files args q sq rest (count_error t1) (print (error_line w2 f e) w2).

(** "no per-file error aborts the batch" *)
Definition batch_never_aborted (args : Args) (q : Z) (sq : Path) : Prop :=
  forall files t w, exists t' w', for_files args q sq files t w = (Ok t', w').

(** "the only condition that aborts the whole run before processing is the
    missing primary image directory" *)
Definition aborted_only_when_missing (args : Args) (w : World) : Prop :=
  is_Some (fs w !! images_root w) ->
  exists t wl,
    main_loop args w = (Ok t, wl)
    /\ main args w
       = (if errors t =? 0 then Ok tt else Raise (SystemExit 1), summary t wl).

End WithHost.
End Claimed.

(** ** A small machine to run the script on *)

Module Example.
Import Byte.

Definition byte_value (b : byte) : Z := Z.of_N (Byte.to_N b).

(** A reader that takes the first byte of the file as the red value of a
    1x1 RGB image and refuses an empty file, and a writer that writes
    hundred bytes per unit of red. *)
#[export] Instance codecs : PIL.Codecs := {|
  PIL.convert_other := fun _ _ => inl "conversion not supported";
  PIL.paste_other := fun _ _ _ => inl "paste not supported";
  PIL.decode := fun c =>
    match c with
    | [] => inl "cannot identify image file"
    | b :: _ =>
        inr {| PIL.mode := "RGB"; PIL.size := (1, 1); PIL.info := ∅;
               PIL.data := [[byte_value b; 0; 0]] |}
    end;
  PIL.encode_jpeg := fun img _ =>
    inr (repeat x00 (Z.to_nat (100 * PIL.band 0 (nth 0 (PIL.data img) []))))
|}.

(** A machine that refuses nothing and writes every text, with the error
    texts of the decoder and of the system. *)
#[export] Instance host : Host := {|
  io_fault := fun _ _ => None;
  io_fault_lookup := ltac:(discriminate);
  dir_st_size := 4096;
  kib_tenths := fun x => (x * 10) / 1024;
  stdout_encodes := fun _ => true;
  str_exc := fun _ _ e =>
    match e with
    | OSError _ p => "cannot access " +:+ Pathlib.str p
    | ValueError msg | IndexError msg | PILError msg => msg
    | UnicodeEncodeError _ => "codec cannot encode characters"
    | SystemExit c => pretty c
    end
|}.

Definition images : Path := ["site"; "public"; "images"].
Definition square : Path := ["site"; "public"; "square"].

Definition tree (files : list (Path * Node)) : World :=
  {| fs := list_to_map
             ([([], Dir); (["site"], Dir); (["site"; "public"], Dir);
               (images, Dir)] ++ files);
     cwd := ["site"]; stdout := []; pending := ""; trace := [] |}.

(** Two PNG files of 1000 and 500 bytes that become JPEGs of 600 and 700. *)
Definition two_files : World :=
  tree [(images // "a.png", File (x06 :: repeat x00 999));
        (images // "b.png", File (x07 :: repeat x00 499))].

(** A square variant, a PNG whose JPEG is there already, and a file that is
    no image. *)
Definition mixed : World :=
  tree [(images // "icon-square.png", File [x02; x00; x00]);
        (images // "done.png", File [x01; x00]);
        (images // "done.jpg", File [x09]);
        (images // "broken.png", File [])].

(** A tree whose [public/images] is empty, one where it is a regular file,
    and one without it. *)
Definition empty_images : World := tree [].

Definition images_is_a_file : World :=
  {| fs := list_to_map [([], Dir); (["site"], Dir); (["site"; "public"], Dir);
                        (images, File [x00])];
     cwd := ["site"]; stdout := []; pending := ""; trace := [] |}.

Definition no_images : World :=
  {| fs := list_to_map [([], Dir); (["site"], Dir)];
     cwd := ["site"]; stdout := []; pending := ""; trace := [] |}.

Definition args (f m : bool) : Args :=
  {| force := f; quality := 82; move_square := m |}.

(** A square variant that lies in the square directory already. *)
Definition in_square : World :=
  tree [(square, Dir); (square // "cover-square.png", File [x02; x00; x00])].

(** A machine whose output takes ASCII only, and a tree with a file that is
    no image and whose name has a letter outside ASCII (the byte 233), next
    to a good PNG. *)
Definition ascii_host : Host := {|
  io_fault := fun _ _ => None;
  io_fault_lookup := ltac:(discriminate);
  dir_st_size := 4096;
  kib_tenths := fun x => (x * 10) / 1024;
  stdout_encodes := fun _ => false;
  str_exc := str_exc
|}.

Definition accented_png : string :=
  "caf" +:+ String (ascii_of_nat 233) ".png".

Definition accented : World :=
  tree [(images // accented_png, File []);
        (images // "z.png", File (x06 :: repeat x00 999))].

(** A machine on which [public] may not be searched: every look at the
    two directories below it is refused. *)
Definition guarded_host : Host := {|
  io_fault := fun _ c =>
    match c with
    | SysStat p =>
        if bool_decide (p = images) || bool_decide (p = square)
        then Some EACCES else None
    | _ => None
    end;
  io_fault_lookup :=
    ltac:(intros w [p| | | | |] e; try discriminate;
          destruct (bool_decide (p = images) || bool_decide (p = square));
          [intros [= <-]; reflexivity | discriminate]);
  dir_st_size := 4096;
  kib_tenths := fun x => (x * 10) / 1024;
  stdout_encodes := fun _ => true;
  str_exc := str_exc
|}.

(** Three conversions on these trees. *)
Definition convert_a : result (string * Z * Z) * World :=
  convert_file (images // "a.png") 82 false false square two_files.
Definition convert_icon : result (string * Z * Z) * World :=
  convert_file (images // "icon-square.png") 82 false true square mixed.
Definition convert_broken : result (string * Z * Z) * World :=
  convert_file (images // "broken.png") 82 false true square mixed.

(** A gray pixel of the level the [tRNS] entry makes transparent. *)
Definition gray_transparent : PIL.Image :=
  {| PIL.mode := "L"; PIL.size := (1, 1);
     PIL.info := {["transparency" := PIL.InfoInt 0]};
     PIL.data := [[0]] |}.

(** A transparent, an opaque and a half transparent pixel. *)
Definition rgba_pixels : PIL.Image :=
  {| PIL.mode := "RGBA"; PIL.size := (3, 1); PIL.info := ∅;
     PIL.data := [[10; 20; 30; 0]; [10; 20; 30; 255]; [10; 20; 30; 128]] |}.

End Example.

(** ** Names for further properties *)

(** A name that ends in [.png], whatever the case of its letters: what
    [collect_png_files] asks of a file name. *)
Definition png_named (p : Path) : bool :=
  Str.endswith (Str.lower (Pathlib.name p)) ".png".

(** Between [w] and [w'] the entries outside [touched] are as they were,
    but for directories added on the way to [sq]. *)
Definition changes_only (touched : Path -> Prop) (sq : Path) (w w' : World)
    : Prop :=
  forall q, ~ touched q ->
    fs w' !! q = fs w !! q
    \/ (fs w !! q = None /\ fs w' !! q = Some Dir /\ q `prefix_of` sq).



(** The three kinds of outcome of one file, and how many of a kind a list
    of outcomes holds. *)
Definition is_converted (r : result (string * Z * Z)) : bool :=
  match r with
  | Ok (status, _, _) => String.eqb status "converted"
  | Raise _ => false
  end.
Definition is_skipped (r : result (string * Z * Z)) : bool :=
  match r with
  | Ok (status, _, _) => String.eqb status "skipped"
  | Raise _ => false
  end.
Definition is_raised (r : result (string * Z * Z)) : bool :=
  match r with
  | Ok _ => false
  | Raise _ => true
  end.
Definition count_of (kind : result (string * Z * Z) -> bool)
    (l : list (result (string * Z * Z))) : Z :=
  Z.of_nat (length (List.filter kind l)).

(** Whether the bytes at [png] can be decoded and flattened. *)
Definition readable `{PIL.Codecs} (png : Path) (w : World) : bool :=
  match fs w !! png with
  | Some (File c) =>
      match PIL.decode c with
      | inr img =>
          match flatten_to_rgb img with
          | Ok _ => true
          | Raise _ => false
          end
      | inl _ => false
      end
  | _ => false
  end.

(** The files [collect_png_files] yields from [root]. *)
Definition collected (root : Path) (w : World) : list Path :=
  match collect_png_files root w with
  | (Ok files, _) => files
  | _ => []
  end.

(** ** A palette image *)

Module Palette.

(** A Pillow that converts a palette image to RGB through a palette of
    grays, and nothing else. *)
Definition codecs : PIL.Codecs := {|
  PIL.convert_other := fun img m =>
    if String.eqb m "RGB" && String.eqb (PIL.mode img) "P" then
      inr {| PIL.mode := "RGB"; PIL.size := PIL.size img;
             PIL.info := PIL.info img;
             PIL.data :=
               List.map (fun px => [PIL.band 0 px; PIL.band 0 px; PIL.band 0 px])
                 (PIL.data img) |}
    else inl "conversion not supported";
  PIL.paste_other := fun _ _ _ => inl "paste not supported";
  PIL.decode := fun _ => inl "cannot identify image file";
  PIL.encode_jpeg := fun _ _ => inr []
|}.

(** One pixel of a palette image whose only colour is transparent. *)
Definition transparent : PIL.Image :=
  {| PIL.mode := "P"; PIL.size := (1, 1);
     PIL.info := {["transparency" := PIL.InfoBytes [0]]};
     PIL.data := [[0]] |}.

End Palette.
(** * Proofs *)

(** ** The arithmetic of the paste *)

Lemma DIV255_rounds x :
  0 <= x <= 65025 -> PIL.DIV255 x = (2 * x + 255) / 510.
Proof.
  intros Hx. unfold PIL.DIV255, PIL.SHIFTFORDIV255.
  rewrite (Z.shiftr_div_pow2 (x + 128) 8) by (clear; lia).
  rewrite Z.shiftr_div_pow2 by (clear; lia).
  change (2 ^ 8) with 256.
  pose proof (Z.div_mod (x + 128) 256 ltac:(lia)).
  pose proof (Z.mod_pos_bound (x + 128) 256 ltac:(lia)).
  set (q := (x + 128) / 256) in *.
  pose proof (Z.div_mod (q + (x + 128)) 256 ltac:(lia)).
  pose proof (Z.mod_pos_bound (q + (x + 128)) 256 ltac:(lia)).
  pose proof (Z.div_mod (2 * x + 255) 510 ltac:(lia)).
  pose proof (Z.mod_pos_bound (2 * x + 255) 510 ltac:(lia)).
  lia.
Qed.

Lemma BLEND_over_white a v :
  0 <= a <= 255 -> 0 <= v <= 255 -> PIL.BLEND a 255 v = Spec.over_white a v.
Proof.
  intros Ha Hv. unfold PIL.BLEND, Spec.over_white, PIL.u8.
  assert (Hx : 0 <= 255 * (255 - a) + v * a <= 65025) by nia.
  rewrite DIV255_rounds by exact Hx.
  replace (a * v + (255 - a) * 255) with (255 * (255 - a) + v * a) by ring.
  apply Z.mod_small.
  split.
  - apply Z.div_pos; lia.
  - apply Z.div_lt_upper_bound; lia.
Qed.

Lemma over_white_transparent v : Spec.over_white 0 v = 255.
Proof. reflexivity. Qed.

Lemma over_white_opaque v : Spec.over_white 255 v = v.
Proof.
  unfold Spec.over_white.
  replace (2 * (255 * v + (255 - 255) * 255) + 255) with (255 + v * 510) by ring.
  rewrite Z.div_add by lia. reflexivity.
Qed.

(** *** Lists *)

Lemma zip3_with_repeat_map {A B C D} (f : A -> B -> C -> D) (c : A)
    (g : B -> C) (l : list B) :
  PIL.zip3_with f (repeat c (length l)) l (List.map g l)
  = List.map (fun x => f c x (g x)) l.
Proof.
  unfold PIL.zip3_with. induction l as [|x l IH]; simpl; [reflexivity|].
  f_equal. exact IH.
Qed.

Section Flatten.
Context `{PIL.Codecs}.

Lemma flatten_alpha_mode (img : PIL.Image) :
  alpha_mode (PIL.mode img) ->
  length (PIL.data img)
  = Z.to_nat (fst (PIL.size img) * snd (PIL.size img)) ->
  flatten_to_rgb img
  = Ok {| PIL.mode := "RGB"; PIL.size := PIL.size img; PIL.info := ∅;
          PIL.data := List.map (pasted_pixel (PIL.mode img)) (PIL.data img) |}.
Proof.
  intros Hm Hlen. destruct img as [m sz inf dat]; simpl in *.
  unfold flatten_to_rgb, PIL.split, PIL.paste, PIL.core_paste, PIL.new.
  destruct Hm as [-> | ->]; simpl;
    rewrite !bool_decide_eq_true_2 by reflexivity; simpl;
    rewrite <- Hlen; rewrite zip3_with_repeat_map; reflexivity.
Qed.
End Flatten.
(** ** The monad *)

Lemma bind_inv {A B} (m : M A) (k : A -> M B) w r w' :
  bind m k w = (r, w') ->
  (exists a w1, m w = (Ok a, w1) /\ k a w1 = (r, w'))
  \/ (exists e, m w = (Raise e, w') /\ r = Raise e).
Proof.
  unfold bind. destruct (m w) as [[a|e] w1]; intros Hr.
  - left. eauto.
  - right. inversion Hr; subst. eauto.
Qed.

Lemma bind_ok {A B} (m : M A) (k : A -> M B) w a w1 :
  m w = (Ok a, w1) -> bind m k w = k a w1.
Proof. unfold bind. intros ->. reflexivity. Qed.

Lemma bind_raise {A B} (m : M A) (k : A -> M B) w e w1 :
  m w = (Raise e, w1) -> bind m k w = (Raise e, w1).
Proof. unfold bind. intros ->. reflexivity. Qed.

Ltac invert_bind H :=
  let a := fresh "a" in
  let w1 := fresh "w" in
  let e := fresh "e" in
  let E := fresh "E" in
  let R := fresh "R" in
  apply bind_inv in H as [(a & w1 & E & H) | (e & E & R)];
  [ | match type of R with
      | ?r = _ => first [ is_var r; subst r | discriminate R | idtac ]
      end ].

(** ** What the calls do to the world *)

Section Calls.
Context `{PIL.Codecs} `{Host}.

Lemma stat_st_size_inv p w r w' :
  Os.stat_st_size p w = (r, w') ->
  w' = w /\
  forall n, r = Ok n ->
    exists node, fs w !! p = Some node /\
      n = match node with File c => Z.of_nat (length c) | Dir => dir_st_size end.
Proof.
  unfold Os.stat_st_size, Os.syscall.
  destruct (io_fault w (SysStat p)); [intros [= <- <-]; split; [done|discriminate]|].
  destruct (fs w !! p) as [[c|]|]; intros [= <- <-]; split; try done.
  - intros n [= <-]. eauto.
  - intros n [= <-]. eauto.
Qed.

Lemma Image_open_inv p w r w' :
  Image_open p w = (r, w') ->
  (exists e, r = Raise e /\ w' = w)
  \/ (exists c, fs w !! p = Some (File c) /\ w' = emit (EvRead p) w
               /\ r = PIL.of_codec (PIL.decode c)).
Proof.
  unfold Image_open, Os.syscall.
  destruct (io_fault w (SysOpenRead p)); [intros [= <- <-]; eauto|].
  destruct (fs w !! p) as [[c|]|]; intros [= <- <-]; eauto.
Qed.

Lemma Image_save_inv img p q w r w' :
  Image_save img p q w = (r, w') ->
  (exists e, r = Raise e /\ w' = w)
  \/ (exists e m, r = Raise e /\ w' = emit (EvSaveFailed p) (set_fs (fun _ => m) w))
  \/ (exists c, PIL.encode_jpeg img q = inr c /\ r = Ok tt
               /\ w' = emit (EvSave p c) (set_fs (insert p (File c)) w)).
Proof.
  unfold Image_save, Os.syscall.
  destruct (io_fault w (SysOpenWrite p)); [intros [= <- <-]; eauto|].
  destruct (PIL.encode_jpeg img q) as [[msg partial]|c] eqn:Henc.
  - destruct (fs w !! p) as [[c|]|] eqn:Hp.
    + intros [= <- <-]. right; left. eexists _, _. split; [done|]. reflexivity.
    + intros [= <- <-]. eauto.
    + destruct (Os.parent_error (fs w) p); [intros [= <- <-]; eauto|].
      destruct (io_fault _ (SysUnlink p)) as [[]|]; intros [= <- <-];
        right; left; eexists _, _; (split; [done|]);
        first [reflexivity | by destruct w].
  - destruct (fs w !! p) as [[c'|]|] eqn:Hp.
    + intros [= <- <-]. right; right. eauto.
    + intros [= <- <-]. eauto.
    + destruct (Os.parent_error (fs w) p); intros [= <- <-]; eauto 10.
Qed.

Lemma unlink_inv p w r w' :
  Os.unlink p w = (r, w') ->
  (exists e, r = Raise e /\ w' = w)
  \/ (exists c, fs w !! p = Some (File c) /\ r = Ok tt
               /\ w' = emit (EvUnlink p) (set_fs (delete p) w)).
Proof.
  unfold Os.unlink, Os.syscall.
  destruct (io_fault w (SysUnlink p)); [intros [= <- <-]; eauto|].
  destruct (fs w !! p) as [[c|]|]; intros [= <- <-]; eauto 10.
Qed.

Lemma replace_inv src dst c w r w' :
  fs w !! src = Some (File c) ->
  Os.replace src dst w = (r, w') ->
  (exists e, r = Raise e /\ w' = w)
  \/ (r = Ok tt
      /\ w' = emit (EvReplace src dst)
                (set_fs (fun _ => <[dst := File c]> (delete src (fs w))) w)).
Proof.
  intros Hsrc. unfold Os.replace, Os.syscall.
  destruct (io_fault w (SysReplace src dst)); [intros [= <- <-]; eauto|].
  rewrite Hsrc.
  destruct (fs w !! dst) as [[c'|]|];
    try destruct (Os.parent_error (fs w) dst); intros [= <- <-]; eauto.
Qed.

End Calls.

(** ** What is written to the standard output *)

Lemma append_assoc (a b c : string) : (a +:+ b) +:+ c = a +:+ (b +:+ c).
Proof.
  induction a as [|x a IH]; [reflexivity|].
  change (String x ((a +:+ b) +:+ c) = String x (a +:+ (b +:+ c))).
  f_equal. exact IH.
Qed.

Lemma append_nil_r (a : string) : a +:+ "" = a.
Proof.
  induction a as [|x a IH]; [reflexivity|].
  change (String x (a +:+ "") = String x a). f_equal. exact IH.
Qed.

Lemma isascii_append (a b : string) :
  Str.isascii (a +:+ b) = Str.isascii a && Str.isascii b.
Proof.
  induction a as [|x a IH]; [reflexivity|].
  change (Str.isascii_char x && Str.isascii (a +:+ b)
          = Str.isascii_char x && Str.isascii a && Str.isascii b).
  rewrite <- andb_assoc. f_equal. exact IH.
Qed.

Lemma put_put (a b : string) (w : World) : put b (put a w) = put (a +:+ b) w.
Proof. unfold put. simpl. by rewrite append_assoc. Qed.

Lemma put_nil (w : World) : put "" w = w.
Proof. destruct w. unfold put. simpl. by rewrite append_nil_r. Qed.

Lemma print_put (a b : string) (w : World) :
  print b (put a w) = print (a +:+ b) w.
Proof. unfold print. by rewrite put_put. Qed.

Section Output.
Context `{Host}.

Lemma encodable_ascii (text : string) :
  Str.isascii text = true -> encodable text = true.
Proof. unfold encodable. by intros ->. Qed.

Lemma write_inv text w r w' :
  write text w = (r, w') ->
  (encodable text = true /\ r = Ok tt /\ w' = put text w)
  \/ (encodable text = false /\ r = Raise (UnicodeEncodeError text) /\ w' = w).
Proof.
  unfold write. destruct (encodable text); intros [= <- <-]; auto.
Qed.

(** The texts are written in order up to the first one that cannot be
    encoded. *)
Lemma write_each_inv texts w r w' :
  write_each texts w = (r, w') ->
  (r = Ok tt /\ Forall (fun t => encodable t = true) texts
   /\ w' = put (Str.join "" texts) w)
  \/ (exists before bad rest,
        texts = before ++ bad :: rest
        /\ Forall (fun t => encodable t = true) before
        /\ encodable bad = false
        /\ r = Raise (UnicodeEncodeError bad)
        /\ w' = put (Str.join "" before) w).
Proof.
  revert w. induction texts as [|t texts IH]; intros w; simpl.
  - intros [= <- <-]. left. by rewrite put_nil.
  - intros Hr. invert_bind Hr.
    + apply write_inv in E as [(Ht & _ & ->) | (_ & [=] & _)].
      apply IH in Hr
        as [(-> & Hall & ->) | (before & bad & rest & -> & Hb & Hbad & -> & ->)].
      * left. split; [done|]. split; [by constructor|].
        rewrite put_put. f_equal.
        destruct texts; simpl; [by rewrite append_nil_r | done].
      * right. exists (t :: before), bad, rest.
        split; [done|]. split; [by constructor|]. split; [done|].
        split; [done|]. rewrite put_put. f_equal.
        destruct before; simpl; [by rewrite append_nil_r | done].
    + apply write_inv in E as [(_ & [=] & _) | (Ht & [= ->] & ->)].
      right. exists [], t, texts. simpl. by rewrite put_nil.
Qed.

Lemma join_separated (sep : string) (objects : list string) :
  Str.join "" (separated sep objects) = Str.join sep objects.
Proof.
  induction objects as [|x objects IH]; [reflexivity|].
  destruct objects as [|y [|z rest]]; [reflexivity | reflexivity |].
  change (x +:+ sep +:+ Str.join "" (separated sep (y :: z :: rest))
          = x +:+ sep +:+ Str.join sep (y :: z :: rest)).
  by rewrite IH.
Qed.

Lemma Forall_separated (P : string -> Prop) (sep : string) objects :
  P sep -> Forall P objects -> Forall P (separated sep objects).
Proof.
  intros Hsep. induction 1 as [|x objects Hx Hall IH]; [constructor|].
  destruct objects as [|y rest]; [by repeat constructor|].
  change (Forall P (x :: sep :: separated sep (y :: rest))).
  constructor; [done|]. constructor; [done|]. exact IH.
Qed.

Lemma Forall_separated_inv (P : string -> Prop) (sep : string) objects :
  Forall P (separated sep objects) -> Forall P objects.
Proof.
  induction objects as [|x objects IH]; [constructor|].
  destruct objects as [|y rest]; [done|].
  change (Forall P (x :: sep :: separated sep (y :: rest))
          -> Forall P (x :: y :: rest)).
  intros Hall. inversion Hall as [|? ? Hx Hall1]; subst.
  inversion Hall1 as [|? ? _ Hall2]; subst.
  constructor; [done|]. by apply IH.
Qed.

Lemma In_separated (sep x : string) objects :
  In x (separated sep objects) -> x = sep \/ In x objects.
Proof.
  induction objects as [|y objects IH]; [by intros []|].
  destruct objects as [|z rest]; [simpl; tauto|].
  change (In x (y :: sep :: separated sep (z :: rest))
          -> x = sep \/ In x (y :: z :: rest)).
  intros [-> | [-> | Hin]]; [by right; left | by left |].
  destruct (IH Hin) as [-> | Hin']; [by left | by right; right].
Qed.

(** [log] writes its line when every argument can be encoded, and
    otherwise raises for the first that cannot, after the prefix and the
    arguments before it have been written. *)
Lemma log_ok args w :
  Forall (fun t => encodable t = true) args ->
  log args w = (Ok tt, print (Str.join " " ("[png2jpg]" :: args)) w).
Proof.
  intros Hall. unfold log, print_objects, bind.
  destruct (write_each _ w) as [r w1] eqn:E.
  apply write_each_inv in E
    as [(-> & _ & ->) | (before & bad & rest & Heq & _ & Hbad & _ & _)].
  - by rewrite join_separated.
  - exfalso.
    assert (Hin : In bad (separated " " ("[png2jpg]" :: args))).
    { rewrite Heq. apply in_elt. }
    apply In_separated in Hin as [-> | [<- | Hin]]; try discriminate Hbad.
    rewrite Forall_forall in Hall. apply list_elem_of_In in Hin.
    by rewrite (Hall _ Hin) in Hbad.
Qed.

Lemma log_inv args w r w' :
  log args w = (r, w') ->
  (r = Ok tt /\ Forall (fun t => encodable t = true) args
   /\ w' = print (Str.join " " ("[png2jpg]" :: args)) w)
  \/ (exists bad partial,
        r = Raise (UnicodeEncodeError bad) /\ In bad args
        /\ encodable bad = false
        /\ w' = put ("[png2jpg] " +:+ partial) w).
Proof.
  unfold log, print_objects. intros Hr. invert_bind Hr.
  - injection Hr as <- <-.
    apply write_each_inv in E
      as [(_ & Hall & ->) | (before & bad & rest & _ & _ & _ & [=] & _)].
    left. split; [by destruct a|]. rewrite join_separated. split; [|done].
    apply Forall_separated_inv in Hall. by inversion Hall.
  - apply write_each_inv in E
      as [([=] & _) | (before & bad & rest & Heq & _ & Hbad & [= ->] & ->)].
    right.
    assert (Hin : In bad (separated " " ("[png2jpg]" :: args))).
    { rewrite Heq. apply in_elt. }
    apply In_separated in Hin as [-> | [<- | Hin]]; try discriminate Hbad.
    destruct args as [|x args]; [done|].
    change (separated " " ("[png2jpg]" :: x :: args))
      with ("[png2jpg]" :: " " :: separated " " (x :: args)) in Heq.
    destruct before as [|b1 [|b2 before]]; simpl in Heq.
    + injection Heq as <- _. discriminate Hbad.
    + injection Heq as _ <- _. discriminate Hbad.
    + injection Heq as <- <- _.
      exists bad, (Str.join "" before). split; [done|]. split; [done|].
      split; [done|]. f_equal. by destruct before.
Qed.

(** A failed [log] leaves a line begun with the prefix. *)
Lemma log_world args w r w' :
  log args w = (r, w') ->
  fs w' = fs w /\ cwd w' = cwd w /\ trace w' = trace w.
Proof.
  intros Hr.
  apply log_inv in Hr as [(_ & _ & ->) | (bad & partial & _ & _ & _ & ->)];
    done.
Qed.

End Output.
(** ** Making directories *)

Section Mkdir.
Context `{Host}.

Lemma grows_refl p w : grows p w w.
Proof.
  repeat split; [|by left].
  exists []. split; [by rewrite app_nil_r | constructor].
Qed.

Lemma grows_trans p w1 w2 w3 : grows p w1 w2 -> grows p w2 w3 -> grows p w1 w3.
Proof.
  intros (Hc1 & Ho1 & (ev1 & Ht1 & Hm1) & Hf1) (Hc2 & Ho2 & (ev2 & Ht2 & Hm2) & Hf2).
  repeat split; [congruence | congruence | |].
  - exists (ev1 ++ ev2). split; [by rewrite Ht2, Ht1, app_assoc|].
    by apply Forall_app.
  - intros q. destruct (Hf1 q) as [E1 | (N1 & D1 & P1)], (Hf2 q) as [E2 | (N2 & D2 & P2)].
    + left. congruence.
    + right. repeat split; [congruence | done | done].
    + right. repeat split; [done | congruence | done].
    + congruence.
Qed.

Lemma grows_mono p p' w w' : p `prefix_of` p' -> grows p w w' -> grows p' w w'.
Proof.
  intros Hp (Hc & Ho & Ht & Hf). repeat split; try done.
  intros q. destruct (Hf q) as [E | (N & D & P)]; [by left|].
  right. repeat split; try done. by etrans.
Qed.

Lemma mkdir1_inv p w r w' :
  Os.mkdir1 p w = (r, w') ->
  (exists e f, r = Raise (OSError e f) /\ w' = w)
  \/ (r = Ok tt /\ fs w !! p = None
      /\ w' = emit (EvMkdir p) (set_fs (insert p Dir) w)).
Proof.
  unfold Os.mkdir1, Os.syscall.
  destruct (io_fault w (SysMkdir p)); [intros [= <- <-]; eauto|].
  destruct (fs w !! p) as [n|] eqn:Hp; [intros [= <- <-]; eauto|].
  destruct (Os.parent_error (fs w) p); intros [= <- <-]; eauto 10.
Qed.

Lemma mkdir1_grows p w r w' : Os.mkdir1 p w = (r, w') -> grows p w w'.
Proof.
  intros Hr. apply mkdir1_inv in Hr as [(e & f & -> & ->) | (-> & Hp & ->)].
  - apply grows_refl.
  - repeat split.
    + exists [EvMkdir p]. split; [done|]. repeat constructor. eauto.
    + intros q. simpl. destruct (decide (p = q)) as [<-|Hne].
      * right. rewrite lookup_insert_eq. done.
      * left. by rewrite lookup_insert_ne.
Qed.

Lemma exists_inv p w r w' :
  Os.exists_ p w = (r, w') ->
  w' = w
  /\ (r = Ok (bool_decide (is_Some (fs w !! p)))
      \/ exists e, r = Raise (OSError e p) /\ io_fault w (SysStat p) = Some e).
Proof.
  unfold Os.exists_.
  destruct (io_fault w (SysStat p)) as [e|] eqn:Hf; [|intros [= <- <-]; auto].
  rewrite (io_fault_lookup _ _ _ Hf). intros [= <- <-]. eauto.
Qed.

Lemma exists_refused p w e :
  io_fault w (SysStat p) = Some e -> Os.exists_ p w = (Raise (OSError e p), w).
Proof.
  intros Hf. unfold Os.exists_. by rewrite Hf, (io_fault_lookup _ _ _ Hf).
Qed.

Lemma exists_answers p w :
  io_fault w (SysStat p) = None ->
  Os.exists_ p w = (Ok (bool_decide (is_Some (fs w !! p))), w).
Proof. intros Hf. unfold Os.exists_. by rewrite Hf. Qed.

Lemma is_dir_inv p w r w' :
  Os.is_dir p w = (r, w') ->
  w' = w
  /\ ((exists b, r = Ok b /\ (b = true -> fs w !! p = Some Dir))
      \/ exists e, r = Raise (OSError e p)).
Proof.
  unfold Os.is_dir.
  destruct (io_fault w (SysStat p)) as [e|] eqn:Hf.
  - rewrite (io_fault_lookup _ _ _ Hf). intros [= <- <-]. eauto.
  - intros [= <- <-]. split; [done|]. left. eexists. split; [done|].
    by destruct (fs w !! p) as [[]|].
Qed.

(** The handler of [mkdir]: the error is let through unless the directory
    is there. *)
Lemma dir_or_raise_inv p e f w r w' :
  (let* d := Os.is_dir p in
   if d then ret tt else raise (OSError e f)) w = (r, w') ->
  w' = w /\ (forall u, r = Ok u -> fs w !! p = Some Dir).
Proof.
  intros Hr. invert_bind Hr.
  - apply is_dir_inv in E as (-> & [(b & [= <-] & Hb) | (e' & [=])]).
    destruct a; injection Hr as <- <-; split; try done. auto.
  - apply is_dir_inv in E as (-> & _). split; [done|]. discriminate.
Qed.

Lemma mkdir_exist_ok_grows p w r w' :
  Os.mkdir_exist_ok p w = (r, w') -> grows p w w'.
Proof.
  unfold Os.mkdir_exist_ok, try_except_OSError.
  destruct (Os.mkdir1 p w) as [r0 w0] eqn:Hm.
  pose proof (mkdir1_grows _ _ _ _ Hm) as Hg.
  apply mkdir1_inv in Hm as [(e & f & -> & ->) | (-> & Hp & ->)].
  - intros Hr. apply dir_or_raise_inv in Hr as [-> _]. apply grows_refl.
  - intros [= <- <-]. exact Hg.
Qed.

Lemma mkdir_parents_rev_grows rp w r w' :
  Os.mkdir_parents_rev rp w = (r, w') -> grows (rev rp) w w'.
Proof.
  revert w r w'. induction rp as [|x rp IH]; intros w r w'; simpl;
    unfold try_except_OSError.
  - destruct (Os.mkdir1 [] w) as [r0 w0] eqn:Hm.
    pose proof (mkdir1_grows _ _ _ _ Hm) as Hg.
    apply mkdir1_inv in Hm as [(e & f & -> & ->) | (-> & Hp & ->)].
    + destruct e; try (intros [= <- <-]; apply grows_refl);
        intros Hr; apply dir_or_raise_inv in Hr as [-> _]; apply grows_refl.
    + intros [= <- <-]. exact Hg.
  - destruct (Os.mkdir1 (rev rp ++ [x]) w) as [r0 w0] eqn:Hm.
    pose proof (mkdir1_grows _ _ _ _ Hm) as Hg.
    apply mkdir1_inv in Hm as [(e & f & -> & ->) | (-> & Hp & ->)].
    + assert (Hother :
        forall rr ww, (let* d := Os.is_dir (rev rp ++ [x]) in
                       if d then ret tt else raise (OSError e f)) w = (rr, ww) ->
                      grows (rev rp ++ [x]) w ww).
      { intros rr ww Hr. apply dir_or_raise_inv in Hr as [-> _].
        apply grows_refl. }
      destruct e; try (apply Hother).
      intros Hb. invert_bind Hb.
      * apply IH in E. apply mkdir_exist_ok_grows in Hb.
        eapply grows_trans; [|exact Hb].
        eapply grows_mono; [|exact E]. by apply prefix_app_r.
      * apply IH in E. eapply grows_mono; [|exact E]. by apply prefix_app_r.
    + intros [= <- <-]. exact Hg.
Qed.

Lemma mkdir_parents_grows p w r w' :
  Os.mkdir_parents p w = (r, w') -> grows p w w'.
Proof.
  unfold Os.mkdir_parents. intros Hm. apply mkdir_parents_rev_grows in Hm.
  by rewrite rev_involutive in Hm.
Qed.

End Mkdir.

(** ** Names and paths *)

Lemma length_append (s t : string) :
  String.length (s +:+ t) = (String.length s + String.length t)%nat.
Proof. induction s as [|c s IH]; simpl; [reflexivity | by rewrite IH]. Qed.

Lemma length_take (n : nat) (s : string) :
  String.length (Str.take n s) = Nat.min n (String.length s).
Proof.
  unfold Str.take. revert n. induction s as [|c s IH]; intros [|n]; simpl;
    try reflexivity.
  by rewrite IH.
Qed.

Lemma endswith_length (s suffix : string) :
  Str.endswith s suffix = true -> (String.length suffix <= String.length s)%nat.
Proof.
  unfold Str.endswith.
  destruct (String.length suffix <=? String.length s)%nat eqn:Hle; [|discriminate].
  intros _. by apply Nat.leb_le.
Qed.

Lemma length_stem (p : Path) :
  (String.length (Pathlib.stem p) <= String.length (Pathlib.name p))%nat.
Proof.
  unfold Pathlib.stem. destruct (Pathlib.suffix_index _); [|done].
  rewrite length_take. lia.
Qed.

Lemma with_suffix_inv (p jpg : Path) (suffix : string) :
  Pathlib.with_suffix p suffix = Ok jpg ->
  jpg = Pathlib.parent p // (Pathlib.stem p +:+ suffix).
Proof.
  unfold Pathlib.with_suffix. destruct (_ =? _)%string; [discriminate|].
  by intros [= <-].
Qed.

Lemma name_joinpath (d : Path) (c : string) : Pathlib.name (d // c) = c.
Proof. unfold Pathlib.name, Pathlib.joinpath. apply last_last. Qed.

(** The target of a move differs from the JPEG that is moved and from the
    PNG it was made of: its name is shorter. *)
Lemma square_target_name (png sq : Path) :
  Str.endswith (Pathlib.stem png) "-square" = true ->
  (String.length (Pathlib.name (square_target png sq)) + 3
   = String.length (Pathlib.stem png))%nat.
Proof.
  intros Hs. apply endswith_length in Hs. simpl in Hs.
  unfold square_target. rewrite name_joinpath, length_append.
  unfold Str.drop_end. rewrite length_take. simpl. lia.
Qed.

Lemma square_target_ne_jpg (png jpg sq : Path) :
  Str.endswith (Pathlib.stem png) "-square" = true ->
  Pathlib.with_suffix png ".jpg" = Ok jpg ->
  square_target png sq <> jpg.
Proof.
  intros Hs Hj Heq. apply with_suffix_inv in Hj.
  pose proof (square_target_name png sq Hs) as Hn.
  rewrite Heq, Hj, name_joinpath, length_append in Hn. simpl in Hn. lia.
Qed.

Lemma square_target_ne_png (png sq : Path) :
  Str.endswith (Pathlib.stem png) "-square" = true ->
  square_target png sq <> png.
Proof.
  intros Hs Heq. pose proof (square_target_name png sq Hs) as Hn.
  rewrite Heq in Hn. pose proof (length_stem png). lia.
Qed.

Lemma square_target_not_prefix (png sq : Path) :
  ~ square_target png sq `prefix_of` sq.
Proof.
  unfold square_target, Pathlib.joinpath. intros Hp.
  apply prefix_length in Hp. rewrite length_app in Hp. simpl in Hp. lia.
Qed.

(** ** One file *)

Section ConvertFile.
Context `{PIL.Codecs} `{Host}.

Lemma convert_file_unfold png q force mv sq :
  convert_file png q force mv sq
  = (let* jpg := lift (Pathlib.with_suffix png ".jpg") in
     let* jpg_exists := Os.exists_ jpg in
     if jpg_exists && negb force then ret ("skipped", 0, 0)
     else
       let* input_size := Os.stat_st_size png in
       let* img := Image_open png in
       let* rgb := lift (flatten_to_rgb img) in
       let* _ := Image_save rgb jpg q in
       let* final := relocate (Pathlib.stem png) jpg force mv sq in
       finish png final input_size).
Proof. reflexivity. Qed.

(** The move: nothing is asked, or directories are made and then the call
    fails, or the JPEG stays with a notice, or it is renamed. *)
Lemma relocate_inv png jpg force mv sq content w r w' :
  fs w !! jpg = Some (File content) ->
  relocate (Pathlib.stem png) jpg force mv sq w = (r, w') ->
  let target := square_target png sq in
  (mv && Str.endswith (Pathlib.stem png) "-square" = false
   /\ r = Ok jpg /\ w' = w)
  \/ (mv && Str.endswith (Pathlib.stem png) "-square" = true
      /\ exists wm, grows sq w wm
         /\ ((exists e, r = Raise e
              /\ (w' = wm
                  \/ exists partial, w' = put ("[png2jpg] " +:+ partial) wm))
             \/ (bool_decide (is_Some (fs wm !! target)) && negb force = true
                 /\ r = Ok jpg /\ w' = print (skip_move_notice target) wm)
             \/ (bool_decide (is_Some (fs wm !! target)) && negb force = false
                 /\ r = Ok target
                 /\ w' = emit (EvReplace jpg target)
                           (set_fs (fun _ => <[target := File content]>
                                               (delete jpg (fs wm))) wm)))).
Proof.
  intros Hjpg. unfold relocate. fold (square_target png sq).
  destruct (mv && Str.endswith (Pathlib.stem png) "-square") eqn:Hmv.
  2:{ intros [= <- <-]. left. done. }
  intros Hr. right. split; [done|].
  invert_bind Hr.
  2:{ exists w'. split; [by eapply mkdir_parents_grows|]. left. eauto. }
  pose proof (mkdir_parents_grows _ _ _ _ E) as Hg.
  exists w0. split; [done|].
  assert (Hj : fs w0 !! jpg = Some (File content)).
  { destruct Hg as (_ & _ & _ & Hf). destruct (Hf jpg) as [-> | (N & _)];
      congruence. }
  invert_bind Hr.
  2:{ apply exists_inv in E0 as (-> & _). left. eauto. }
  apply exists_inv in E0 as (-> & [[= ->] | (e & [=] & _)]).
  destruct (bool_decide (is_Some (fs w0 !! square_target png sq)) && negb force)
    eqn:Hskip.
  - invert_bind Hr.
    + injection Hr as <- <-.
      apply log_inv in E0 as [(_ & _ & ->) | (bad & partial & [=] & _)].
      right; left. done.
    + apply log_inv in E0 as [([=] & _) | (bad & partial & _ & _ & _ & ->)].
      left. eauto.
  - invert_bind Hr.
    + injection Hr as <- <-.
      apply (replace_inv _ _ _ _ _ _ Hj) in E0 as [(e & [=] & _) | (_ & ->)].
      right; right. done.
    + apply (replace_inv _ _ _ _ _ _ Hj) in E0 as [(e' & [= <-] & ->) | ([=] & _)].
      left. eauto.
Qed.

(** The removal and the report. *)
Lemma finish_inv png final input_size w r w' :
  finish png final input_size w = (r, w') ->
  (exists e, r = Raise e /\ w' = w)
  \/ (exists c, fs w !! png = Some (File c)
      /\ w' = emit (EvUnlink png) (set_fs (delete png) w)
      /\ ((exists e, r = Raise e)
          \/ (exists node, fs w' !! final = Some node
              /\ r = Ok ("converted", input_size,
                         match node with
                         | File c' => Z.of_nat (length c')
                         | Dir => dir_st_size
                         end)))).
Proof.
  unfold finish. intros Hr. invert_bind Hr.
  - apply unlink_inv in E as [(e & [=] & _) | (c & Hc & _ & ->)].
    right. exists c. split; [done|].
    invert_bind Hr.
    + apply stat_st_size_inv in E as (-> & Hn). injection Hr as <- <-.
      split; [done|]. right.
      destruct (Hn a0 eq_refl) as (node & Hnode & ->). eauto.
    + apply stat_st_size_inv in E as (-> & _). split; [done|]. left. eauto.
  - apply unlink_inv in E as [(e' & [= <-] & ->) | (c & _ & [=] & _)].
    left. eauto.
Qed.

(** Every run of [convert_file]: it stops before the PNG is opened, or it
    skips, or it stops between the opening and the end of the encoding, or
    the JPEG is written and the two last steps run. *)
Lemma convert_file_inv png q force mv sq w r w' :
  convert_file png q force mv sq w = (r, w') ->
  (exists e, r = Raise e /\ w' = w)
  \/ (exists jpg, Pathlib.with_suffix png ".jpg" = Ok jpg
      /\ bool_decide (is_Some (fs w !! jpg)) && negb force = true
      /\ r = Ok ("skipped", 0, 0) /\ w' = w)
  \/ (exists jpg c, Pathlib.with_suffix png ".jpg" = Ok jpg
      /\ bool_decide (is_Some (fs w !! jpg)) && negb force = false
      /\ fs w !! png = Some (File c)
      /\ ((exists e, r = Raise e
           /\ (w' = emit (EvRead png) w
               \/ exists m, w' = emit (EvSaveFailed jpg)
                                   (set_fs (fun _ => m) (emit (EvRead png) w))))
          \/ (exists img rgb content,
                PIL.decode c = inr img /\ flatten_to_rgb img = Ok rgb
                /\ PIL.encode_jpeg rgb q = inr content
                /\ (let* final := relocate (Pathlib.stem png) jpg force mv sq in
                    finish png final (Z.of_nat (length c)))
                     (saved png jpg content w) = (r, w')))).
Proof.
  rewrite convert_file_unfold. intros Hr.
  invert_bind Hr; [|injection E as _ <-; left; eauto].
  injection E as E <-. rename a into jpg.
  invert_bind Hr.
  2:{ apply exists_inv in E0 as (-> & _). left. eauto. }
  apply exists_inv in E0 as (-> & [[= ->] | (e & [=] & _)]).
  destruct (bool_decide (is_Some (fs w !! jpg)) && negb force) eqn:Hskip.
  { injection Hr as <- <-. right; left. eauto. }
  invert_bind Hr.
  2:{ apply stat_st_size_inv in E0 as (-> & _). left. eauto. }
  apply stat_st_size_inv in E0 as (-> & Hsize).
  destruct (Hsize _ eq_refl) as (node & Hnode & ->). clear Hsize.
  invert_bind Hr.
  2:{ apply Image_open_inv in E0 as [(e' & [= <-] & ->) | (c & Hc & -> & Hd)].
      - left. eauto.
      - right; right. exists jpg, c. repeat (split; [done|]). left. eauto. }
  apply Image_open_inv in E0 as [(e' & [=] & _) | (c & Hc & -> & Hd)].
  rewrite Hc in Hnode. injection Hnode as <-.
  right; right. exists jpg, c. repeat (split; [done|]).
  invert_bind Hr; [|injection E0 as _ <-; left; eauto].
  injection E0 as E0 <-. rename a0 into rgb, a into img.
  invert_bind Hr.
  - apply Image_save_inv in E1
      as [(e & [=] & _) | [(e & m & [=] & _) | (content & Henc & _ & ->)]].
    right. exists img, rgb, content. repeat split; try done.
    destruct (PIL.decode c); simpl in Hd; congruence.
  - apply Image_save_inv in E1
      as [(e' & [= <-] & ->) | [(e' & m & [= <-] & ->) | (content & _ & [=] & _)]];
      left; eauto.
Qed.

End ConvertFile.

Section FileClaims.
Context `{PIL.Codecs} `{Host}.

Lemma only_mkdir_no_unlink evs : only_mkdir evs -> no_unlink evs.
Proof.
  unfold only_mkdir, no_unlink. intros Hall.
  eapply Forall_impl; [exact Hall|]. intros e [p ->] p'. discriminate.
Qed.

Lemma saved_jpg png jpg content w :
  fs (saved png jpg content w) !! jpg = Some (File content).
Proof. simpl. apply lookup_insert_eq. Qed.

Lemma grows_keeps p w w' q node :
  grows p w w' -> fs w !! q = Some node -> fs w' !! q = Some node.
Proof.
  intros (_ & _ & _ & Hf) Hq. destruct (Hf q) as [-> | (N & _)]; congruence.
Qed.

Lemma grows_elsewhere p w w' q :
  grows p w w' -> ~ q `prefix_of` p -> fs w' !! q = fs w !! q.
Proof.
  intros (_ & _ & _ & Hf) Hq. destruct (Hf q) as [-> | (_ & _ & P)]; done.
Qed.

(** The events of the move are no removals. *)
Lemma relocate_trace png jpg force mv sq content w r w' :
  fs w !! jpg = Some (File content) ->
  relocate (Pathlib.stem png) jpg force mv sq w = (r, w') ->
  exists evs, trace w' = trace w ++ evs /\ no_unlink evs.
Proof.
  intros Hjpg Hr.
  apply (relocate_inv _ _ _ _ _ _ _ _ _ Hjpg) in Hr
    as [(_ & _ & ->) | (_ & wm & Hg & Hr)].
  - exists []. split; [by rewrite app_nil_r | constructor].
  - destruct Hg as (_ & _ & (mk & Hmk & Hall) & _).
    apply only_mkdir_no_unlink in Hall.
    destruct Hr as [(e & _ & [-> | (partial & ->)]) | [(_ & _ & ->) | (_ & _ & ->)]];
      simpl.
    + eauto.
    + eauto.
    + eauto.
    + exists (mk ++ [EvReplace jpg (square_target png sq)]).
      split; [by rewrite Hmk, app_assoc|].
      apply Forall_app. split; [done|]. repeat constructor. discriminate.
Qed.

(** What [convert_file] makes of the answer of [exists()] for the output
    path. *)
Lemma convert_file_exists png jpg q force mv sq w r w1 :
  Pathlib.with_suffix png ".jpg" = Ok jpg ->
  Os.exists_ jpg w = (r, w1) ->
  convert_file png q force mv sq w
  = match r with
    | Ok true => if force then convert_file png q force mv sq w
                 else (Ok ("skipped", 0, 0), w1)
    | Ok false => convert_file png q force mv sq w
    | Raise e => (Raise e, w1)
    end.
Proof.
  intros Hjpg Hex. destruct r as [[|]|e]; try done; [destruct force; [done|]|];
    rewrite convert_file_unfold; unfold bind at 1, lift; rewrite Hjpg;
    unfold bind at 1; by rewrite Hex.
Qed.

(** C6: when [exists()] answers that the candidate output path exists and
    force-overwrite is off, [convert_file] returns [("skipped", 0, 0)] and the
    world it returns is the one it was given: no file, no trace entry and no
    output has changed, so neither the JPEG nor the PNG was read, written,
    moved or deleted.  Whenever something is at the output path, that is what
    happens unless the system refuses the look at the path, and then the call
    raises that error in the world it was given. *)
Theorem skip_leaves_everything png jpg q mv sq w :
  Pathlib.with_suffix png ".jpg" = Ok jpg ->
  (Os.exists_ jpg w = (Ok true, w) ->
   convert_file png q false mv sq w = (Ok ("skipped", 0, 0), w))
  /\ (is_Some (fs w !! jpg) ->
      match io_fault w (SysStat jpg) with
      | None => convert_file png q false mv sq w = (Ok ("skipped", 0, 0), w)
      | Some e => convert_file png q false mv sq w = (Raise (OSError e jpg), w)
      end).
Proof.
  intros Hjpg. split.
  - intros Hex. by rewrite (convert_file_exists _ _ _ _ _ _ _ _ _ Hjpg Hex).
  - intros Hex. destruct (io_fault w (SysStat jpg)) as [e|] eqn:Hf.
    + by rewrite (convert_file_exists _ _ _ _ _ _ _ _ _ Hjpg
                    (exists_refused _ _ _ Hf)).
    + pose proof (exists_answers _ _ Hf) as Ha.
      rewrite bool_decide_eq_true_2 in Ha by done.
      by rewrite (convert_file_exists _ _ _ _ _ _ _ _ _ Hjpg Ha).
Qed.

(** C1: a conversion that returns ["converted"] leaves nothing at the PNG's
    path and a file with the encoded bytes at the natural output path or at
    the square target, and reports that file's size; and in every run of
    [convert_file], whatever it returns or raises, the PNG is removed at most
    once, as the last thing done, after the JPEG has been encoded and saved
    (and, when it is moved, after the move). *)
Theorem converted_replaces_png png q force mv sq w :
  (forall i o w',
     convert_file png q force mv sq w = (Ok ("converted", i, o), w') ->
     fs w' !! png = None
     /\ exists final content,
          (final = Pathlib.parent png // (Pathlib.stem png +:+ ".jpg")
           \/ final = square_target png sq)
          /\ fs w' !! final = Some (File content)
          /\ o = Z.of_nat (length content))
  /\ (forall r w',
        convert_file png q force mv sq w = (r, w') ->
        exists evs,
          trace w' = trace w ++ evs
          /\ (no_unlink evs
              \/ exists pre jpg c img rgb content,
                   evs = pre ++ [EvUnlink png] /\ no_unlink pre
                   /\ Pathlib.with_suffix png ".jpg" = Ok jpg
                   /\ fs w !! png = Some (File c)
                   /\ PIL.decode c = inr img
                   /\ flatten_to_rgb img = Ok rgb
                   /\ PIL.encode_jpeg rgb q = inr content
                   /\ In (EvSave jpg content) pre)).
Proof.
  split.
  - intros i o w' Hr.
    apply convert_file_inv in Hr
      as [(e & [=] & _) | [(jpg & _ & _ & [=] & _) | (jpg & c & Hjpg & _ & Hc & Hr)]].
    destruct Hr as [(e & [=] & _) | (img & rgb & content & _ & _ & _ & Hr)].
    invert_bind Hr. rename a into final.
    apply finish_inv in Hr as [(e & [=] & _) | (c' & Hc' & -> & Hr)].
    destruct Hr as [(e & [=]) | (node & Hnode & [= -> ->])].
    simpl in Hnode. split; [simpl; apply lookup_delete_eq|].
    assert (Hne : png <> final) by (intros ->; by rewrite lookup_delete_eq in Hnode).
    rewrite lookup_delete_ne in Hnode by done.
    exists final.
    apply (relocate_inv _ _ _ _ _ _ _ _ _ (saved_jpg png jpg content w)) in E
      as [(_ & [= <-] & ->) | (_ & wm & Hg & E)].
    + rewrite saved_jpg in Hnode. injection Hnode as <-.
      exists content. split; [left; by apply with_suffix_inv in Hjpg|].
      split; [|done]. simpl. rewrite lookup_delete_ne by done.
      apply lookup_insert_eq.
    + pose proof (grows_keeps _ _ _ _ _ Hg (saved_jpg png jpg content w)) as Hj.
      destruct E as [(e & [=] & _) | [(_ & [= <-] & ->) | (_ & [= <-] & ->)]].
      * simpl in Hnode. rewrite Hj in Hnode. injection Hnode as <-.
        exists content. split; [left; by apply with_suffix_inv in Hjpg|].
        split; [|done]. simpl. by rewrite lookup_delete_ne.
      * simpl in Hnode. rewrite lookup_insert_eq in Hnode. injection Hnode as <-.
        exists content. split; [by right|]. split; [|done]. simpl.
        rewrite lookup_delete_ne by done. apply lookup_insert_eq.
  - intros r w' Hr.
    apply convert_file_inv in Hr
      as [(e & _ & ->) | [(jpg & _ & _ & _ & ->) | (jpg & c & Hjpg & _ & Hc & Hr)]].
    + exists []. split; [by rewrite app_nil_r|]. left. constructor.
    + exists []. split; [by rewrite app_nil_r|]. left. constructor.
    + destruct Hr as [(e & _ & [-> | (m & ->)]) | (img & rgb & content & Hd & Hf & He & Hr)].
      * exists [EvRead png]. split; [done|]. left. repeat constructor. discriminate.
      * exists [EvRead png; EvSaveFailed jpg]. split; [simpl; by rewrite <- app_assoc|].
        left. repeat constructor; discriminate.
      * assert (Hsaved : trace (saved png jpg content w)
                         = trace w ++ [EvRead png; EvSave jpg content]).
        { simpl. by rewrite <- app_assoc. }
        apply bind_inv in Hr as [(final & w2 & E & Hr) | (e & E & ->)].
        -- apply (relocate_trace _ _ _ _ _ _ _ _ _ (saved_jpg png jpg content w)) in E
             as (mv_evs & Hmv & Hno).
           apply finish_inv in Hr as [(e & _ & ->) | (c' & _ & -> & _)].
           ++ exists ([EvRead png; EvSave jpg content] ++ mv_evs).
              split; [by rewrite Hmv, Hsaved, app_assoc|]. left.
              apply Forall_app. split; [|done]. repeat constructor; discriminate.
           ++ exists (([EvRead png; EvSave jpg content] ++ mv_evs) ++ [EvUnlink png]).
              split; [simpl; rewrite Hmv, Hsaved; by rewrite <- !app_assoc|].
              right. exists ([EvRead png; EvSave jpg content] ++ mv_evs),
                jpg, c, img, rgb, content.
              repeat split; auto.
              ** apply Forall_app. split; [|done]. repeat constructor; discriminate.
              ** simpl. auto.
        -- apply (relocate_trace _ _ _ _ _ _ _ _ _ (saved_jpg png jpg content w)) in E
             as (mv_evs & Hmv & Hno).
           exists ([EvRead png; EvSave jpg content] ++ mv_evs).
           split; [by rewrite Hmv, Hsaved, app_assoc|]. left.
           apply Forall_app. split; [|done]. repeat constructor; discriminate.
Qed.

(** C3, as the code has it: with move-square on and a stem that ends in
    [-square], a conversion that returns ["converted"] has encoded the
    flattened PNG and moved this JPEG to the square target, a path in the
    square directory, so that nothing is left at the natural output path;
    except when something was at the target and force-overwrite is off: then
    the notice is logged, the JPEG is at the natural output path and the
    target is as it was.  In both cases the reported output size is that of
    the JPEG.  The JPEG has left the directory of the PNG when that is not
    the square directory itself. *)
Theorem square_variant_relocated png q force sq w i o w' :
  Str.endswith (Pathlib.stem png) "-square" = true ->
  convert_file png q force true sq w = (Ok ("converted", i, o), w') ->
  exists jpg c img rgb content,
    Pathlib.with_suffix png ".jpg" = Ok jpg
    /\ fs w !! png = Some (File c)
    /\ PIL.decode c = inr img
    /\ flatten_to_rgb img = Ok rgb
    /\ PIL.encode_jpeg rgb q = inr content
    /\ o = Z.of_nat (length content)
    /\ Pathlib.parent (square_target png sq) = sq
    /\ if bool_decide (is_Some (fs w !! square_target png sq)) && negb force
       then stdout w'
            = stdout w ++ [pending w +:+ skip_move_notice (square_target png sq)]
            /\ pending w' = ""
            /\ fs w' !! jpg = Some (File content)
            /\ fs w' !! square_target png sq = fs w !! square_target png sq
       else stdout w' = stdout w
            /\ pending w' = pending w
            /\ fs w' !! square_target png sq = Some (File content)
            /\ fs w' !! jpg = None.
Proof.
  intros Hsq Hr.
  apply convert_file_inv in Hr
    as [(e & [=] & _) | [(jpg & _ & _ & [=] & _) | (jpg & c & Hjpg & _ & Hc & Hr)]].
  destruct Hr as [(e & [=] & _) | (img & rgb & content & Hd & Hf & He & Hr)].
  invert_bind Hr. rename a into final.
  apply finish_inv in Hr as [(e & [=] & _) | (c' & Hc' & -> & Hr)].
  destruct Hr as [(e & [=]) | (node & Hnode & [= -> ->])].
  simpl in Hnode.
  assert (Hne : png <> final) by (intros ->; by rewrite lookup_delete_eq in Hnode).
  rewrite lookup_delete_ne in Hnode by done.
  pose proof (square_target_ne_jpg png jpg sq Hsq Hjpg) as Htj.
  pose proof (square_target_ne_png png sq Hsq) as Htp.
  apply (relocate_inv _ _ _ _ _ _ _ _ _ (saved_jpg png jpg content w)) in E
    as [(Hmv & _) | (_ & wm & Hg & E)].
  { simpl in Hmv. congruence. }
  pose proof (grows_keeps _ _ _ _ _ Hg (saved_jpg png jpg content w)) as Hj.
  assert (Ht : fs wm !! square_target png sq = fs w !! square_target png sq).
  { rewrite (grows_elsewhere _ _ _ _ Hg (square_target_not_prefix png sq)).
    simpl. by rewrite lookup_insert_ne. }
  assert (Hso : stdout wm = stdout w /\ pending wm = pending w).
  { destruct Hg as (_ & Hso & _). simpl in Hso. by injection Hso. }
  destruct Hso as [Hso Hpe].
  exists jpg, c, img, rgb, content. do 5 (split; [done|]).
  assert (Hpar : Pathlib.parent (square_target png sq) = sq)
    by apply removelast_last.
  destruct E as [(e & [=] & _) | [(Hskip & [= ->] & ->) | (Hskip & [= ->] & ->)]];
    rewrite Ht in Hskip; rewrite Hskip; simpl in *.
  - rewrite Hj in Hnode. injection Hnode as <-.
    repeat split; auto.
    + by rewrite Hso, Hpe.
    + by rewrite lookup_delete_ne.
    + rewrite lookup_delete_ne by done. done.
  - rewrite lookup_insert_eq in Hnode. injection Hnode as <-.
    repeat split; auto.
    + rewrite lookup_delete_ne by done. apply lookup_insert_eq.
    + destruct (decide (png = jpg)) as [<-|Hpj]; [apply lookup_delete_eq|].
      rewrite lookup_delete_ne, lookup_insert_ne by done. apply lookup_delete_eq.
Qed.

End FileClaims.

(** ** Only exceptions the loop catches *)

Ltac raised :=
  let R := fresh "R" in
  intros R; first [ discriminate R | injection R as <- _; reflexivity ].

Section Safe.
Context `{PIL.Codecs} `{Host}.

Lemma safe_ret {A} (a : A) : safe (ret a).
Proof. intros w e w'. discriminate. Qed.

Lemma safe_lift {A} (r : result A) : result_safe r -> safe (lift r).
Proof. intros Hr w e w' [= -> _]. by apply Hr. Qed.

Lemma safe_bind {A B} (m : M A) (k : A -> M B) :
  safe m -> (forall a, safe (k a)) -> safe (bind m k).
Proof.
  intros Hm Hk w e w' Hr. apply bind_inv in Hr as [(a & w1 & _ & Hr) | (e' & E & [= <-])].
  - by eapply Hk.
  - by eapply Hm.
Qed.

Lemma safe_if {A} (b : bool) (m1 m2 : M A) :
  safe m1 -> safe m2 -> safe (if b then m1 else m2).
Proof. by destruct b. Qed.

Lemma safe_syscall {A} c p (m : M A) : safe m -> safe (Os.syscall c p m).
Proof.
  intros Hm w e w'. unfold Os.syscall. destruct (io_fault w c).
  - by intros [= <- _].
  - apply Hm.
Qed.

Lemma safe_exists p : safe (Os.exists_ p).
Proof.
  intros w e w' Hr. by apply exists_inv in Hr as (_ & [[=] | (e' & [= ->] & _)]).
Qed.

Lemma safe_is_dir p : safe (Os.is_dir p).
Proof.
  intros w e w' Hr.
  by apply is_dir_inv in Hr as (_ & [(b & [=] & _) | (e' & [= ->])]).
Qed.

Lemma safe_log args : safe (log args).
Proof.
  intros w e w' Hr.
  by apply log_inv in Hr as [([=] & _) | (bad & partial & [= ->] & _)].
Qed.

Lemma safe_stat p : safe (Os.stat_st_size p).
Proof.
  apply safe_syscall. intros w e w'.
  destruct (fs w !! p) as [[]|]; raised.
Qed.

Lemma safe_unlink p : safe (Os.unlink p).
Proof.
  apply safe_syscall. intros w e w'.
  destruct (fs w !! p) as [[]|]; raised.
Qed.

Lemma safe_replace src dst : safe (Os.replace src dst).
Proof.
  apply safe_syscall. intros w e w'.
  repeat case_match; raised.
Qed.

Lemma safe_mkdir1 p : safe (Os.mkdir1 p).
Proof.
  apply safe_syscall. intros w e w'.
  repeat case_match; raised.
Qed.

Lemma safe_try_OSError {A} (m : M A) (h : Errno -> Path -> M A) :
  safe m -> (forall e p, safe (h e p)) -> safe (try_except_OSError m h).
Proof.
  intros Hm Hh w e w'. unfold try_except_OSError.
  destruct (m w) as [[a|e0] w0] eqn:E; [discriminate|].
  destruct e0; try (intros [= <- _]; by eapply Hm).
  apply Hh.
Qed.

Lemma safe_is_dir_or_raise p e f :
  safe (let* d := Os.is_dir p in if d then ret tt else raise (OSError e f)).
Proof.
  apply safe_bind; [apply safe_is_dir|]. intros [].
  - apply safe_ret.
  - by intros w e' w' [= <- _].
Qed.

Lemma safe_mkdir_exist_ok p : safe (Os.mkdir_exist_ok p).
Proof.
  apply safe_try_OSError; [apply safe_mkdir1|]. intros e f.
  apply safe_is_dir_or_raise.
Qed.

Lemma safe_mkdir_parents_rev rp : safe (Os.mkdir_parents_rev rp).
Proof.
  induction rp as [|x rp IH]; simpl;
    (apply safe_try_OSError; [apply safe_mkdir1|]); intros e f.
  - destruct e; try apply safe_is_dir_or_raise. by intros w e' w' [= <- _].
  - destruct e; try apply safe_is_dir_or_raise.
    apply safe_bind; [exact IH|]. intros _. apply safe_mkdir_exist_ok.
Qed.

Lemma safe_mkdir_parents p : safe (Os.mkdir_parents p).
Proof. apply safe_mkdir_parents_rev. Qed.

Lemma safe_of_codec {A} (r : string + A) : result_safe (PIL.of_codec r).
Proof. destruct r; intros e; simpl; [by intros [= <-] | discriminate]. Qed.

Lemma safe_Image_open p : safe (Image_open p).
Proof.
  apply safe_syscall. intros w e w'.
  destruct (fs w !! p) as [[]|]; intros [= Hr _]; subst; try done.
  by apply safe_of_codec in Hr.
Qed.

Lemma safe_Image_save img p q : safe (Image_save img p q).
Proof.
  apply safe_syscall. intros w e w'.
  repeat case_match; cbv zeta; repeat case_match; raised.
Qed.

Lemma safe_convert img m : result_safe (PIL.convert img m).
Proof.
  unfold PIL.convert. repeat case_match; try discriminate. apply safe_of_codec.
Qed.

Lemma safe_core_paste out im mask : result_safe (PIL.core_paste out im mask).
Proof.
  unfold PIL.core_paste. intros e.
  repeat case_match; try discriminate; by intros [= <-].
Qed.

Lemma safe_paste self im mask : result_safe (PIL.paste self im mask).
Proof.
  unfold PIL.paste. intros e.
  assert (Hk : forall im', result_safe
            (if (PIL.mode self =? "RGB")%string
                && bool_decide (PIL.size self = PIL.size im)
             then PIL.core_paste self im' mask
             else PIL.of_codec (PIL.paste_other self im' mask))).
  { intros im'. case_match; [apply safe_core_paste | apply safe_of_codec]. }
  repeat case_match; simpl; try apply Hk.
  all: destruct (PIL.convert im (PIL.mode self)) eqn:Hc; simpl; try apply Hk.
  all: intros [= <-]; by eapply safe_convert.
Qed.

Lemma safe_flatten img : result_safe (flatten_to_rgb img).
Proof.
  unfold flatten_to_rgb. repeat case_match; try apply safe_convert.
  unfold tuple_last. destruct (rev (PIL.split img)); simpl.
  - by intros e [= <-].
  - apply safe_paste.
Qed.

Lemma safe_with_suffix p s : result_safe (Pathlib.with_suffix p s).
Proof.
  unfold Pathlib.with_suffix. case_match; [by intros e [= <-] | discriminate].
Qed.

Lemma safe_relocate base jpg force mv sq : safe (relocate base jpg force mv sq).
Proof.
  unfold relocate. apply safe_if; [|apply safe_ret].
  apply safe_bind; [apply safe_mkdir_parents|]. intros _.
  apply safe_bind; [apply safe_exists|]. intros b.
  apply safe_if.
  - apply safe_bind; [apply safe_log|]. intros _. apply safe_ret.
  - apply safe_bind; [apply safe_replace|]. intros _. apply safe_ret.
Qed.

Lemma safe_finish png final i : safe (finish png final i).
Proof.
  unfold finish. apply safe_bind; [apply safe_unlink|]. intros _.
  apply safe_bind; [apply safe_stat|]. intros o. apply safe_ret.
Qed.

Lemma safe_convert_file png q force mv sq :
  safe (convert_file png q force mv sq).
Proof.
  rewrite convert_file_unfold.
  apply safe_bind; [apply safe_lift, safe_with_suffix|]. intros jpg.
  apply safe_bind; [apply safe_exists|]. intros b.
  apply safe_if; [apply safe_ret|].
  apply safe_bind; [apply safe_stat|]. intros i.
  apply safe_bind; [apply safe_Image_open|]. intros img.
  apply safe_bind; [apply safe_lift, safe_flatten|]. intros rgb.
  apply safe_bind; [apply safe_Image_save|]. intros _.
  apply safe_bind; [apply safe_relocate|]. intros final.
  apply safe_finish.
Qed.

End Safe.
(** ** The loop and [main] *)

Section Digits.

Lemma isascii_pretty_N_char (n : N) :
  Str.isascii_char (pretty_N_char n) = true.
Proof. unfold pretty_N_char. by repeat case_match. Qed.

Lemma isascii_pretty_N_go (n : N) (s : string) :
  Str.isascii s = true -> Str.isascii (pretty_N_go n s) = true.
Proof.
  revert s. induction (N.lt_wf_0 n) as [n _ IH]; intros s Hs.
  destruct (decide (n = 0)%N) as [->|Hn].
  - by rewrite pretty_N_go_0.
  - rewrite pretty_N_go_step by lia. apply IH.
    + apply N.div_lt; lia.
    + simpl. by rewrite isascii_pretty_N_char.
Qed.

Lemma isascii_pretty_N (n : N) : Str.isascii (pretty n) = true.
Proof.
  unfold pretty, pretty_N. case_decide; [done|].
  by apply isascii_pretty_N_go.
Qed.

Lemma isascii_pretty_Z (z : Z) : Str.isascii (pretty z) = true.
Proof.
  unfold pretty, pretty_Z. destruct z as [|p|p]; [done| |].
  - apply isascii_pretty_N.
  - rewrite isascii_append. simpl. apply isascii_pretty_N.
Qed.

End Digits.

Section Loop.
Context `{PIL.Codecs} `{Host}.

(** The lines [main] prints itself are ASCII, so that every output can take
    them. *)
Lemma found_line_encodable args n :
  encodable
    ("Found " +:+ pretty (Z.of_nat n)
     +:+ " PNG file(s). Starting conversion (quality="
     +:+ pretty (clamp_quality (quality args)) +:+ ")"
     +:+ (if move_square args then " (move-square enabled)" else "")
     +:+ " ...") = true.
Proof.
  apply encodable_ascii. rewrite !isascii_append, !isascii_pretty_Z.
  by destruct (move_square args).
Qed.

Lemma count_line_encodable (label : string) (z : Z) :
  Str.isascii label = true -> encodable (label +:+ pretty z) = true.
Proof.
  intros Hl. apply encodable_ascii. by rewrite isascii_append, Hl, isascii_pretty_Z.
Qed.

Lemma saved_line_encodable (x : Z) :
  encodable ("Size saved: " +:+ format_kib x +:+ " KiB") = true.
Proof.
  apply encodable_ascii. unfold format_kib.
  by rewrite !isascii_append, !isascii_pretty_Z.
Qed.

Lemma log_line (text : string) w :
  encodable text = true ->
  log [text] w = (Ok tt, print ("[png2jpg] " +:+ text) w).
Proof. intros Ht. rewrite log_ok by (by repeat constructor). reflexivity. Qed.

(** What one turn of the loop does with what [convert_file] has done. *)
Lemma loop_body_eq args q sq t f w :
  loop_body args q sq t f w
  = match convert_file f q (force args) (move_square args) sq w with
    | (Ok (status, i, o), w1) =>
        (Ok (if String.eqb status "converted" then count_converted t i o
             else count_skipped t), w1)
    | (Raise e, w1) =>
        match log ["Error:"; Pathlib.str f; str_exc w1 f e] w1 with
        | (Ok _, w2) => (Ok (count_error t), w2)
        | (Raise e', w2) => (Raise e', w2)
        end
    end.
Proof.
  unfold loop_body, try_except_Exception, bind, get.
  destruct (convert_file f q (force args) (move_square args) sq w)
    as [[[[status i] o]|e] w1] eqn:E.
  - by destruct (String.eqb status "converted").
  - rewrite (safe_convert_file _ _ _ _ _ _ _ _ E).
    by destruct (log _ w1) as [[[]|e'] w2].
Qed.

(** An exception of [convert_file] is caught, counted and reported when its
    line can be printed. *)
Lemma loop_body_caught args q sq t f w e w1 :
  convert_file f q (force args) (move_square args) sq w = (Raise e, w1) ->
  encodable (Pathlib.str f) = true ->
  encodable (str_exc w1 f e) = true ->
  loop_body args q sq t f w
  = (Ok (count_error t), print (error_line w1 f e) w1).
Proof.
  intros E Hf He. rewrite loop_body_eq, E.
  rewrite log_ok by (by repeat constructor). reflexivity.
Qed.

(** The three ways one turn of the loop ends. *)
Lemma loop_body_inv args q sq t f w r w' :
  loop_body args q sq t f w = (r, w') ->
  (exists status i o,
     convert_file f q (force args) (move_square args) sq w
     = (Ok (status, i, o), w')
     /\ r = Ok (if String.eqb status "converted" then count_converted t i o
                else count_skipped t))
  \/ (exists e w1,
        convert_file f q (force args) (move_square args) sq w = (Raise e, w1)
        /\ r = Ok (count_error t) /\ w' = print (error_line w1 f e) w1)
  \/ (exists e w1 bad partial,
        convert_file f q (force args) (move_square args) sq w = (Raise e, w1)
        /\ r = Raise (UnicodeEncodeError bad)
        /\ (bad = Pathlib.str f \/ bad = str_exc w1 f e)
        /\ encodable bad = false
        /\ w' = put ("[png2jpg] " +:+ partial) w1).
Proof.
  rewrite loop_body_eq.
  destruct (convert_file f q (force args) (move_square args) sq w)
    as [[[[status i] o]|e] w1] eqn:E.
  - intros [= <- <-]. left. eauto.
  - destruct (log _ w1) as [r1 w2] eqn:El.
    apply log_inv in El
      as [(-> & _ & ->) | (bad & partial & -> & Hin & Hbad & ->)].
    + intros [= <- <-]. right; left. exists e, w1. done.
    + intros [= <- <-]. right; right. exists e, w1, bad, partial.
      repeat split; try done.
      destruct Hin as [<- | [<- | [<- | []]]]; [discriminate Hbad | by left | by right].
Qed.

Lemma loop_body_counts args q sq t f w t' w' :
  loop_body args q sq t f w = (Ok t', w') -> counts_one t t'.
Proof.
  intros E. apply loop_body_inv in E
    as [(status & i & o & _ & [= ->]) | [(e & w1 & _ & [= ->] & _)
        | (e & w1 & bad & partial & _ & [=] & _)]].
  - destruct (String.eqb status "converted"); unfold counts_one; simpl; lia.
  - unfold counts_one; simpl; lia.
Qed.

(** The counters do not steer the turn: the world it reaches, and whether
    it returns, are the same from any counters. *)
Lemma loop_body_world args q sq t f w :
  snd (loop_body args q sq t f w) = snd (loop_body args q sq tally0 f w).
Proof.
  rewrite !loop_body_eq.
  destruct (convert_file f q (force args) (move_square args) sq w)
    as [[[[status i] o]|e] w1]; [done|].
  by destruct (log _ w1) as [[[]|e'] w2].
Qed.

Lemma loop_body_returns args q sq t t0 f w t' w' :
  loop_body args q sq t f w = (Ok t', w') ->
  exists t1, loop_body args q sq t0 f w = (Ok t1, w').
Proof.
  rewrite !loop_body_eq.
  destruct (convert_file f q (force args) (move_square args) sq w)
    as [[[[status i] o]|e] w1].
  - intros [= _ <-]. eauto.
  - destruct (log _ w1) as [[[]|e'] w2]; [|done]. intros [= _ <-]. eauto.
Qed.

Lemma loop_body_raises args q sq t t0 f w e w' :
  loop_body args q sq t f w = (Raise e, w') ->
  loop_body args q sq t0 f w = (Raise e, w').
Proof.
  rewrite !loop_body_eq.
  destruct (convert_file f q (force args) (move_square args) sq w)
    as [[[[status i] o]|e0] w1]; [done|].
  by destruct (log _ w1) as [[[]|e'] w2].
Qed.

Lemma loop_body_saving args q sq t f w t' w' :
  loop_body args q sq t f w = (Ok t', w') ->
  saved_total t'
  = saved_total t
    + saving (fst (convert_file f q (force args) (move_square args) sq w)).
Proof.
  rewrite loop_body_eq.
  destruct (convert_file f q (force args) (move_square args) sq w)
    as [[[[status i] o]|e] w1].
  - intros [= <- _]; simpl. destruct (String.eqb status "converted"); simpl; lia.
  - destruct (log _ w1) as [[[]|e'] w2]; [|done]. intros [= <- _]. simpl. lia.
Qed.

(** A turn returns whenever the line of an error can be printed. *)
Lemma loop_body_total args q sq t f w :
  (forall e w1,
     convert_file f q (force args) (move_square args) sq w = (Raise e, w1) ->
     encodable (Pathlib.str f) = true /\ encodable (str_exc w1 f e) = true) ->
  exists t' w', loop_body args q sq t f w = (Ok t', w').
Proof.
  intros Henc.
  destruct (convert_file f q (force args) (move_square args) sq w)
    as [[[[status i] o]|e] w1] eqn:E.
  - rewrite loop_body_eq, E. eauto.
  - destruct (Henc e w1 eq_refl) as (Hf & He).
    rewrite (loop_body_caught _ _ _ _ _ _ _ _ E Hf He). eauto.
Qed.

Lemma for_files_cons args q sq f rest t w t1 w1 :
  loop_body args q sq t f w = (Ok t1, w1) ->
  for_files args q sq (f :: rest) t w = for_files args q sq rest t1 w1.
Proof. intros E. simpl. unfold bind. by rewrite E. Qed.

Lemma for_files_stop args q sq f rest t w e w1 :
  loop_body args q sq t f w = (Raise e, w1) ->
  for_files args q sq (f :: rest) t w = (Raise e, w1).
Proof. intros E. simpl. unfold bind. by rewrite E. Qed.

Lemma for_files_app args q sq pre rest t w t1 w1 :
  for_files args q sq pre t w = (Ok t1, w1) ->
  for_files args q sq (pre ++ rest) t w = for_files args q sq rest t1 w1.
Proof.
  revert t w. induction pre as [|f pre IH]; intros t w; simpl.
  - by intros [= <- <-].
  - unfold bind. destruct (loop_body args q sq t f w) as [[t'|e] w']; [|done].
    apply IH.
Qed.

(** When the loop runs to its end, every file has counted once. *)
Lemma for_files_total args q sq files t w t' w' :
  for_files args q sq files t w = (Ok t', w') ->
  total t' = total t + Z.of_nat (length files)
  /\ converted t <= converted t' /\ skipped t <= skipped t'
  /\ errors t <= errors t'
  /\ saved_total t'
     = saved_total t + sum_Z (List.map saving (outcomes args q sq files w)).
Proof.
  revert t w. induction files as [|f files IH]; intros t w.
  - intros [= <- <-]. simpl. repeat split; lia.
  - destruct (loop_body args q sq t f w) as [[t1|e] w1] eqn:E.
    2:{ by rewrite (for_files_stop _ _ _ _ _ _ _ _ _ E). }
    rewrite (for_files_cons _ _ _ _ _ _ _ _ _ E). intros E'.
    destruct (IH _ _ E') as (Ht & Hcv & Hsk & Her & Hsv).
    pose proof (loop_body_counts _ _ _ _ _ _ _ _ E) as (Hs & Hc).
    pose proof (loop_body_saving _ _ _ _ _ _ _ _ E) as Hs1.
    destruct (loop_body_returns _ _ _ _ tally0 _ _ _ _ E) as (t0 & E0).
    simpl outcomes. rewrite E0. simpl List.map. simpl sum_Z.
    unfold total in *. rewrite length_cons.
    repeat split; lia.
Qed.

(** The loop is left early only by a line that cannot be printed. *)
Lemma for_files_raise args q sq files t w e w' :
  for_files args q sq files t w = (Raise e, w') ->
  exists bad, e = UnicodeEncodeError bad /\ encodable bad = false.
Proof.
  revert t w. induction files as [|f files IH]; intros t w; [done|].
  destruct (loop_body args q sq t f w) as [[t1|e1] w1] eqn:E.
  - rewrite (for_files_cons _ _ _ _ _ _ _ _ _ E). apply IH.
  - rewrite (for_files_stop _ _ _ _ _ _ _ _ _ E). intros [= <- <-].
    apply loop_body_inv in E
      as [(status & i & o & _ & [=]) | [(e & w2 & _ & [=] & _)
          | (e & w2 & bad & partial & _ & [= ->] & _ & Hbad & _)]].
    eauto.
Qed.

(** Where every text can be printed the loop runs to its end. *)
Lemma for_files_returns args q sq files t w :
  (forall s, stdout_encodes s = true) ->
  exists t' w', for_files args q sq files t w = (Ok t', w').
Proof.
  intros Henc. destruct (for_files args q sq files t w) as [[t'|e] w'] eqn:E.
  - eauto.
  - apply for_files_raise in E as (bad & _ & Hbad).
    unfold encodable in Hbad. rewrite Henc, orb_true_r in Hbad. done.
Qed.

(** What the two looks of [main] at its directories answer. *)
Lemma startup_passes_true w :
  startup_passes w = true
  <-> is_Some (fs w !! images_root w)
      /\ io_fault w (SysStat (images_root w)) = None
      /\ io_fault w (SysStat (square_dir w)) = None.
Proof.
  unfold startup_passes, Os.exists_.
  destruct (io_fault w (SysStat (images_root w))) as [e1|] eqn:E1.
  { rewrite (io_fault_lookup _ _ _ E1). split; [done|]. by intros (_ & ? & _). }
  destruct (io_fault w (SysStat (square_dir w))) as [e2|] eqn:E2.
  { rewrite (io_fault_lookup _ _ _ E2).
    split; [by case_bool_decide|]. by intros (_ & _ & ?). }
  case_bool_decide as Hex.
  - split; [by intros _ | done].
  - split; [done | by intros (? & _)].
Qed.

Lemma startup_passes_exists w :
  startup_passes w = true ->
  Os.exists_ (images_root w) w = (Ok true, w)
  /\ Os.exists_ (square_dir w) w
     = (Ok (bool_decide (is_Some (fs w !! square_dir w))), w).
Proof.
  intros (Hex & E1 & E2)%startup_passes_true.
  unfold Os.exists_. rewrite E1, E2. by rewrite bool_decide_eq_true_2.
Qed.

(** [main] as a case distinction on its two looks and its loop. *)
Lemma main_eq args w :
  main args w
  = match Os.exists_ (images_root w) w with
    | (Raise e, _) => (Raise e, w)
    | (Ok false, _) =>
        match log ["Images directory not found:";
                   Pathlib.str (images_root w)] w with
        | (Ok _, w1) => (Raise (SystemExit 1), w1)
        | (Raise e, w1) => (Raise e, w1)
        end
    | (Ok true, _) =>
        match Os.exists_ (square_dir w) w with
        | (Raise e, _) => (Raise e, w)
        | (Ok _, _) =>
            match main_loop args w with
            | (Ok t, wl) =>
                (if errors t =? 0 then Ok tt else Raise (SystemExit 1),
                 summary t wl)
            | (Raise e, wl) => (Raise e, wl)
            end
        end
    end.
Proof.
  unfold main. unfold bind at 1. unfold Os.getcwd at 1.
  change (cwd w // "public" // "images") with (images_root w).
  change (cwd w // "public" // "square") with (square_dir w).
  unfold bind at 1.
  destruct (Os.exists_ (images_root w) w) as [r1 w1] eqn:E1.
  apply exists_inv in E1 as (-> & [-> | (e & -> & _)]); [|done].
  case_bool_decide as Hex; cbn [negb].
  2:{ unfold bind, raise.
      by destruct (log _ w) as [[[]|e] w1]. }
  unfold bind at 1. unfold collect_png_files at 1.
  unfold bind at 1.
  destruct (Os.exists_ (square_dir w) w) as [r2 w2] eqn:E2.
  apply exists_inv in E2 as (-> & [-> | (e & -> & _)]); [|done].
  unfold main_loop, found_line, discovered, collect_png_files.
  cbv beta iota zeta.
  set (imgs := flat_map _ (Os.walk (images_root w) (fs w))).
  set (sqs := flat_map _ (Os.walk (square_dir w) (fs w))).
  match goal with
  | |- bind ?m _ w = _ =>
      assert (Hfiles :
        m w = (Ok (imgs ++ (if bool_decide (is_Some (fs w !! square_dir w))
                            then sqs else [])), w))
  end.
  { case_bool_decide; unfold bind, ret; [done | by rewrite app_nil_r]. }
  unfold bind at 1. rewrite Hfiles. clear Hfiles.
  set (files := imgs ++ _).
  unfold bind at 1. rewrite (log_line _ _ (found_line_encodable args _)).
  unfold bind at 1.
  destruct (for_files _ _ _ files tally0 _) as [[t|e] wl]; [|done].
  unfold summary.
  unfold bind at 1.
  rewrite (log_line "--- Summary ---") by done.
  unfold bind at 1.
  rewrite (log_line _ _ (count_line_encodable "Converted: " _ eq_refl)).
  unfold bind at 1.
  rewrite (log_line _ _ (count_line_encodable "Skipped:   " _ eq_refl)).
  unfold bind at 1.
  rewrite (log_line _ _ (count_line_encodable "Errors:    " _ eq_refl)).
  unfold bind at 1.
  rewrite (log_line _ _ (saved_line_encodable _)).
  unfold raise, ret. by destruct (errors t =? 0).
Qed.

Lemma main_run args w t wl :
  startup_passes w = true ->
  main_loop args w = (Ok t, wl) ->
  main args w
  = (if errors t =? 0 then Ok tt else Raise (SystemExit 1), summary t wl).
Proof.
  intros (E1 & E2)%startup_passes_exists Hloop.
  by rewrite main_eq, E1, E2, Hloop.
Qed.

Lemma main_aborted args w e wl :
  startup_passes w = true ->
  main_loop args w = (Raise e, wl) ->
  main args w = (Raise e, wl).
Proof.
  intros (E1 & E2)%startup_passes_exists Hloop.
  by rewrite main_eq, E1, E2, Hloop.
Qed.

(** When the start does not pass, [main] ends before the files are
    listed: nothing is read, written or removed. *)
Lemma main_not_started args w :
  startup_passes w = false ->
  fs (snd (main args w)) = fs w
  /\ trace (snd (main args w)) = trace w
  /\ exit_status (fst (main args w)) = 1.
Proof.
  intros Hs. rewrite main_eq. unfold startup_passes in Hs.
  destruct (Os.exists_ (images_root w) w) as [[[]|e1] w1] eqn:E1.
  - destruct (Os.exists_ (square_dir w) w) as [[b|e2] w2] eqn:E2; [done|].
    apply exists_inv in E2 as (_ & [[=] | (e & [= ->] & _)]). done.
  - destruct (log _ w) as [r w2] eqn:El.
    pose proof (log_world _ _ _ _ El) as (Hfs & _ & Htr).
    apply log_inv in El as [(-> & _) | (bad & partial & -> & _)]; done.
  - apply exists_inv in E1 as (_ & [[=] | (e & [= ->] & _)]). done.
Qed.

Lemma main_missing args w :
  Os.exists_ (images_root w) w = (Ok false, w) ->
  encodable (Pathlib.str (images_root w)) = true ->
  main args w
  = (Raise (SystemExit 1),
     print ("[png2jpg] Images directory not found: "
            +:+ Pathlib.str (images_root w)) w).
Proof.
  intros E Henc. rewrite main_eq, E.
  rewrite log_ok by (by repeat constructor). reflexivity.
Qed.

Lemma main_loop_total args w t wl :
  main_loop args w = (Ok t, wl) ->
  total t = Z.of_nat (length (discovered w)).
Proof.
  unfold main_loop. intros E.
  apply for_files_total in E as (Ht & _). rewrite Ht. reflexivity.
Qed.

Lemma main_loop_returns args w :
  (forall s, stdout_encodes s = true) ->
  exists t wl, main_loop args w = (Ok t, wl).
Proof. intros Henc. by apply for_files_returns. Qed.

Lemma final_tally_Some args w t :
  final_tally args w = Some t
  <-> startup_passes w = true /\ exists wl, main_loop args w = (Ok t, wl).
Proof.
  unfold final_tally. destruct (startup_passes w).
  - destruct (main_loop args w) as [[t0|e] wl]; split.
    + intros [= ->]. eauto.
    + intros (_ & wl' & [= -> _]). done.
    + done.
    + by intros (_ & wl' & [=]).
  - split; [done|]. by intros ([=] & _).
Qed.

End Loop.

Section LoopMore.
Context `{PIL.Codecs} `{Host}.

(** The loop runs to its end when no call of [convert_file] raises. *)
Lemma for_files_of_outcomes args q sq files t w :
  Forall (fun r => is_raised r = false) (outcomes args q sq files w) ->
  exists t' w', for_files args q sq files t w = (Ok t', w').
Proof.
  revert t w. induction files as [|f files IH]; intros t w Hall.
  - simpl. eauto.
  - simpl outcomes in Hall. inversion Hall as [|r l Hr Hrest]; subst.
    destruct (convert_file f q (force args) (move_square args) sq w)
      as [[[[status i] o]|e] w1] eqn:E; [|discriminate Hr].
    assert (E0 : forall t0, exists t1,
                   loop_body args q sq t0 f w = (Ok t1, w1)).
    { intros t0. rewrite loop_body_eq, E. eauto. }
    destruct (E0 tally0) as (t0 & Et0). rewrite Et0 in Hrest.
    destruct (E0 t) as (t1 & Et1).
    rewrite (for_files_cons _ _ _ _ _ _ _ _ _ Et1). by apply IH.
Qed.

(** The last line of a run that gets to its summary. *)
Lemma summary_last t w :
  last (stdout (summary t w))
  = Some ("[png2jpg] Size saved: " +:+ format_kib (saved_total t) +:+ " KiB").
Proof. unfold summary. simpl. by rewrite last_snoc. Qed.

End LoopMore.

(** ** Flattening *)

Section FlattenClaims.
Context `{PIL.Codecs}.

Lemma band_range (k : nat) (px : list Z) :
  Forall (fun v => 0 <= v <= 255) px -> 0 <= PIL.band k px <= 255.
Proof.
  intros Hpx. unfold PIL.band. destruct (nth_in_or_default k px 0) as [Hin | ->].
  - rewrite Forall_forall in Hpx. apply Hpx. by apply list_elem_of_In.
  - lia.
Qed.

Lemma pasted_pixel_over_white (img : PIL.Image) (px : list Z) :
  alpha_mode (PIL.mode img) ->
  Forall (fun v => 0 <= v <= 255) px ->
  pasted_pixel (PIL.mode img) px
  = List.map (Spec.over_white (Spec.alpha img px))
      (PIL.rgb_bytes (PIL.mode img) px)
  /\ PIL.rgb_bytes (PIL.mode img) px = Spec.colour img px.
Proof.
  intros Hm Hpx. unfold pasted_pixel, Spec.alpha, Spec.has_alpha, Spec.colour.
  pose proof (fun k => band_range k px Hpx) as Hb.
  destruct Hm as [-> | ->]; simpl; (split; [|reflexivity]);
    rewrite !BLEND_over_white by apply Hb; reflexivity.
Qed.

Lemma alpha_mode_has_alpha (img : PIL.Image) :
  Spec.has_alpha img = true <-> alpha_mode (PIL.mode img).
Proof.
  unfold Spec.has_alpha, alpha_mode, str_in. simpl.
  rewrite !orb_true_iff, !String.eqb_eq. intuition congruence.
Qed.

Lemma wf_pixels (img : PIL.Image) (px : list Z) :
  PIL.wf img -> In px (PIL.data img) -> Forall (fun v => 0 <= v <= 255) px.
Proof.
  intros (_ & _ & _ & Hall) Hin. rewrite Forall_forall in Hall.
  apply list_elem_of_In in Hin. by destruct (Hall _ Hin).
Qed.

(** C9: for an image of mode RGBA or LA as the decoder delivers it,
    [flatten_to_rgb] returns an RGB image of the same size in which every
    pixel whose alpha is 0 is white and every pixel whose alpha is 255 has
    the colour it had. *)
Theorem alpha_pixels_flattened (img : PIL.Image) :
  alpha_mode (PIL.mode img) ->
  PIL.wf img ->
  exists out,
    flatten_to_rgb img = Ok out
    /\ PIL.mode out = "RGB" /\ PIL.size out = PIL.size img
    /\ length (PIL.data out) = length (PIL.data img)
    /\ forall (i : nat) (px : list Z),
         PIL.data img !! i = Some px ->
         (Spec.alpha img px = 0 -> PIL.data out !! i = Some [255; 255; 255])
         /\ (Spec.alpha img px = 255 ->
             PIL.data out !! i = Some (Spec.colour img px)).
Proof.
  intros Hm Hwf. pose proof Hwf as (_ & _ & Hlen & _).
  eexists. split; [by apply flatten_alpha_mode|]. simpl.
  split; [reflexivity|]. split; [reflexivity|].
  split; [by rewrite length_map|].
  intros i px Hi.
  assert (Hpx : Forall (fun v => 0 <= v <= 255) px).
  { apply (wf_pixels img); [done|].
    apply list_elem_of_In. by eapply list_elem_of_lookup_2. }
  destruct (pasted_pixel_over_white img px Hm Hpx) as [Hp Hc].
  split; intros Ha; rewrite list_lookup_fmap, Hi; simpl; f_equal;
    rewrite Hp, Ha, Hc; unfold Spec.colour; case_match; simpl;
    rewrite ?over_white_opaque; reflexivity.
Qed.

(** C2, as the code has it: [flatten_to_rgb] follows the policy of the
    specification for every image that has an alpha channel or carries no
    transparency metadata (it composites the first kind onto white with the
    alpha band as the mask, into an RGB image without transparency entry, and
    converts the second kind directly); an image of mode RGB or L is
    converted directly whether or not it carries transparency metadata. *)
Theorem flatten_policy (img : PIL.Image) :
  PIL.wf img ->
  (Spec.has_alpha img = true \/ Spec.has_transparency img = false ->
   result_map Spec.buffer (flatten_to_rgb img) = Spec.flatten img)
  /\ (str_in (PIL.mode img) ["RGB"; "L"] = true ->
      flatten_to_rgb img = PIL.convert img "RGB")
  /\ (Spec.has_alpha img = true ->
      exists out,
        flatten_to_rgb img = Ok out /\ PIL.mode out = "RGB"
        /\ PIL.info out !! "transparency" = None).
Proof.
  intros Hwf. pose proof Hwf as (_ & _ & Hlen & _).
  split; [|split].
  - intros Hcase.
    destruct (Spec.has_alpha img) eqn:Ha.
    + pose proof (proj1 (alpha_mode_has_alpha img) Ha) as Hm.
      rewrite (flatten_alpha_mode img Hm Hlen).
      unfold Spec.flatten, result_map, Spec.buffer, Spec.composite_white.
      rewrite Ha. simpl.
      assert (Hconv : PIL.convert img "RGB"
                = Ok {| PIL.mode := "RGB"; PIL.size := PIL.size img;
                        PIL.info := PIL.convert_info img;
                        PIL.data := List.map (PIL.rgb_bytes (PIL.mode img))
                                      (PIL.data img) |}).
      { unfold PIL.convert. by destruct Hm as [-> | ->]. }
      rewrite Hconv. simpl. f_equal. f_equal.
      rewrite zip_with_fmap_r, zip_with_diag.
      apply map_ext_in. intros px Hin.
      by destruct (pasted_pixel_over_white img px Hm (wf_pixels img px Hwf Hin)).
    + destruct Hcase as [|Ht]; [done|].
      unfold Spec.flatten, flatten_to_rgb, has_key.
      unfold Spec.has_alpha in *. unfold Spec.has_transparency in *.
      rewrite !Ha, !Ht. cbn [orb].
      destruct (str_in (PIL.mode img) ["RGB"; "L"]);
        unfold result_map; by destruct (PIL.convert img "RGB").
  - intros Hm. unfold flatten_to_rgb. by rewrite Hm.
  - intros Ha. apply alpha_mode_has_alpha in Ha.
    eexists. split; [by apply flatten_alpha_mode|]. simpl. done.
Qed.

End FlattenClaims.

(** ** The run *)

(** C8: the clamped quality lies between 40 and 95; a value below 40 gives
    40 and a value above 95 gives 95; 40, 95 and 82 stay, 10 becomes 40 and
    999 becomes 95. *)
Theorem clamp_quality_bounds (Q : Z) :
  40 <= clamp_quality Q <= 95
  /\ (Q < 40 -> clamp_quality Q = 40)
  /\ (95 < Q -> clamp_quality Q = 95)
  /\ clamp_quality 40 = 40 /\ clamp_quality 95 = 95 /\ clamp_quality 82 = 82
  /\ clamp_quality 10 = 40 /\ clamp_quality 999 = 95.
Proof. unfold clamp_quality. repeat split; lia. Qed.


Section RunClaims.
Context `{PIL.Codecs} `{Host}.

(** C5: an exception of [convert_file] whose line can be printed (the path
    of the file and the text of the exception can be encoded for the
    output) is caught by the loop, adds one to the error counter and is
    logged with the path of the file, and the loop goes on with the files
    that remain; the loop is left early only by a line of an error that
    cannot be printed, and where every text can be printed it always reaches
    the end of its list.  [main] stops before the loop exactly when its
    start does not pass: nothing is at the path of the image directory, or
    the look at the image directory or at the square directory is refused;
    it has then touched no file. *)
Theorem errors_do_not_stop_the_batch (args : Args) (q : Z) (sq : Path) :
  (forall t f w e w1,
     convert_file f q (force args) (move_square args) sq w = (Raise e, w1) ->
     encodable (Pathlib.str f) = true ->
     encodable (str_exc w1 f e) = true ->
     loop_body args q sq t f w
     = (Ok (count_error t), print (error_line w1 f e) w1))
  /\ (forall pre f rest t w t1 w1 e w2,
        for_files args q sq pre t w = (Ok t1, w1) ->
        convert_file f q (force args) (move_square args) sq w1 = (Raise e, w2) ->
        encodable (Pathlib.str f) = true ->
        encodable (str_exc w2 f e) = true ->
        for_files args q sq (pre ++ f :: rest) t w
        = for_files args q sq rest (count_error t1)
            (print (error_line w2 f e) w2))
  /\ (forall t f w exn w',
        loop_body args q sq t f w = (Raise exn, w') ->
        exists e w1 bad,
          convert_file f q (force args) (move_square args) sq w = (Raise e, w1)
          /\ exn = UnicodeEncodeError bad
          /\ (bad = Pathlib.str f \/ bad = str_exc w1 f e)
          /\ encodable bad = false)
  /\ ((forall s, stdout_encodes s = true) ->
      forall files t w,
        exists t' w',
          for_files args q sq files t w = (Ok t', w')
          /\ total t' = total t + Z.of_nat (length files))
  /\ (forall w,
        (startup_passes w = true
         <-> is_Some (fs w !! images_root w)
             /\ io_fault w (SysStat (images_root w)) = None
             /\ io_fault w (SysStat (square_dir w)) = None)
        /\ (startup_passes w = false ->
            fs (snd (main args w)) = fs w
            /\ trace (snd (main args w)) = trace w
            /\ exit_status (fst (main args w)) = 1)
        /\ (startup_passes w = true ->
            main args w
            = match main_loop args w with
              | (Ok t, wl) =>
                  (if errors t =? 0 then Ok tt else Raise (SystemExit 1),
                   summary t wl)
              | (Raise e, wl) => (Raise e, wl)
              end)
        /\ (forall t wl,
              main_loop args w = (Ok t, wl) ->
              total t = Z.of_nat (length (discovered w)))).
Proof.
  split; [|split; [|split; [|split]]].
  - intros t f w e w1 E Hf He. by apply loop_body_caught.
  - intros pre f rest t w t1 w1 e w2 Hpre E Hf He.
    rewrite (for_files_app _ _ _ _ _ _ _ _ _ Hpre).
    apply for_files_cons. by apply loop_body_caught.
  - intros t f w exn w' E.
    apply loop_body_inv in E
      as [(status & i & o & _ & [=]) | [(e & w1 & _ & [=] & _)
          | (e & w1 & bad & partial & E & [= ->] & Hbad & Henc & _)]].
    exists e, w1, bad. done.
  - intros Henc files t w.
    destruct (for_files_returns args q sq files t w Henc) as (t' & w' & E).
    exists t', w'. split; [done|]. by apply for_files_total in E as (Ht & _).
  - intros w. split; [apply startup_passes_true|].
    split; [apply main_not_started|]. split.
    + intros Hs. destruct (main_loop args w) as [[t|e] wl] eqn:E.
      * by apply main_run.
      * by apply main_aborted.
    + intros t wl. apply main_loop_total.
Qed.

(** C10: every turn of the loop that returns has added one to exactly one
    of the three counters and lowered none, and a turn returns whenever the
    line of its error can be printed; a loop that reaches its end has
    therefore grown converted + skipped + errors by the number of files,
    and a run that passes the start and reaches the end of its loop prints a
    summary whose three counters add up to the number of discovered files.
    Where every text can be printed, every loop reaches its end. *)
Theorem counters_partition_files (args : Args) (q : Z) (sq : Path) :
  (forall t f w t' w',
     loop_body args q sq t f w = (Ok t', w') -> counts_one t t')
  /\ (forall t f w,
        (forall e w1,
           convert_file f q (force args) (move_square args) sq w
           = (Raise e, w1) ->
           encodable (Pathlib.str f) = true
           /\ encodable (str_exc w1 f e) = true) ->
        exists t' w',
          loop_body args q sq t f w = (Ok t', w') /\ counts_one t t')
  /\ (forall files t w t' w',
        for_files args q sq files t w = (Ok t', w') ->
        converted t' + skipped t' + errors t'
        = converted t + skipped t + errors t + Z.of_nat (length files)
        /\ converted t <= converted t' /\ skipped t <= skipped t'
        /\ errors t <= errors t')
  /\ ((forall s, stdout_encodes s = true) ->
      forall files t w,
        exists t' w', for_files args q sq files t w = (Ok t', w'))
  /\ (forall w t wl,
        startup_passes w = true ->
        main_loop args w = (Ok t, wl) ->
        converted t + skipped t + errors t
        = Z.of_nat (length (discovered w))
        /\ final_tally args w = Some t
        /\ snd (main args w) = summary t wl)
  /\ ((forall s, stdout_encodes s = true) ->
      forall w, exists t wl, main_loop args w = (Ok t, wl)).
Proof.
  split; [|split; [|split; [|split; [|split]]]].
  - intros t f w t' w'. apply loop_body_counts.
  - intros t f w Henc.
    destruct (loop_body_total args q sq t f w Henc) as (t' & w' & E).
    exists t', w'. split; [done|]. by apply loop_body_counts in E.
  - intros files t w t' w' E.
    apply for_files_total in E as (Ht & Hc & Hs & He & _).
    unfold total in Ht. repeat split; auto.
  - intros Henc files t w. by apply for_files_returns.
  - intros w t wl Hs E. split; [exact (main_loop_total _ _ _ _ E)|].
    split; [apply final_tally_Some; eauto|].
    by rewrite (main_run args w t wl Hs E).
  - intros Henc w. by apply main_loop_returns.
Qed.

(** C7: in a run that passes the start and reaches the end of its loop, the
    savings the summary reports in its last line are the sum, over the
    discovered files, of what each outcome saves: [max 0 (input - output)]
    for a converted file, never less than 0 and exactly 0 when the output is
    not smaller, and 0 for a skipped file or an error; the same holds of
    every loop that reaches its end.  Two converted files with sizes
    (1000, 600) and (500, 700) give 400. *)
Theorem savings_accounting (args : Args) (q : Z) (sq : Path) :
  (forall files t w t' w',
     for_files args q sq files t w = (Ok t', w') ->
     saved_total t'
     = saved_total t + sum_Z (List.map saving (outcomes args q sq files w)))
  /\ (forall i o,
        saving (Ok ("converted", i, o)) = Z.max 0 (i - o)
        /\ 0 <= saving (Ok ("converted", i, o))
        /\ (i <= o -> saving (Ok ("converted", i, o)) = 0))
  /\ (forall i o, saving (Ok ("skipped", i, o)) = 0)
  /\ (forall e, saving (Raise e) = 0)
  /\ (forall files w,
        outcomes args q sq files w
        = [Ok ("converted", 1000, 600); Ok ("converted", 500, 700)] ->
        exists t' w',
          for_files args q sq files tally0 w = (Ok t', w')
          /\ saved_total t' = 400)
  /\ (forall w t wl,
        startup_passes w = true ->
        main_loop args w = (Ok t, wl) ->
        saved_total t
        = sum_Z (List.map saving
                   (outcomes args (clamp_quality (quality args)) (square_dir w)
                      (discovered w) (print (found_line args w) w)))
        /\ snd (main args w) = summary t wl
        /\ last (stdout (snd (main args w)))
           = Some ("[png2jpg] Size saved: " +:+ format_kib (saved_total t)
                   +:+ " KiB")).
Proof.
  split; [|split; [|split; [|split; [|split]]]].
  - intros files t w t' w' E.
    by apply for_files_total in E as (_ & _ & _ & _ & Hs).
  - intros i o. simpl. lia.
  - reflexivity.
  - reflexivity.
  - intros files w Hout.
    destruct (for_files_of_outcomes args q sq files tally0 w)
      as (t' & w' & E).
    { rewrite Hout. by repeat constructor. }
    exists t', w'. split; [done|].
    apply for_files_total in E as (_ & _ & _ & _ & Hs).
    rewrite Hs, Hout. reflexivity.
  - intros w t wl Hs E.
    rewrite (main_run args w t wl Hs E). simpl snd.
    split; [|split; [done | apply summary_last]].
    unfold main_loop in E.
    by apply for_files_total in E as (_ & _ & _ & _ & Hsv).
Qed.

(** C4: the exit status is 0 or 1.  It is 0 exactly when the run passes its
    start (something, a directory or not, is at the path of the image
    directory, and neither look at the image and the square directory is
    refused), reaches the end of its loop, and the error counter is 0 there;
    among these are the runs that find no file.  It is 1 when the start
    does not pass, in which case no file has been touched, when the loop is
    left by a line of an error that cannot be printed, and when the error
    counter is not 0 at the end. *)
Theorem exit_status_of_run (args : Args) (w : World) :
  (exit_status (fst (main args w)) = 0
   \/ exit_status (fst (main args w)) = 1)
  /\ (exit_status (fst (main args w)) = 0
      <-> exists t, final_tally args w = Some t /\ errors t = 0)
  /\ (exit_status (fst (main args w)) = 1
      <-> startup_passes w = false
          \/ (startup_passes w = true
              /\ exists bad wl,
                   main_loop args w = (Raise (UnicodeEncodeError bad), wl)
                   /\ encodable bad = false)
          \/ exists t, final_tally args w = Some t /\ errors t <> 0)
  /\ (startup_passes w = true
      <-> is_Some (fs w !! images_root w)
          /\ io_fault w (SysStat (images_root w)) = None
          /\ io_fault w (SysStat (square_dir w)) = None)
  /\ (forall t,
        final_tally args w = Some t
        <-> startup_passes w = true
            /\ exists wl, main_loop args w = (Ok t, wl))
  /\ (startup_passes w = false ->
      fs (snd (main args w)) = fs w /\ trace (snd (main args w)) = trace w)
  /\ (startup_passes w = true -> discovered w = [] ->
      exit_status (fst (main args w)) = 0).
Proof.
  assert (Hcases :
    (startup_passes w = false /\ exit_status (fst (main args w)) = 1
     /\ final_tally args w = None)
    \/ (startup_passes w = true
        /\ exists bad wl,
             main_loop args w = (Raise (UnicodeEncodeError bad), wl)
             /\ encodable bad = false
             /\ exit_status (fst (main args w)) = 1
             /\ final_tally args w = None)
    \/ (startup_passes w = true
        /\ exists t wl,
             main_loop args w = (Ok t, wl)
             /\ final_tally args w = Some t
             /\ exit_status (fst (main args w))
                = if errors t =? 0 then 0 else 1)).
  { destruct (startup_passes w) eqn:Hs.
    - right. destruct (main_loop args w) as [[t|e] wl] eqn:E.
      + right. split; [done|]. exists t, wl. split; [done|].
        split; [unfold final_tally; by rewrite Hs, E|].
        rewrite (main_run args w t wl Hs E). simpl.
        by destruct (errors t =? 0).
      + left. split; [done|].
        pose proof E as E'. unfold main_loop in E'.
        apply for_files_raise in E' as (bad & -> & Hbad).
        exists bad, wl. split; [done|]. split; [done|].
        split; [by rewrite (main_aborted args w _ wl Hs E)|].
        unfold final_tally. by rewrite Hs, E.
    - left. split; [done|].
      split; [by apply main_not_started|]. unfold final_tally. by rewrite Hs. }
  split; [|split; [|split; [|split; [|split; [|split]]]]].
  - destruct Hcases as [(_ & -> & _) | [(_ & bad & wl & _ & _ & -> & _)
                        | (_ & t & wl & _ & _ & ->)]]; auto.
    destruct (errors t =? 0); auto.
  - destruct Hcases as [(_ & -> & ->) | [(_ & bad & wl & _ & _ & -> & ->)
                        | (_ & t & wl & _ & -> & ->)]].
    + split; [done|]. by intros (t & [=] & _).
    + split; [done|]. by intros (t & [=] & _).
    + destruct (Z.eqb_spec (errors t) 0) as [He|He].
      * split; [eauto|done].
      * split; [done|]. by intros (t0 & [= <-] & He0).
  - destruct Hcases as [(Hs & -> & ->) | [(Hs & bad & wl & E & Hbad & -> & ->)
                        | (Hs & t & wl & E & -> & ->)]].
    + split; auto.
    + split; [|done]. intros _. right; left. eauto.
    + rewrite Hs, E. destruct (Z.eqb_spec (errors t) 0) as [He|He].
      * split; [done|].
        intros [[=] | [(_ & bad & wl' & [=] & _) | (t0 & [= <-] & He0)]].
        done.
      * split; [|done]. intros _. right; right. eauto.
  - apply startup_passes_true.
  - intros t. apply final_tally_Some.
  - intros Hs. by destruct (main_not_started args w Hs) as (? & ? & _).
  - intros Hs Hnil.
    assert (E : main_loop args w = (Ok tally0, print (found_line args w) w)).
    { unfold main_loop. by rewrite Hnil. }
    by rewrite (main_run args w _ _ Hs E).
Qed.

End RunClaims.

(** ** The properties on the small machine *)

Module Run.
Import Example.

Ltac run_eq := vm_compute; reflexivity.

Lemma exists_run {A} (m : M A) (w : World) (a : A) :
  fst (m w) = Ok a -> m w = (Ok a, snd (m w)).
Proof. destruct (m w) as [r w']. simpl. by intros ->. Defined.

Lemma clamp_quality_bounds_witness :
  (10 < 40 /\ clamp_quality 10 = 40) /\ (95 < 999 /\ clamp_quality 999 = 95).
Proof.
  split; (split; [lia|]).
  - apply (proj1 (proj2 (clamp_quality_bounds 10))). lia.
  - apply (proj1 (proj2 (proj2 (clamp_quality_bounds 999)))). lia.
Defined.

Lemma rgba_pixels_wf : PIL.wf rgba_pixels.
Proof.
  unfold PIL.wf; simpl. repeat split; try lia.
  repeat constructor; lia.
Defined.

Lemma gray_transparent_wf : PIL.wf gray_transparent.
Proof.
  unfold PIL.wf; simpl. repeat split; try lia.
  repeat constructor; lia.
Defined.

Lemma alpha_pixels_flattened_witness :
  exists out,
    flatten_to_rgb rgba_pixels = Ok out
    /\ PIL.mode out = "RGB" /\ PIL.size out = PIL.size rgba_pixels
    /\ length (PIL.data out) = length (PIL.data rgba_pixels)
    /\ forall (i : nat) (px : list Z),
         PIL.data rgba_pixels !! i = Some px ->
         (Spec.alpha rgba_pixels px = 0 ->
          PIL.data out !! i = Some [255; 255; 255])
         /\ (Spec.alpha rgba_pixels px = 255 ->
             PIL.data out !! i = Some (Spec.colour rgba_pixels px)).
Proof.
  apply (alpha_pixels_flattened rgba_pixels).
  - left. reflexivity.
  - exact rgba_pixels_wf.
Defined.

Lemma flatten_policy_witness :
  result_map Spec.buffer (flatten_to_rgb rgba_pixels) = Spec.flatten rgba_pixels
  /\ (exists out,
        flatten_to_rgb rgba_pixels = Ok out /\ PIL.mode out = "RGB"
        /\ PIL.info out !! "transparency" = None)
  /\ flatten_to_rgb gray_transparent = PIL.convert gray_transparent "RGB".
Proof.
  split; [|split].
  - apply (proj1 (flatten_policy rgba_pixels rgba_pixels_wf)). left. reflexivity.
  - apply (proj2 (proj2 (flatten_policy rgba_pixels rgba_pixels_wf))). reflexivity.
  - apply (proj1 (proj2 (flatten_policy gray_transparent gray_transparent_wf))).
    reflexivity.
Defined.

(** The claim C2 as it is stated fails on a gray image whose [tRNS] entry
    makes its only pixel transparent: the specification composites it to
    white, the script converts it and keeps it black. *)
Lemma flatten_gray_transparency_counterexample :
  PIL.wf gray_transparent
  /\ Spec.has_transparency gray_transparent = true
  /\ Spec.flatten gray_transparent = Ok ((1, 1), [[255; 255; 255]])
  /\ result_map Spec.buffer (flatten_to_rgb gray_transparent)
     = Ok ((1, 1), [[0; 0; 0]])
  /\ ~ (forall img : PIL.Image,
          PIL.wf img ->
          result_map Spec.buffer (flatten_to_rgb img) = Spec.flatten img).
Proof.
  split; [exact gray_transparent_wf|].
  split; [reflexivity|]. split; [reflexivity|]. split; [reflexivity|].
  intros Hall. specialize (Hall gray_transparent gray_transparent_wf).
  discriminate Hall.
Qed.

Lemma skip_leaves_everything_witness :
  Os.exists_ (images // "done.jpg") mixed = (Ok true, mixed)
  /\ convert_file (images // "done.png") 82 false true square mixed
     = (Ok ("skipped", 0, 0), mixed).
Proof.
  assert (Hex : Os.exists_ (images // "done.jpg") mixed = (Ok true, mixed))
    by run_eq.
  split; [exact Hex|].
  exact (proj1 (skip_leaves_everything (images // "done.png")
                  (images // "done.jpg") 82 true square mixed eq_refl) Hex).
Defined.

Lemma converted_replaces_png_witness :
  fst convert_a = Ok ("converted", 1000, 600)
  /\ fs (snd convert_a) !! (images // "a.png") = None
  /\ (exists final content,
        (final = Pathlib.parent (images // "a.png")
                 // (Pathlib.stem (images // "a.png") +:+ ".jpg")
         \/ final = square_target (images // "a.png") square)
        /\ fs (snd convert_a) !! final = Some (File content)
        /\ 600 = Z.of_nat (length content))
  /\ exists evs,
       trace (snd convert_a) = trace two_files ++ evs
       /\ (no_unlink evs
           \/ exists pre jpg c img rgb content,
                evs = pre ++ [EvUnlink (images // "a.png")] /\ no_unlink pre
                /\ Pathlib.with_suffix (images // "a.png") ".jpg" = Ok jpg
                /\ fs two_files !! (images // "a.png") = Some (File c)
                /\ PIL.decode c = inr img
                /\ flatten_to_rgb img = Ok rgb
                /\ PIL.encode_jpeg rgb 82 = inr content
                /\ In (EvSave jpg content) pre).
Proof.
  assert (E : fst convert_a = Ok ("converted", 1000, 600)) by run_eq.
  split; [exact E|].
  apply exists_run in E.
  pose proof (converted_replaces_png (images // "a.png") 82 false false square
                two_files) as [Hfiles Htrace].
  split; [exact (proj1 (Hfiles _ _ _ E))|].
  split; [exact (proj2 (Hfiles _ _ _ E))|].
  exact (Htrace _ _ E).
Defined.

Lemma square_variant_relocated_witness :
  Str.endswith (Pathlib.stem (images // "icon-square.png")) "-square" = true
  /\ fst convert_icon = Ok ("converted", 3, 200)
  /\ exists jpg c img rgb content,
       Pathlib.with_suffix (images // "icon-square.png") ".jpg" = Ok jpg
       /\ fs mixed !! (images // "icon-square.png") = Some (File c)
       /\ PIL.decode c = inr img
       /\ flatten_to_rgb img = Ok rgb
       /\ PIL.encode_jpeg rgb 82 = inr content
       /\ 200 = Z.of_nat (length content)
       /\ Pathlib.parent (square // "icon.jpg") = square
       /\ stdout (snd convert_icon) = stdout mixed
       /\ pending (snd convert_icon) = pending mixed
       /\ fs (snd convert_icon) !! (square // "icon.jpg") = Some (File content)
       /\ fs (snd convert_icon) !! jpg = None.
Proof.
  assert (Hs : Str.endswith (Pathlib.stem (images // "icon-square.png"))
                 "-square" = true) by reflexivity.
  assert (E : fst convert_icon = Ok ("converted", 3, 200)) by run_eq.
  split; [exact Hs|]. split; [exact E|].
  apply exists_run in E.
  exact (square_variant_relocated (images // "icon-square.png") 82 false square
           mixed 3 200 (snd convert_icon) Hs E).
Defined.

(** The claim C3 as it is stated fails on a square variant that lies in the
    square directory: its JPEG is moved to the target, which is in the
    directory the PNG was in. *)
Lemma square_in_square_dir_counterexample :
  Str.endswith (Pathlib.stem (square // "cover-square.png")) "-square" = true
  /\ fs in_square !! square_target (square // "cover-square.png") square = None
  /\ (exists w' content,
        convert_file (square // "cover-square.png") 82 false true square
          in_square
        = (Ok ("converted", 3, 200), w')
        /\ square_target (square // "cover-square.png") square
           = square // "cover.jpg"
        /\ fs w' !! (square // "cover.jpg") = Some (File content)
        /\ Pathlib.parent (square // "cover.jpg")
           = Pathlib.parent (square // "cover-square.png"))
  /\ ~ (forall png q force sq w i o w',
          Str.endswith (Pathlib.stem png) "-square" = true ->
          fs w !! square_target png sq = None ->
          convert_file png q force true sq w = (Ok ("converted", i, o), w') ->
          exists content, Claimed.relocated png sq content w').
Proof.
  assert (Hs : Str.endswith (Pathlib.stem (square // "cover-square.png"))
                 "-square" = true) by reflexivity.
  assert (Ht : fs in_square
               !! square_target (square // "cover-square.png") square = None)
    by run_eq.
  assert (E : fst (convert_file (square // "cover-square.png") 82 false true
                     square in_square)
              = Ok ("converted", 3, 200)) by run_eq.
  apply exists_run in E.
  split; [exact Hs|]. split; [exact Ht|]. split.
  - eexists _, _. split; [exact E|]. split; [reflexivity|].
    split; [run_eq | reflexivity].
  - intros Hall. destruct (Hall _ _ _ _ _ _ _ _ Hs Ht E) as (content & _ & Hne & _).
    apply Hne. reflexivity.
Qed.

Lemma errors_do_not_stop_the_batch_witness :
  convert_broken
  = (Raise (PILError "cannot identify image file"),
     emit (EvRead (images // "broken.png")) mixed)
  /\ loop_body (args false true) 82 square tally0 (images // "broken.png") mixed
     = (Ok (count_error tally0),
        print (error_line (emit (EvRead (images // "broken.png")) mixed)
                 (images // "broken.png")
                 (PILError "cannot identify image file"))
          (emit (EvRead (images // "broken.png")) mixed))
  /\ for_files (args false true) 82 square
       ([] ++ images // "broken.png" :: [images // "done.png"]) tally0 mixed
     = for_files (args false true) 82 square [images // "done.png"]
         (count_error tally0)
         (print (error_line (emit (EvRead (images // "broken.png")) mixed)
                   (images // "broken.png")
                   (PILError "cannot identify image file"))
            (emit (EvRead (images // "broken.png")) mixed))
  /\ (startup_passes no_images = false
      /\ fs (snd (main (args false true) no_images)) = fs no_images
      /\ trace (snd (main (args false true) no_images)) = trace no_images
      /\ exit_status (fst (main (args false true) no_images)) = 1)
  /\ (startup_passes mixed = true
      /\ main (args false true) mixed
         = match main_loop (args false true) mixed with
           | (Ok t, wl) =>
               (if errors t =? 0 then Ok tt else Raise (SystemExit 1),
                summary t wl)
           | (Raise e, wl) => (Raise e, wl)
           end).
Proof.
  assert (E : convert_broken
              = (Raise (PILError "cannot identify image file"),
                 emit (EvRead (images // "broken.png")) mixed)) by run_eq.
  assert (Hf : encodable (Pathlib.str (images // "broken.png")) = true)
    by reflexivity.
  assert (He : encodable
                 (str_exc (emit (EvRead (images // "broken.png")) mixed)
                    (images // "broken.png")
                    (PILError "cannot identify image file")) = true)
    by reflexivity.
  assert (Hno : startup_passes no_images = false) by run_eq.
  assert (Hyes : startup_passes mixed = true) by run_eq.
  pose proof (errors_do_not_stop_the_batch (args false true) 82 square)
    as (Hcatch & Hgo & _ & _ & Hmain).
  split; [exact E|].
  split; [exact (Hcatch tally0 _ mixed _ _ E Hf He)|].
  split; [exact (Hgo [] _ _ tally0 mixed tally0 mixed _ _ eq_refl E Hf He)|].
  split.
  - split; [exact Hno|].
    exact (proj1 (proj2 (Hmain no_images)) Hno).
  - split; [exact Hyes|].
    exact (proj1 (proj2 (proj2 (Hmain mixed))) Hyes).
Defined.

(** The claim C5 as it is stated fails where a line of an error cannot be
    printed: on an output that takes ASCII only the report of a broken file
    whose name has an accented letter raises in the handler of the loop, the
    run ends there and the file after it is not processed.  It also fails
    where the look at the image directory is refused: the run ends before the
    loop although the directory is there. *)
Lemma unprintable_error_counterexample :
  (@convert_file codecs ascii_host (images // accented_png) 82 false false
     square accented
   = (Raise (PILError "cannot identify image file"),
      emit (EvRead (images // accented_png)) accented)
   /\ discovered accented = [images // accented_png; images // "z.png"]
   /\ fst (@main codecs ascii_host (args false false) accented)
      = Raise (UnicodeEncodeError (Pathlib.str (images // accented_png)))
   /\ fs (snd (@main codecs ascii_host (args false false) accented))
      !! (images // "z.png")
      = fs accented !! (images // "z.png")
   /\ fs (snd (@main codecs ascii_host (args false false) accented))
      !! (images // "z.jpg") = None
   /\ ~ @Claimed.continues_after_error codecs ascii_host (args false false) 82
          square
   /\ ~ @Claimed.batch_never_aborted codecs ascii_host (args false false) 82
          square)
  /\ (fs two_files !! images_root two_files = Some Dir
      /\ @main codecs guarded_host (args false false) two_files
         = (Raise (OSError EACCES images), two_files)
      /\ ~ @Claimed.aborted_only_when_missing codecs guarded_host
             (args false false) two_files).
Proof.
  assert (E : @convert_file codecs ascii_host (images // accented_png) 82
                false false square accented
              = (Raise (PILError "cannot identify image file"),
                 emit (EvRead (images // accented_png)) accented)) by run_eq.
  split.
  - split; [exact E|]. split; [run_eq|]. split; [run_eq|].
    split; [run_eq|]. split; [run_eq|]. split.
    + intros Hc.
      specialize (Hc [] (images // accented_png) [] tally0 accented tally0
                    accented _ _ eq_refl E).
      apply (f_equal fst) in Hc. vm_compute in Hc. discriminate Hc.
    + intros Hall.
      destruct (Hall [images // accented_png] tally0 accented) as (t' & w' & E').
      apply (f_equal fst) in E'. vm_compute in E'. discriminate E'.
  - split; [run_eq|]. split; [run_eq|].
    intros Hall. destruct Hall as (t & wl & _ & E').
    { eexists. run_eq. }
    apply (f_equal fst) in E'. cbn [fst] in E'.
    destruct (errors t =? 0); vm_compute in E'; discriminate E'.
Qed.

Lemma counters_partition_files_witness :
  startup_passes mixed = true
  /\ exists t wl,
       main_loop (args false true) mixed = (Ok t, wl)
       /\ converted t + skipped t + errors t
          = Z.of_nat (length (discovered mixed))
       /\ final_tally (args false true) mixed = Some t
       /\ snd (main (args false true) mixed) = summary t wl.
Proof.
  assert (Hs : startup_passes mixed = true) by run_eq.
  split; [exact Hs|].
  pose proof (counters_partition_files (args false true) 82 square)
    as (_ & _ & _ & _ & Hmain & Hret).
  destruct (Hret (fun _ => eq_refl) mixed) as (t & wl & E).
  exists t, wl. split; [exact E|]. exact (Hmain mixed t wl Hs E).
Defined.

Lemma savings_accounting_witness :
  outcomes (args false false) 82 square
    [images // "a.png"; images // "b.png"] two_files
  = [Ok ("converted", 1000, 600); Ok ("converted", 500, 700)]
  /\ (exists t' w',
        for_files (args false false) 82 square
          [images // "a.png"; images // "b.png"] tally0 two_files
        = (Ok t', w')
        /\ saved_total t' = 400)
  /\ (500 <= 700 /\ saving (Ok ("converted", 500, 700)) = 0)
  /\ (startup_passes two_files = true
      /\ exists t wl,
           main_loop (args false false) two_files = (Ok t, wl)
           /\ saved_total t = 400
           /\ snd (main (args false false) two_files) = summary t wl
           /\ last (stdout (snd (main (args false false) two_files)))
              = Some "[png2jpg] Size saved: 0.3 KiB").
Proof.
  assert (E : outcomes (args false false) 82 square
                [images // "a.png"; images // "b.png"] two_files
              = [Ok ("converted", 1000, 600); Ok ("converted", 500, 700)])
    by run_eq.
  assert (Hs : startup_passes two_files = true) by run_eq.
  pose proof (savings_accounting (args false false) 82 square)
    as (_ & Hsave & _ & _ & Hex & Hmain).
  split; [exact E|]. split; [exact (Hex _ _ E)|].
  split; [split; [lia|]; apply (proj2 (proj2 (Hsave 500 700))); lia|].
  split; [exact Hs|].
  assert (El : exists t wl, main_loop (args false false) two_files = (Ok t, wl)
                            /\ saved_total t = 400).
  { eexists _, _. split; [apply exists_run; run_eq | run_eq]. }
  destruct El as (t & wl & El & H400).
  exists t, wl. split; [exact El|]. split; [exact H400|].
  destruct (Hmain two_files t wl Hs El) as (_ & Hsum & Hlast).
  split; [exact Hsum|]. rewrite Hlast, H400. reflexivity.
Defined.

Lemma exit_status_of_run_witness :
  (startup_passes no_images = false
   /\ exit_status (fst (main (args false false) no_images)) = 1
   /\ fs (snd (main (args false false) no_images)) = fs no_images
   /\ trace (snd (main (args false false) no_images)) = trace no_images)
  /\ (startup_passes empty_images = true
      /\ discovered empty_images = []
      /\ exit_status (fst (main (args false false) empty_images)) = 0)
  /\ ((exists t, final_tally (args false true) mixed = Some t /\ errors t <> 0)
      /\ exit_status (fst (main (args false true) mixed)) = 1).
Proof.
  assert (Hno : startup_passes no_images = false) by run_eq.
  assert (Hex : startup_passes empty_images = true) by run_eq.
  assert (Hnil : discovered empty_images = []) by run_eq.
  assert (Herr : exists t, final_tally (args false true) mixed = Some t
                           /\ errors t <> 0).
  { eexists. split; [run_eq|]. simpl. lia. }
  split; [|split].
  - pose proof (exit_status_of_run (args false false) no_images)
      as (_ & _ & Hone & _ & _ & Hstop & _).
    split; [exact Hno|]. split; [apply Hone; by left|]. exact (Hstop Hno).
  - pose proof (exit_status_of_run (args false false) empty_images)
      as (_ & _ & _ & _ & _ & _ & Hzero).
    split; [exact Hex|]. split; [exact Hnil|]. exact (Hzero Hex Hnil).
  - pose proof (exit_status_of_run (args false true) mixed) as (_ & _ & Hone & _).
    split; [exact Herr|]. apply Hone. right; right. exact Herr.
Defined.

(** The claim C4 as it is stated fails on a tree with a regular file at the
    path of the image directory: the directory does not exist, the check of
    [main], which tests that something exists there, passes, and the run
    finds no file and ends with status 0.  It also fails where the look at
    the image directory is refused: the directory exists and no error was
    counted, and the status is 1. *)
Lemma file_at_images_path_counterexample :
  (fs images_is_a_file !! images_root images_is_a_file = Some (File [Byte.x00])
   /\ Claimed.directory_missing images_is_a_file
   /\ discovered images_is_a_file = []
   /\ exit_status (fst (main (args false false) images_is_a_file)) = 0
   /\ ~ Claimed.exit_status_rule (args false false) images_is_a_file)
  /\ (fs two_files !! images_root two_files = Some Dir
      /\ @final_tally codecs guarded_host (args false false) two_files = None
      /\ exit_status (fst (@main codecs guarded_host (args false false)
                             two_files)) = 1
      /\ ~ @Claimed.exit_status_rule codecs guarded_host (args false false)
             two_files).
Proof.
  assert (Hfile : fs images_is_a_file !! images_root images_is_a_file
                  = Some (File [Byte.x00])) by run_eq.
  assert (Hmiss : Claimed.directory_missing images_is_a_file).
  { unfold Claimed.directory_missing. rewrite Hfile. discriminate. }
  assert (Hzero : exit_status (fst (main (args false false) images_is_a_file))
                  = 0) by run_eq.
  assert (Hdir : fs two_files !! images_root two_files = Some Dir) by run_eq.
  assert (Hnone : @final_tally codecs guarded_host (args false false) two_files
                  = None) by run_eq.
  assert (Hone : exit_status (fst (@main codecs guarded_host (args false false)
                                     two_files)) = 1) by run_eq.
  split.
  - split; [exact Hfile|]. split; [exact Hmiss|]. split; [run_eq|].
    split; [exact Hzero|].
    intros [_ Hrule]. rewrite Hrule in Hzero by (by left). discriminate Hzero.
  - split; [exact Hdir|]. split; [exact Hnone|]. split; [exact Hone|].
    intros [Hrule _]. destruct (Hrule Hone) as [Hm | (t & Ht & _)].
    + by apply Hm.
    + rewrite Hnone in Ht. discriminate Ht.
Qed.

End Run.

(** * Further properties *)

(** ** Names that end in [.png] and names that end in [.jpg] *)

Lemma lower_append (s t : string) :
  Str.lower (s +:+ t) = Str.lower s +:+ Str.lower t.
Proof. induction s as [|c s IH]; simpl; [reflexivity | by rewrite IH]. Qed.

Lemma substring_all (t : string) : substring 0 (String.length t) t = t.
Proof. induction t as [|c t IH]; simpl; [reflexivity | by rewrite IH]. Qed.

Lemma substring_append (s t : string) :
  substring (String.length s) (String.length t) (s +:+ t) = t.
Proof. induction s as [|c s IH]; simpl; [apply substring_all | exact IH]. Qed.

Lemma endswith_append (s t : string) : Str.endswith (s +:+ t) t = true.
Proof.
  unfold Str.endswith. rewrite length_append.
  replace (String.length t <=? String.length s + String.length t)%nat with true
    by (symmetry; apply Nat.leb_le; lia).
  replace (String.length s + String.length t - String.length t)%nat
    with (String.length s) by lia.
  rewrite substring_append. apply String.eqb_refl.
Qed.

Lemma endswith_append_inv (s t u : string) :
  Str.endswith (s +:+ t) u = true -> String.length t = String.length u -> t = u.
Proof.
  unfold Str.endswith. rewrite length_append. intros He Hl.
  destruct (String.length u <=? String.length s + String.length t)%nat;
    [|discriminate].
  apply String.eqb_eq in He. rewrite <- Hl in He.
  replace (String.length s + String.length t - String.length t)%nat
    with (String.length s) in He by lia.
  by rewrite substring_append in He.
Qed.

(** A name made of a stem and [.jpg] is no PNG name. *)
Lemma jpg_name_not_png (d : Path) (stem : string) :
  png_named (d // (stem +:+ ".jpg")) = false.
Proof.
  unfold png_named. rewrite name_joinpath, lower_append.
  destruct (Str.endswith _ _) eqn:He; [|reflexivity].
  apply endswith_append_inv in He; [discriminate | reflexivity].
Qed.

Lemma png_named_ne_jpg (png jpg : Path) :
  png_named png = true -> Pathlib.with_suffix png ".jpg" = Ok jpg -> jpg <> png.
Proof.
  intros Hp Hj ->. apply with_suffix_inv in Hj.
  rewrite Hj in Hp at 1. by rewrite jpg_name_not_png in Hp.
Qed.

Lemma png_named_ne_target (p png sq : Path) :
  png_named p = true -> square_target png sq <> p.
Proof.
  intros Hp <-. unfold square_target in Hp. by rewrite jpg_name_not_png in Hp.
Qed.

Lemma png_named_ne_natural (p png : Path) :
  png_named p = true ->
  Pathlib.parent png // (Pathlib.stem png +:+ ".jpg") <> p.
Proof. intros Hp <-. by rewrite jpg_name_not_png in Hp. Qed.

(** ** The shape of every run of [convert_file] *)

Section Shape.
Context `{PIL.Codecs} `{Host}.

(** What a failed or successful save leaves behind. *)
Lemma Image_save_worlds img p q w r w' :
  Image_save img p q w = (r, w') ->
  (exists e, r = Raise e
     /\ (w' = w \/ w' = emit (EvSaveFailed p) w
         \/ exists c, w' = emit (EvSaveFailed p) (set_fs (insert p (File c)) w)))
  \/ (exists c, PIL.encode_jpeg img q = inr c /\ r = Ok tt
               /\ w' = emit (EvSave p c) (set_fs (insert p (File c)) w)).
Proof.
  unfold Image_save, Os.syscall.
  destruct (io_fault w (SysOpenWrite p)); [intros [= <- <-]; eauto|].
  destruct (PIL.encode_jpeg img q) as [[msg partial]|c] eqn:Henc.
  - destruct (fs w !! p) as [[c|]|] eqn:Hp.
    + intros [= <- <-]. left. eauto 10.
    + intros [= <- <-]. eauto.
    + destruct (Os.parent_error (fs w) p); [intros [= <- <-]; eauto|].
      destruct (io_fault _ (SysUnlink p)) as [[]|]; intros [= <- <-];
        left; eexists; (split; [done|]); eauto 10.
  - destruct (fs w !! p) as [[c'|]|] eqn:Hp.
    + intros [= <- <-]. right. eauto.
    + intros [= <- <-]. eauto.
    + destruct (Os.parent_error (fs w) p); intros [= <- <-]; eauto 10.
Qed.

(** The worlds a run goes through before the move: it stops where it
    started, or after the reading, or after a failed save, or it reaches the
    world in which the JPEG is saved. *)
Lemma convert_file_head png q force mv sq w r w' :
  convert_file png q force mv sq w = (r, w') ->
  let jpg := Pathlib.parent png // (Pathlib.stem png +:+ ".jpg") in
  ((r = Ok ("skipped", 0, 0) \/ exists e, r = Raise e)
   /\ (w' = w \/ w' = emit (EvRead png) w
       \/ w' = emit (EvSaveFailed jpg) (emit (EvRead png) w)
       \/ exists c, w' = emit (EvSaveFailed jpg)
                           (set_fs (insert jpg (File c)) (emit (EvRead png) w))))
  \/ (exists c img rgb content,
        Pathlib.with_suffix png ".jpg" = Ok jpg
        /\ bool_decide (is_Some (fs w !! jpg)) && negb force = false
        /\ fs w !! png = Some (File c)
        /\ PIL.decode c = inr img /\ flatten_to_rgb img = Ok rgb
        /\ PIL.encode_jpeg rgb q = inr content
        /\ (let* final := relocate (Pathlib.stem png) jpg force mv sq in
            finish png final (Z.of_nat (length c)))
             (saved png jpg content w) = (r, w')).
Proof.
  rewrite convert_file_unfold. intros Hr jpg0.
  invert_bind Hr; [|injection E as _ <-; left; split; eauto].
  injection E as E <-. pose proof (with_suffix_inv _ _ _ E) as ->.
  fold jpg0 in Hr, E.
  invert_bind Hr.
  2:{ apply exists_inv in E0 as (-> & _). left. split; eauto. }
  apply exists_inv in E0 as (-> & [[= ->] | (e & [=] & _)]).
  destruct (bool_decide (is_Some (fs w !! jpg0)) && negb force) eqn:Hskip.
  { injection Hr as <- <-. left. split; [eauto | eauto 10]. }
  invert_bind Hr.
  2:{ apply stat_st_size_inv in E0 as (-> & _). left. split; [eauto | eauto 10]. }
  apply stat_st_size_inv in E0 as (-> & Hsize).
  destruct (Hsize _ eq_refl) as (node & Hnode & ->). clear Hsize.
  invert_bind Hr.
  2:{ apply Image_open_inv in E0 as [(e' & [= <-] & ->) | (c & Hc & -> & Hd)];
        left; (split; [eauto | eauto 10]). }
  apply Image_open_inv in E0 as [(e' & [=] & _) | (c & Hc & -> & Hd)].
  rewrite Hc in Hnode. injection Hnode as <-.
  invert_bind Hr; [|injection E0 as _ <-; left; split; eauto].
  injection E0 as E0 <-. rename a0 into rgb, a into img.
  invert_bind Hr.
  - apply Image_save_worlds in E1
      as [(e & [=] & _) | (content & Henc & _ & ->)].
    right. exists c, img, rgb, content. repeat split; try done.
    destruct (PIL.decode c); simpl in Hd; congruence.
  - apply Image_save_worlds in E1
      as [(e' & [= <-] & [-> | [-> | (c' & ->)]]) | (content & _ & [=] & _)];
      left; (split; [eauto | eauto 10]).
Qed.

(** The worlds after the save: directories may be added ([wm]), then the
    JPEG stays, stays with a notice, or is renamed ([w2]), then the PNG is
    removed or not. *)
Lemma convert_file_tail png jpg content force mv sq i w1 r w' :
  fs w1 !! jpg = Some (File content) ->
  (let* final := relocate (Pathlib.stem png) jpg force mv sq in
   finish png final i) w1 = (r, w') ->
  let target := square_target png sq in
  let asked := mv && Str.endswith (Pathlib.stem png) "-square" in
  exists wm w2 final,
    (wm = w1 \/ (asked = true /\ grows sq w1 wm))
    /\ ((w2 = wm /\ final = jpg)
        \/ (asked = true /\ final = jpg
            /\ bool_decide (is_Some (fs wm !! target)) && negb force = true
            /\ w2 = print (skip_move_notice target) wm)
        \/ (asked = true /\ final = target
            /\ bool_decide (is_Some (fs wm !! target)) && negb force = false
            /\ w2 = emit (EvReplace jpg target)
                      (set_fs (fun _ => <[target := File content]>
                                          (delete jpg (fs wm))) wm))
        \/ (asked = true /\ final = jpg /\ (exists e, r = Raise e)
            /\ exists partial, w2 = put ("[png2jpg] " +:+ partial) wm))
    /\ (((exists e, r = Raise e) /\ w' = w2)
        \/ (exists c, fs w2 !! png = Some (File c)
            /\ w' = emit (EvUnlink png) (set_fs (delete png) w2)
            /\ ((exists e, r = Raise e)
                \/ exists node, fs w' !! final = Some node
                     /\ r = Ok ("converted", i,
                                match node with
                                | File c' => Z.of_nat (length c')
                                | Dir => dir_st_size
                                end)))).
Proof.
  intros Hjpg Hr target asked.
  apply bind_inv in Hr as [(final & w2 & E & Hr) | (e & E & ->)].
  - apply (relocate_inv _ _ _ _ _ _ _ _ _ Hjpg) in E
      as [(_ & [= ->] & ->) | (Hask & wm & Hg & E)].
    + exists w1, w1, jpg. split; [by left|]. split; [by left|].
      apply finish_inv in Hr as [(e & -> & ->) | (c & Hc & -> & Hr)]; eauto 10.
    + destruct E as [(e & [=] & _) | [(Hskip & [= ->] & ->) | (Hskip & [= ->] & ->)]].
      * exists wm, (print (skip_move_notice target) wm), jpg.
        split; [by right|]. split; [right; left; done|].
        apply finish_inv in Hr as [(e & -> & ->) | (c & Hc & -> & Hr)]; eauto 10.
      * eexists wm, _, target.
        split; [by right|]. split; [right; right; left; done|].
        apply finish_inv in Hr as [(e & -> & ->) | (c & Hc & -> & Hr)]; eauto 10.
  - apply (relocate_inv _ _ _ _ _ _ _ _ _ Hjpg) in E
      as [(_ & [=] & _) | (Hask & wm & Hg & E)].
    destruct E as [(e' & _ & [-> | (partial & ->)])
                  | [(_ & [=] & _) | (_ & [=] & _)]].
    + exists wm, wm, jpg. split; [by right|]. split; [by left|]. left. eauto.
    + eexists wm, _, jpg. split; [by right|].
      split; [right; right; right; eauto 10|]. left. eauto.
Qed.

End Shape.

(** ** What [convert_file] returns and what it touches *)

Section ConvertProps.
Context `{PIL.Codecs} `{Host}.

Lemma is_Some_false {A} (o : option A) :
  bool_decide (is_Some o) = false -> o = None.
Proof.
  intros Hb. destruct o; [|done].
  rewrite bool_decide_eq_true_2 in Hb by eauto. discriminate.
Qed.

(** X1: [convert_file] returns one of two statuses: ["skipped"], with sizes 0
    and the world untouched, exactly when the natural output path exists and
    force-overwrite is off; ["converted"] otherwise.  With force-overwrite it
    never skips. *)
Theorem convert_file_status png q force mv sq w status i o w' :
  convert_file png q force mv sq w = (Ok (status, i, o), w') ->
  let jpg := Pathlib.parent png // (Pathlib.stem png +:+ ".jpg") in
  (status = "skipped" /\ i = 0 /\ o = 0 /\ w' = w
   /\ is_Some (fs w !! jpg) /\ force = false)
  \/ (status = "converted" /\ (fs w !! jpg = None \/ force = true)).
Proof.
  intros Hr jpg.
  apply convert_file_inv in Hr
    as [(e & [=] & _) | [(jpg' & Hj & Hskip & Hs & ->)
                        | (jpg' & c & Hj & Hskip & _ & Hlate)]];
    apply with_suffix_inv in Hj; subst jpg'; fold jpg in Hskip.
  - injection Hs as -> -> ->.
    apply andb_true_iff in Hskip as [Hex Hf].
    apply bool_decide_eq_true_1 in Hex. apply negb_true_iff in Hf.
    left. done.
  - destruct Hlate as [(e & [=] & _) | (img & rgb & content & _ & _ & _ & Hr)].
    apply (convert_file_tail _ _ _ _ _ _ _ _ _ _
             (saved_jpg png _ content w)) in Hr
      as (wm & w2 & final & _ & _ & [((e & [=]) & _) | (c' & _ & _ & Hfin)]).
    destruct Hfin as [(e & [=]) | (node & _ & [= -> _ _])].
    right. split; [done|].
    apply andb_false_iff in Hskip as [Hex | Hf].
    + left. by apply is_Some_false.
    + right. by apply negb_false_iff.
Qed.

(** The steps a converted file has gone through. *)
Lemma converted_pipeline png q force mv sq w i o w' :
  convert_file png q force mv sq w = (Ok ("converted", i, o), w') ->
  exists c img rgb content final,
    fs w !! png = Some (File c)
    /\ PIL.decode c = inr img
    /\ flatten_to_rgb img = Ok rgb
    /\ PIL.encode_jpeg rgb q = inr content
    /\ i = Z.of_nat (length c) /\ o = Z.of_nat (length content)
    /\ (final = Pathlib.parent png // (Pathlib.stem png +:+ ".jpg")
        \/ final = square_target png sq)
    /\ fs w' !! final = Some (File content).
Proof.
  intros Hr. apply convert_file_head in Hr.
  destruct Hr as [([[=] | (e & [=])] & _) | Hlate].
  destruct Hlate as (c & img & rgb & content & _ & _ & Hc & Hd & Hf & He & Hr).
  set (jpg := Pathlib.parent png // (Pathlib.stem png +:+ ".jpg")) in *.
  pose proof (saved_jpg png jpg content w) as Hj.
  apply (convert_file_tail _ _ _ _ _ _ _ _ _ _ Hj) in Hr
    as (wm & w2 & final & Hwm & Hw2 & [((e & [=]) & _) | (c' & Hc' & -> & Hfin)]).
  destruct Hfin as [(e & [=]) | (node & Hnode & [= -> ->])].
  exists c, img, rgb, content, final.
  do 5 (split; [done|]).
  simpl in Hnode.
  assert (Hne : png <> final) by (intros ->; by rewrite lookup_delete_eq in Hnode).
  rewrite lookup_delete_ne in Hnode by done.
  assert (Hjm : fs wm !! jpg = Some (File content)).
  { destruct Hwm as [-> | (_ & Hg)]; [done|]. by eapply grows_keeps. }
  assert (Hn : node = File content
               /\ (final = jpg \/ final = square_target png sq)).
  { destruct Hw2 as [(-> & ->) | [(_ & -> & _ & ->)
                    | [(_ & -> & _ & ->) | (_ & _ & (e & [=]) & _)]]];
      simpl in Hnode.
    - split; [congruence | by left].
    - split; [congruence | by left].
    - rewrite lookup_insert_eq in Hnode. split; [congruence | by right]. }
  destruct Hn as [-> Hfinal]. repeat split; try done.
  simpl. by rewrite lookup_delete_ne.
Qed.

(** X2: a converted file went through the whole pipeline: the PNG was a regular
    file, its bytes were decoded, the image flattened and encoded at the
    given quality, and exactly the encoder's bytes are in the file the JPEG
    ends at; the sizes reported are those of the PNG and of these bytes. *)
Theorem converted_is_encoded png q force mv sq w i o w' :
  convert_file png q force mv sq w = (Ok ("converted", i, o), w') ->
  exists c img rgb content final,
    fs w !! png = Some (File c)
    /\ PIL.decode c = inr img
    /\ flatten_to_rgb img = Ok rgb
    /\ PIL.encode_jpeg rgb q = inr content
    /\ i = Z.of_nat (length c) /\ o = Z.of_nat (length content)
    /\ (final = Pathlib.parent png // (Pathlib.stem png +:+ ".jpg")
        \/ final = square_target png sq)
    /\ fs w' !! final = Some (File content).
Proof. apply converted_pipeline. Qed.

End ConvertProps.

Section Frame.
Context `{PIL.Codecs} `{Host}.

(** What a run of [convert_file] can change: the PNG, its natural output
    path, its square target, and directories it adds on the way to the
    square directory when a move is asked for. *)
Lemma convert_file_frame png q force mv sq w r w' :
  convert_file png q force mv sq w = (r, w') ->
  cwd w' = cwd w
  /\ forall p,
       p <> png ->
       p <> Pathlib.parent png // (Pathlib.stem png +:+ ".jpg") ->
       p <> square_target png sq ->
       fs w' !! p = fs w !! p
       \/ (mv && Str.endswith (Pathlib.stem png) "-square" = true
           /\ fs w !! p = None /\ fs w' !! p = Some Dir /\ p `prefix_of` sq).
Proof.
  intros Hr. apply convert_file_head in Hr.
  set (jpg := Pathlib.parent png // (Pathlib.stem png +:+ ".jpg")) in *.
  destruct Hr as [(_ & [-> | [-> | [-> | (c & ->)]]]) | Hlate].
  1-3: split; [done | intros p _ _ _; by left].
  { split; [done|]. intros p _ Hp _. left. simpl. by rewrite lookup_insert_ne. }
  destruct Hlate as (c & img & rgb & content & _ & _ & _ & _ & _ & _ & Hr).
  pose proof (saved_jpg png jpg content w) as Hj.
  apply (convert_file_tail _ _ _ _ _ _ _ _ _ _ Hj) in Hr
    as (wm & w2 & final & Hwm & Hw2 & Hw').
  assert (Hc2 : cwd w2 = cwd w
                /\ forall p, p <> jpg -> p <> square_target png sq ->
                             fs w2 !! p = fs wm !! p).
  { assert (Hcm : cwd wm = cwd w)
      by (destruct Hwm as [-> | (_ & Hcw & _)]; [done | exact Hcw]).
    destruct Hw2 as [(-> & _) | [(_ & _ & _ & ->)
                      | [(_ & _ & _ & ->) | (_ & _ & _ & partial & ->)]]]; simpl.
    - done.
    - done.
    - split; [done|].
      intros p Hp1 Hp2. by rewrite lookup_insert_ne, lookup_delete_ne.
    - done. }
  destruct Hc2 as [Hcwd H2].
  assert (Hfin : cwd w' = cwd w2
                 /\ forall p, p <> png -> fs w' !! p = fs w2 !! p).
  { destruct Hw' as [(_ & ->) | (c' & _ & -> & _)]; [done|]. simpl.
    split; [done|]. intros p Hp. by rewrite lookup_delete_ne. }
  destruct Hfin as [Hcwd' Hf]. split; [congruence|].
  intros p Hp1 Hp2 Hp3.
  rewrite Hf, H2 by done.
  assert (Hw1 : fs (saved png jpg content w) !! p = fs w !! p).
  { simpl. by rewrite lookup_insert_ne. }
  destruct Hwm as [-> | (Hask & Hg)]; [by left|].
  destruct Hg as (_ & _ & _ & Hg). rewrite <- Hw1.
  destruct (Hg p) as [E | (N & D & P)]; [by left | by right].
Qed.

(** X3: whatever [convert_file] returns or raises, it leaves every entry of the
    tree as it was, except the PNG, its natural output path and its square
    target, and except for directories it may add on the way to the square
    directory; it never changes the working directory. *)
Theorem convert_file_touches png q force mv sq w r w' :
  convert_file png q force mv sq w = (r, w') ->
  changes_only
    (fun p => p = png
              \/ p = Pathlib.parent png // (Pathlib.stem png +:+ ".jpg")
              \/ p = square_target png sq)
    sq w w'
  /\ cwd w' = cwd w.
Proof.
  intros Hr. apply convert_file_frame in Hr as [Hcwd Hf].
  split; [|done]. intros p Hp.
  destruct (Hf p) as [E | (_ & N & D & P)]; try (intros ->; apply Hp; auto).
  - by left.
  - by right.
Qed.

(** A PNG (a path whose name ends in [.png]) is changed by nothing but its
    removal: after any run of [convert_file] its entry is what it was, or it
    is gone and the removal is the last event of the run. *)
Lemma png_kept_or_removed png q force mv sq w r w' :
  png_named png = true ->
  convert_file png q force mv sq w = (r, w') ->
  fs w' !! png = fs w !! png
  \/ (fs w' !! png = None
      /\ exists pre, trace w' = trace w ++ pre ++ [EvUnlink png]).
Proof.
  intros Hpng Hr. apply convert_file_head in Hr.
  set (jpg := Pathlib.parent png // (Pathlib.stem png +:+ ".jpg")) in *.
  assert (Hjp : jpg <> png) by (by apply png_named_ne_natural).
  assert (Htp : square_target png sq <> png) by (by apply png_named_ne_target).
  destruct Hr as [(_ & [-> | [-> | [-> | (c & ->)]]]) | Hlate].
  1-3: by left.
  { left. simpl. by rewrite lookup_insert_ne. }
  destruct Hlate as (c & img & rgb & content & _ & _ & Hc & _ & _ & _ & Hr).
  pose proof (saved_jpg png jpg content w) as Hj.
  assert (Hp1 : fs (saved png jpg content w) !! png = Some (File c)).
  { simpl. by rewrite lookup_insert_ne. }
  apply (convert_file_tail _ _ _ _ _ _ _ _ _ _ Hj) in Hr
    as (wm & w2 & final & Hwm & Hw2 & Hw').
  assert (Hpm : fs wm !! png = Some (File c)
                /\ exists mk, trace wm = trace w ++ [EvRead png; EvSave jpg content] ++ mk).
  { destruct Hwm as [-> | (_ & Hg)].
    - split; [done|]. exists []. simpl. by rewrite <- app_assoc.
    - split; [by eapply grows_keeps|].
      destruct Hg as (_ & _ & (mk & -> & _) & _). exists mk. simpl.
      by rewrite <- !app_assoc. }
  destruct Hpm as [Hpm (mk & Htm)].
  assert (Hp2 : fs w2 !! png = Some (File c)
                /\ exists pre, trace w2 = trace w ++ pre).
  { destruct Hw2 as [(-> & _) | [(_ & _ & _ & ->)
                    | [(_ & _ & _ & ->) | (_ & _ & _ & partial & ->)]]]; simpl.
    - split; [done|]. eauto.
    - split; [done|]. eauto.
    - split; [by rewrite lookup_insert_ne, lookup_delete_ne|].
      rewrite Htm. eexists. by rewrite <- !app_assoc.
    - split; [done|]. eauto. }
  destruct Hp2 as [Hp2 (pre & Ht2)].
  destruct Hw' as [(_ & ->) | (c' & _ & -> & _)].
  - left. congruence.
  - right. simpl. split; [apply lookup_delete_eq|].
    exists pre. by rewrite Ht2, app_assoc.
Qed.

(** X4: when no move is asked for (move-square off, or a stem that does not end
    in [-square]), [convert_file] prints nothing, makes no directory and
    renames nothing: only the PNG and its natural output path can differ. *)
Theorem convert_file_without_move png q force mv sq w r w' :
  mv && Str.endswith (Pathlib.stem png) "-square" = false ->
  convert_file png q force mv sq w = (r, w') ->
  let jpg := Pathlib.parent png // (Pathlib.stem png +:+ ".jpg") in
  stdout w' = stdout w
  /\ (forall p, p <> png -> p <> jpg -> fs w' !! p = fs w !! p)
  /\ exists evs,
       trace w' = trace w ++ evs
       /\ Forall (fun e => e = EvRead png \/ e = EvSaveFailed jpg
                           \/ e = EvUnlink png \/ exists c, e = EvSave jpg c)
            evs.
Proof.
  intros Hno Hr jpg. apply convert_file_head in Hr. fold jpg in Hr.
  destruct Hr as [(_ & [-> | [-> | [-> | (c & ->)]]]) | Hlate].
  - split; [done|]. split; [done|].
    exists []. split; [by rewrite app_nil_r | constructor].
  - split; [done|]. split; [done|].
    exists [EvRead png]. split; [done|].
    repeat (apply List.Forall_cons; [eauto 6|]). apply List.Forall_nil.
  - split; [done|]. split; [done|].
    exists [EvRead png; EvSaveFailed jpg].
    split; [simpl; by rewrite <- app_assoc|].
    repeat (apply List.Forall_cons; [eauto 6|]). apply List.Forall_nil.
  - split; [done|]. split.
    + intros p _ Hp. simpl. by rewrite lookup_insert_ne.
    + exists [EvRead png; EvSaveFailed jpg].
      split; [simpl; by rewrite <- app_assoc|].
      repeat (apply List.Forall_cons; [eauto 6|]). apply List.Forall_nil.
  - destruct Hlate as (c & img & rgb & content & _ & _ & _ & _ & _ & _ & Hr).
    pose proof (saved_jpg png jpg content w) as Hj.
    apply (convert_file_tail _ _ _ _ _ _ _ _ _ _ Hj) in Hr
      as (wm & w2 & final & Hwm & Hw2 & Hw').
    destruct Hwm as [-> | (Hask & _)]; [|congruence].
    destruct Hw2 as [(-> & _) | [(Hask & _) | [(Hask & _) | (Hask & _)]]];
      try congruence.
    destruct Hw' as [(_ & ->) | (c' & _ & -> & _)]; simpl.
    + split; [done|]. split.
      * intros p _ Hp. by rewrite lookup_insert_ne.
      * exists [EvRead png; EvSave jpg content].
        split; [by rewrite <- app_assoc|].
        repeat (apply List.Forall_cons; [eauto 6|]). apply List.Forall_nil.
    + split; [done|]. split.
      * intros p Hp1 Hp2. by rewrite lookup_delete_ne, lookup_insert_ne.
      * exists [EvRead png; EvSave jpg content; EvUnlink png].
        split; [by rewrite <- !app_assoc|].
        repeat (apply List.Forall_cons; [eauto 6|]). apply List.Forall_nil.
Qed.


End Frame.

Section Pipeline.
Context `{PIL.Codecs} `{Host}.

(** The two things [convert_file] can return. *)
Lemma convert_file_ok_cases png q force mv sq w status i o w' :
  convert_file png q force mv sq w = (Ok (status, i, o), w') ->
  (status = "skipped" /\ w' = w)
  \/ (status = "converted" /\ fs w' !! png = None).
Proof.
  intros Hr.
  apply convert_file_inv in Hr
    as [(e & [=] & _) | [(jpg & _ & _ & [= -> _ _] & ->)
                        | (jpg & c & _ & _ & _ & Hlate)]]; [by left|].
  destruct Hlate as [(e & [=] & _) | (img & rgb & content & _ & _ & _ & Hr)].
  apply (convert_file_tail _ _ _ _ _ _ _ _ _ _
           (saved_jpg png _ content w)) in Hr
    as (wm & w2 & final & _ & _ & [((e & [=]) & _) | (c' & _ & -> & Hfin)]).
  destruct Hfin as [(e & [=]) | (node & _ & [= -> _ _])].
  right. split; [done|]. simpl. apply lookup_delete_eq.
Qed.

(** X5: a PNG that is missing, that the decoder refuses or that cannot be
    flattened is never converted, and the run leaves the tree, the output
    and the working directory as they were; at most the PNG was read. *)
Theorem unreadable_png_changes_nothing png q force mv sq w r w' :
  readable png w = false ->
  convert_file png q force mv sq w = (r, w') ->
  (r = Ok ("skipped", 0, 0) \/ exists e, r = Raise e)
  /\ fs w' = fs w /\ stdout w' = stdout w /\ cwd w' = cwd w
  /\ (trace w' = trace w \/ trace w' = trace w ++ [EvRead png]).
Proof.
  intros Hun. rewrite convert_file_unfold. intros Hr.
  invert_bind Hr; [|injection E as _ <-; repeat split; eauto].
  injection E as E <-. rename a into jpg.
  invert_bind Hr.
  2:{ apply exists_inv in E0 as (-> & _). repeat split; eauto. }
  apply exists_inv in E0 as (-> & [[= ->] | (e & [=] & _)]).
  destruct (bool_decide (is_Some (fs w !! jpg)) && negb force).
  { injection Hr as <- <-. repeat split; eauto. }
  invert_bind Hr.
  2:{ apply stat_st_size_inv in E0 as (-> & _). repeat split; eauto. }
  apply stat_st_size_inv in E0 as (-> & _).
  invert_bind Hr.
  2:{ apply Image_open_inv in E0 as [(e' & [= <-] & ->) | (c & Hc & -> & Hd)];
        repeat split; eauto. }
  apply Image_open_inv in E0 as [(e' & [=] & _) | (c & Hc & -> & Hd)].
  unfold readable in Hun. rewrite Hc in Hun.
  destruct (PIL.decode c) as [msg|img]; [discriminate|].
  injection Hd as ->.
  invert_bind Hr.
  - injection E0 as E0 _. by rewrite E0 in Hun.
  - injection E0 as _ <-. repeat split; eauto.
Qed.

(** X6: no run of [convert_file] on a PNG loses the image: the entry of the PNG
    is what it was, or it is gone and the JPEG encoded from its bytes is in
    the tree, at the natural output path or at the square target. *)
Theorem png_never_lost png q force mv sq w r w' :
  png_named png = true ->
  convert_file png q force mv sq w = (r, w') ->
  fs w' !! png = fs w !! png
  \/ (fs w' !! png = None
      /\ exists c img rgb content final,
           fs w !! png = Some (File c)
           /\ PIL.decode c = inr img
           /\ flatten_to_rgb img = Ok rgb
           /\ PIL.encode_jpeg rgb q = inr content
           /\ (final = Pathlib.parent png // (Pathlib.stem png +:+ ".jpg")
               \/ final = square_target png sq)
           /\ fs w' !! final = Some (File content)).
Proof.
  intros Hpng Hr. apply convert_file_head in Hr.
  set (jpg := Pathlib.parent png // (Pathlib.stem png +:+ ".jpg")) in *.
  assert (Hjp : jpg <> png) by (by apply png_named_ne_natural).
  assert (Htp : square_target png sq <> png) by (by apply png_named_ne_target).
  destruct Hr as [(_ & [-> | [-> | [-> | (c & ->)]]]) | Hlate].
  1-3: by left.
  { left. simpl. by rewrite lookup_insert_ne. }
  destruct Hlate as (c & img & rgb & content & _ & _ & Hc & Hd & Hf & He & Hr).
  pose proof (saved_jpg png jpg content w) as Hj.
  assert (Hp1 : fs (saved png jpg content w) !! png = Some (File c)).
  { simpl. by rewrite lookup_insert_ne. }
  apply (convert_file_tail _ _ _ _ _ _ _ _ _ _ Hj) in Hr
    as (wm & w2 & final & Hwm & Hw2 & Hw').
  assert (Hm : fs wm !! png = Some (File c)
               /\ fs wm !! jpg = Some (File content)).
  { destruct Hwm as [-> | (_ & Hg)]; [done|].
    split; by eapply grows_keeps. }
  destruct Hm as [Hpm Hjm].
  assert (H2 : fs w2 !! png = Some (File c)
               /\ (final = jpg \/ final = square_target png sq)
               /\ fs w2 !! final = Some (File content)).
  { destruct Hw2 as [(-> & ->) | [(_ & -> & _ & ->)
                    | [(_ & -> & _ & ->) | (_ & -> & _ & partial & ->)]]];
      simpl.
    - auto.
    - auto.
    - split; [by rewrite lookup_insert_ne, lookup_delete_ne|].
      split; [by right|]. apply lookup_insert_eq.
    - auto. }
  destruct H2 as (Hp2 & Hfinal & Hf2).
  destruct Hw' as [(_ & ->) | (c' & _ & -> & _)].
  - left. congruence.
  - right. simpl. split; [apply lookup_delete_eq|].
    exists c, img, rgb, content, final. do 5 (split; [done|]).
    rewrite lookup_delete_ne; [done|].
    destruct Hfinal as [-> | ->]; done.
Qed.

(** A directory call that returns has made, or found, its directory. *)
Lemma mkdir_exist_ok_dir p w u w' :
  Os.mkdir_exist_ok p w = (Ok u, w') -> fs w' !! p = Some Dir.
Proof.
  unfold Os.mkdir_exist_ok, try_except_OSError.
  destruct (Os.mkdir1 p w) as [r0 w0] eqn:Hm.
  apply mkdir1_inv in Hm as [(e & f & -> & ->) | (-> & Hp & ->)].
  - intros Hr. apply dir_or_raise_inv in Hr as [-> Hd]. by apply (Hd u).
  - intros [= _ <-]. simpl. apply lookup_insert_eq.
Qed.

Lemma mkdir_parents_dir p w u w' :
  Os.mkdir_parents p w = (Ok u, w') -> fs w' !! p = Some Dir.
Proof.
  unfold Os.mkdir_parents. rewrite <- (rev_involutive p) at 2.
  generalize (rev p) as rp. clear p. intros rp.
  destruct rp as [|x rp]; simpl; unfold try_except_OSError.
  - destruct (Os.mkdir1 [] w) as [r0 w0] eqn:Hm.
    apply mkdir1_inv in Hm as [(e & f & -> & ->) | (-> & Hp & ->)].
    + destruct e; try discriminate;
        intros Hr; apply dir_or_raise_inv in Hr as [-> Hd]; by apply (Hd u).
    + intros [= _ <-]. simpl. apply lookup_insert_eq.
  - destruct (Os.mkdir1 (rev rp ++ [x]) w) as [r0 w0] eqn:Hm.
    apply mkdir1_inv in Hm as [(e & f & -> & ->) | (-> & Hp & ->)].
    + assert (Hother :
        forall ww, (let* d := Os.is_dir (rev rp ++ [x]) in
                    if d then ret tt else raise (OSError e f)) w = (Ok u, ww) ->
                   fs ww !! (rev rp ++ [x]) = Some Dir).
      { intros ww Hr. apply dir_or_raise_inv in Hr as [-> Hd].
        by apply (Hd u). }
      destruct e; try (apply Hother).
      intros Hb. invert_bind Hb. by eapply mkdir_exist_ok_dir.
    + intros [= _ <-]. simpl. apply lookup_insert_eq.
Qed.

(** X7: a square variant that is converted with move-square on leaves the
    square directory in the tree, whether or not the JPEG was moved there. *)
Theorem square_dir_made png q force sq w i o w' :
  Str.endswith (Pathlib.stem png) "-square" = true ->
  convert_file png q force true sq w = (Ok ("converted", i, o), w') ->
  fs w' !! sq = Some Dir.
Proof.
  intros Hsq Hr. apply convert_file_head in Hr.
  destruct Hr as [([[=] | (e & [=])] & _) | Hlate].
  destruct Hlate as (c & img & rgb & content & _ & _ & _ & _ & _ & _ & Hr).
  set (jpg := Pathlib.parent png // (Pathlib.stem png +:+ ".jpg")) in *.
  pose proof (saved_jpg png jpg content w) as Hj.
  invert_bind Hr. rename a into final, w0 into w2.
  unfold relocate in E. rewrite Hsq in E. cbn [andb] in E.
  invert_bind E. rename w0 into wm.
  pose proof (mkdir_parents_grows _ _ _ _ E0) as Hg.
  apply mkdir_parents_dir in E0 as Hdir.
  pose proof (grows_keeps _ _ _ _ _ Hg Hj) as Hjm.
  fold (square_target png sq) in E.
  assert (H2 : fs w2 !! sq = Some Dir).
  { invert_bind E.
    apply exists_inv in E1 as (-> & [[= ->] | (e & [=] & _)]).
    destruct (_ && negb force).
    - invert_bind E. injection E as _ <-.
      by apply log_world in E1 as (-> & _).
    - invert_bind E. injection E as _ <-.
      apply (replace_inv _ _ _ _ _ _ Hjm) in E1 as [(e & [=] & _) | (_ & ->)].
      simpl. rewrite lookup_insert_ne, lookup_delete_ne; [done| |].
      + intros <-. congruence.
      + intros Heq. apply (square_target_not_prefix png sq). by rewrite Heq. }
  apply finish_inv in Hr as [(e & [=] & _) | (c' & Hc' & -> & _)].
  simpl. rewrite lookup_delete_ne; [done|]. intros <-. congruence.
Qed.

End Pipeline.

(** ** Discovery *)

Section Discovery.
Context `{PIL.Codecs} `{Host}.

Lemma joinpath_parent_name (q : Path) :
  q <> [] -> Pathlib.parent q // Pathlib.name q = q.
Proof.
  intros Hq. unfold Pathlib.parent, Pathlib.name, Pathlib.joinpath.
  symmetry. by apply app_removelast_last.
Qed.

Lemma parent_joinpath (d : Path) (c : string) : Pathlib.parent (d // c) = d.
Proof. unfold Pathlib.parent, Pathlib.joinpath. apply removelast_last. Qed.

Lemma joinpath_not_nil (d : Path) (c : string) : d // c <> [].
Proof. unfold Pathlib.joinpath. by destruct d. Qed.

(** The entries of a directory are the entries of the tree whose parent it
    is. *)
Lemma elem_of_listdir (m : gmap Path Node) (d : Path) (nm : string) (n : Node) :
  (nm, n) ∈ Os.listdir m d <-> m !! (d // nm) = Some n.
Proof.
  unfold Os.listdir. rewrite list_elem_of_omap. split.
  - intros ([q n'] & Hin & Hq). apply elem_of_map_to_list in Hin.
    destruct q as [|x q]; [discriminate|].
    case_bool_decide as Hp; [|discriminate]. injection Hq as <- <-.
    rewrite <- Hp, joinpath_parent_name by done. exact Hin.
  - intros Hl. exists (d // nm, n). split; [by apply elem_of_map_to_list|].
    pose proof (joinpath_not_nil d nm) as Hne.
    destruct (d // nm) as [|x q] eqn:E; [done|]. rewrite <- E.
    rewrite parent_joinpath, name_joinpath.
    by rewrite bool_decide_eq_true_2.
Qed.

(** A directory is reached from [top] when [top] is a prefix of it and
    every path from [top] down to it is a directory. *)
Lemma reached_spec (m : gmap Path Node) (top d : Path) :
  Os.reached m top d = true
  <-> top `prefix_of` d
      /\ forall k, (length top <= k <= length d)%nat ->
                   m !! take k d = Some Dir.
Proof.
  unfold Os.reached, Os.under.
  rewrite andb_true_iff, bool_decide_eq_true, forallb_forall.
  split; intros [Hp Hall]; (split; [done|]).
  - intros k Hk. specialize (Hall k).
    destruct (m !! take k d) as [[]|]; try done; exfalso;
      (assert (false = true); [|discriminate]); apply Hall, in_seq; lia.
  - intros k Hk. apply in_seq in Hk. apply prefix_length in Hp.
    rewrite Hall by lia. done.
Qed.

(** A path is collected exactly when it is a regular file with a PNG name
    whose directory is reached from the root through directories. *)
Lemma In_collected (root : Path) (w : World) (p : Path) :
  In p (collected root w)
  <-> (exists c, fs w !! p = Some (File c))
      /\ p <> [] /\ png_named p = true
      /\ root `prefix_of` Pathlib.parent p
      /\ forall k,
           (length root <= k <= length (Pathlib.parent p))%nat ->
           fs w !! take k (Pathlib.parent p) = Some Dir.
Proof.
  unfold collected, collect_png_files.
  rewrite in_flat_map. split.
  - intros ([[d dn] fn] & Hw & Hp).
    unfold Os.walk in Hw. apply in_map_iff in Hw as (d' & [= -> _ <-] & Hd).
    apply filter_In in Hd as [_ Hreach].
    apply in_flat_map in Hp as (nm & Hnm & Hp).
    apply list_elem_of_In, list_elem_of_omap in Hnm as ([nm' n] & Hin & Hn).
    destruct n as [c|]; [|discriminate]. injection Hn as ->.
    apply elem_of_listdir in Hin.
    destruct (Str.endswith (Str.lower nm) ".png") eqn:Hpng; [|done].
    destruct Hp as [<- | []].
    rewrite parent_joinpath. apply reached_spec in Hreach as [Hpre Hall].
    split; [eauto|]. split; [apply joinpath_not_nil|].
    split; [unfold png_named; by rewrite name_joinpath|]. done.
  - intros ((c & Hc) & Hne & Hpng & Hpre & Hall).
    set (d := Pathlib.parent p) in *.
    exists (d,
            omap (fun '(nm, n) => match n with Dir => Some nm | _ => None end)
              (Os.listdir (fs w) d),
            omap (fun '(nm, n) => match n with File _ => Some nm | _ => None end)
              (Os.listdir (fs w) d)).
    split.
    + unfold Os.walk. apply in_map_iff. exists d. split; [done|].
      apply filter_In. split.
      * apply in_map_iff. exists (d, Dir). split; [done|].
        apply list_elem_of_In, elem_of_map_to_list.
        rewrite <- (Hall (length d)).
        -- by rewrite firstn_all.
        -- apply prefix_length in Hpre. lia.
      * by apply reached_spec.
    + apply in_flat_map. exists (Pathlib.name p). split.
      * apply list_elem_of_In, list_elem_of_omap.
        exists (Pathlib.name p, File c). split; [|done].
        apply elem_of_listdir. unfold d. by rewrite joinpath_parent_name.
      * unfold png_named in Hpng. rewrite Hpng. left. unfold d.
        by apply joinpath_parent_name.
Qed.


(** X9: a root that is missing, or that is no directory, gives no file. *)
Theorem collect_png_files_no_directory (root : Path) (w : World) :
  fs w !! root <> Some Dir ->
  collect_png_files root w = (Ok [], w).
Proof.
  intros Hroot.
  change (collect_png_files root w) with (Ok (collected root w), w).
  destruct (collected root w) as [|p files] eqn:E; [done|]. exfalso.
  assert (Hin : In p (collected root w)) by (rewrite E; by left).
  apply In_collected in Hin as (_ & _ & _ & Hpre & Hall).
  apply Hroot. rewrite <- (Hall (length root)).
  - destruct Hpre as [rest ->]. by rewrite take_app_length.
  - apply prefix_length in Hpre. lia.
Qed.

(** *** No file twice *)

Lemma NoDup_omap_inj {A B} (f : A -> option B) (l : list A) :
  NoDup l ->
  (forall x y z, x ∈ l -> y ∈ l -> f x = Some z -> f y = Some z -> x = y) ->
  NoDup (omap f l).
Proof.
  induction 1 as [|x l Hx Hl IH]; intros Hinj; simpl; [constructor|].
  assert (Htl : NoDup (omap f l)).
  { apply IH. intros a b z Ha Hb. apply Hinj; by right. }
  destruct (f x) as [z|] eqn:E; [|done].
  constructor; [|done].
  rewrite list_elem_of_omap. intros (y & Hy & Hfy).
  assert (x = y) as -> by (apply (Hinj x y z); [left | by right | done | done]).
  done.
Qed.

Lemma flat_map_map {A B C} (f : B -> list C) (g : A -> B) (l : list A) :
  flat_map f (List.map g l) = flat_map (fun x => f (g x)) l.
Proof. induction l as [|x l IH]; simpl; [reflexivity | by rewrite IH]. Qed.

Lemma NoDup_flat_map {A B} (f : A -> list B) (l : list A) :
  NoDup l ->
  (forall x, x ∈ l -> NoDup (f x)) ->
  (forall x y z, x ∈ l -> y ∈ l -> In z (f x) -> In z (f y) -> x = y) ->
  NoDup (flat_map f l).
Proof.
  induction 1 as [|x l Hx Hl IH]; intros Hf Hinj; simpl; [constructor|].
  apply NoDup_app. split; [apply Hf; left|]. split.
  - intros z Hz Hz'. apply list_elem_of_In, in_flat_map in Hz' as (y & Hy & Hzy).
    apply list_elem_of_In in Hz, Hy.
    assert (x = y) as -> by (apply (Hinj x y z); [left | by right | done | done]).
    done.
  - apply IH.
    + intros y Hy. apply Hf. by right.
    + intros a b z Ha Hb. apply Hinj; by right.
Qed.

Lemma joinpath_inj (d d' : Path) (c c' : string) :
  d // c = d' // c' -> d = d' /\ c = c'.
Proof. unfold Pathlib.joinpath. intros Heq. by apply app_inj_tail in Heq. Qed.

Lemma NoDup_listdir (m : gmap Path Node) (d : Path) : NoDup (Os.listdir m d).
Proof.
  unfold Os.listdir. apply NoDup_omap_inj; [apply NoDup_map_to_list|].
  intros [q n] [q' n'] [nm nd] Hq Hq' Hf Hf'.
  apply elem_of_map_to_list in Hq, Hq'.
  destruct q as [|x q]; [discriminate|].
  destruct q' as [|x' q']; [discriminate|].
  case_bool_decide as Hp; [|discriminate].
  case_bool_decide as Hp'; [|discriminate].
  injection Hf as Hn ->. injection Hf' as Hn' ->.
  assert (Heq : x :: q = x' :: q').
  { rewrite <- (joinpath_parent_name (x :: q)), <- (joinpath_parent_name (x' :: q'))
      by done.
    by rewrite Hp, Hp', Hn, Hn'. }
  rewrite Heq. done.
Qed.

Lemma NoDup_collected (root : Path) (w : World) : NoDup (collected root w).
Proof.
  unfold collected, collect_png_files, Os.walk. rewrite flat_map_map.
  apply NoDup_flat_map.
  - apply NoDup_ListNoDup, List.NoDup_filter, NoDup_ListNoDup.
    apply (NoDup_fst_map_to_list (fs w)).
  - intros d _. apply NoDup_flat_map.
    + apply NoDup_omap_inj; [apply NoDup_listdir|].
      intros [nm n] [nm' n'] z Hn Hn' Hz Hz'.
      apply elem_of_listdir in Hn, Hn'.
      destruct n; [|discriminate]. destruct n'; [|discriminate].
      injection Hz as ->. injection Hz' as ->. congruence.
    + intros nm _. destruct (Str.endswith _ _); repeat constructor.
      apply not_elem_of_nil.
    + intros nm nm' z _ _ Hz Hz'.
      destruct (Str.endswith (Str.lower nm) ".png"); [|done].
      destruct (Str.endswith (Str.lower nm') ".png"); [|done].
      destruct Hz as [<- | []]. destruct Hz' as [Heq | []].
      by apply joinpath_inj in Heq as [_ ->].
  - intros d d' z _ _ Hz Hz'.
    apply in_flat_map in Hz as (nm & _ & Hz).
    apply in_flat_map in Hz' as (nm' & _ & Hz').
    destruct (Str.endswith (Str.lower nm) ".png"); [|done].
    destruct (Str.endswith (Str.lower nm') ".png"); [|done].
    destruct Hz as [<- | []]. destruct Hz' as [Heq | []].
    by apply joinpath_inj in Heq as [-> _].
Qed.

(** What holds of every file [main] discovers. *)
Lemma In_discovered (w : World) (p : Path) :
  In p (discovered w) ->
  (exists c, fs w !! p = Some (File c))
  /\ p <> [] /\ png_named p = true
  /\ (images_root w `prefix_of` Pathlib.parent p
      \/ square_dir w `prefix_of` Pathlib.parent p).
Proof.
  unfold discovered. fold (collected (images_root w) w).
  fold (collected (square_dir w) w).
  rewrite in_app_iff. intros [Hin | Hin].
  - apply In_collected in Hin as (Hc & Hne & Hpng & Hpre & _). auto.
  - case_bool_decide; [|done].
    apply In_collected in Hin as (Hc & Hne & Hpng & Hpre & _). auto.
Qed.

Lemma length_parent (p : Path) : p <> [] -> length p = S (length (Pathlib.parent p)).
Proof.
  intros Hp. rewrite <- (joinpath_parent_name p Hp) at 1.
  unfold Pathlib.joinpath. rewrite length_app. simpl. lia.
Qed.

Lemma discovered_not_prefix (w : World) (p : Path) :
  In p (discovered w) -> ~ p `prefix_of` square_dir w.
Proof.
  intros Hin Hpre. apply In_discovered in Hin as (_ & Hne & _ & Hroot).
  apply prefix_length in Hpre. rewrite (length_parent p Hne) in Hpre.
  unfold images_root, square_dir, Pathlib.joinpath in *.
  destruct Hroot as [Hr | Hr]; apply prefix_length in Hr;
    rewrite !length_app in *; simpl in *; lia.
Qed.

Lemma discovered_png (w : World) :
  Forall (fun p => png_named p = true /\ ~ p `prefix_of` square_dir w)
    (discovered w).
Proof.
  apply List.Forall_forall. intros p Hp. split.
  - by apply In_discovered in Hp as (_ & _ & Hpng & _).
  - by apply discovered_not_prefix.
Qed.

Lemma discovered_nodup (w : World) : NoDup (discovered w).
Proof.
  unfold discovered. fold (collected (images_root w) w).
  fold (collected (square_dir w) w).
  apply NoDup_app. split; [apply NoDup_collected|]. split.
  - intros p Hp Hp'. case_bool_decide; [|by apply not_elem_of_nil in Hp'].
    apply list_elem_of_In, In_collected in Hp as (_ & _ & _ & [r Hr] & _).
    apply list_elem_of_In, In_collected in Hp' as (_ & _ & _ & [r' Hr'] & _).
    rewrite Hr in Hr'. unfold images_root, square_dir, Pathlib.joinpath in Hr'.
    rewrite <- !app_assoc in Hr'. apply app_inv_head in Hr'. discriminate.
  - case_bool_decide; [apply NoDup_collected | constructor].
Qed.

(** X10: a run of [main] whose start passes is the loop over the list
    [discovered], begun after the line that tells its length; this list holds
    no path twice (each directory is walked once, and the two roots are
    apart), and all it holds are regular files with a PNG name below one of
    the two roots. *)
Theorem discovered_no_duplicates (args : Args) (w : World) :
  (startup_passes w = true ->
   main args w
   = match for_files args (clamp_quality (quality args)) (square_dir w)
             (discovered w) tally0
             (print ("[png2jpg] Found "
                     +:+ pretty (Z.of_nat (length (discovered w)))
                     +:+ " PNG file(s). Starting conversion (quality="
                     +:+ pretty (clamp_quality (quality args)) +:+ ")"
                     +:+ (if move_square args then " (move-square enabled)"
                          else "")
                     +:+ " ...") w) with
     | (Ok t, wl) =>
         (if errors t =? 0 then Ok tt else Raise (SystemExit 1), summary t wl)
     | (Raise e, wl) => (Raise e, wl)
     end)
  /\ NoDup (discovered w)
  /\ forall p, In p (discovered w) ->
       (exists c, fs w !! p = Some (File c))
       /\ png_named p = true
       /\ (images_root w `prefix_of` p \/ square_dir w `prefix_of` p).
Proof.
  split.
  { intros Hs. fold (found_line args w). fold (main_loop args w).
    destruct (main_loop args w) as [[t|e] wl] eqn:E.
    - by apply main_run.
    - by apply main_aborted. }
  split; [apply discovered_nodup|]. intros p Hp.
  apply In_discovered in Hp as (Hc & Hne & Hpng & Hpre).
  split; [done|]. split; [done|].
  rewrite <- (joinpath_parent_name p Hne).
  destruct Hpre as [Hr | Hr]; [left | right]; by apply prefix_app_r.
Qed.

End Discovery.

(** ** The loop and [main], file by file *)

Section Batch.
Context `{PIL.Codecs} `{Host}.

Lemma count_of_cons kind (r : result (string * Z * Z)) l :
  count_of kind (r :: l) = (if kind r then 1 else 0) + count_of kind l.
Proof. unfold count_of. simpl. destruct (kind r); simpl length; lia. Qed.

Lemma for_files_counts args q sq files t w t' w' :
  for_files args q sq files t w = (Ok t', w') ->
  converted t'
  = converted t + count_of is_converted (outcomes args q sq files w)
  /\ skipped t'
     = skipped t + count_of is_skipped (outcomes args q sq files w)
  /\ errors t'
     = errors t + count_of is_raised (outcomes args q sq files w)
  /\ length (outcomes args q sq files w) = length files.
Proof.
  revert t w. induction files as [|f files IH]; intros t w.
  - intros [= <- <-]. unfold count_of. simpl. repeat split; lia.
  - destruct (loop_body args q sq t f w) as [[t1|e1] w1] eqn:E.
    2:{ by rewrite (for_files_stop _ _ _ _ _ _ _ _ _ E). }
    rewrite (for_files_cons _ _ _ _ _ _ _ _ _ E). intros E'.
    destruct (IH _ _ E') as (Hc & Hs & He & Hl).
    destruct (loop_body_returns _ _ _ _ tally0 _ _ _ _ E) as (t0 & E0).
    simpl outcomes. rewrite E0, !count_of_cons. simpl length. rewrite Hl.
    apply loop_body_inv in E
      as [(status & i & o & Ec & [= ->]) | [(e & w0 & Ec & [= ->] & _)
          | (e & w0 & bad & partial & _ & [=] & _)]]; rewrite Ec; simpl fst.
    + apply convert_file_ok_cases in Ec as [(-> & _) | (-> & _)];
        simpl in *; repeat split; lia.
    + simpl in *. repeat split; lia.
Qed.

(** X11: each counter of a loop that reaches its end is the number of
    outcomes of its kind: the files [convert_file] has converted, those it
    has skipped, and those for which it has raised; there is one outcome for
    each file.  Where every text can be printed, every loop reaches its
    end. *)
Theorem counters_by_outcome args q sq files w :
  (forall t w',
     for_files args q sq files tally0 w = (Ok t, w') ->
     converted t = count_of is_converted (outcomes args q sq files w)
     /\ skipped t = count_of is_skipped (outcomes args q sq files w)
     /\ errors t = count_of is_raised (outcomes args q sq files w)
     /\ length (outcomes args q sq files w) = length files)
  /\ ((forall s, stdout_encodes s = true) ->
      exists t w', for_files args q sq files tally0 w = (Ok t, w')).
Proof.
  split.
  - intros t w' E. apply for_files_counts in E as (Hc & Hs & He & Hl).
    simpl in Hc, Hs, He. auto.
  - intros Henc. by apply for_files_returns.
Qed.

(** *** What is printed *)














(** *** What becomes of each file *)

Lemma loop_body_fs args q sq t f w :
  fs (snd (loop_body args q sq t f w))
  = fs (snd (convert_file f q (force args) (move_square args) sq w)).
Proof.
  rewrite loop_body_eq.
  destruct (convert_file f q (force args) (move_square args) sq w)
    as [[[[status i] o]|e] w1]; [done|].
  destruct (log _ w1) as [r w2] eqn:El.
  apply log_world in El as (Hfs & _). by destruct r as [[]|].
Qed.

Lemma loop_body_trace args q sq t f w :
  trace (snd (loop_body args q sq t f w))
  = trace (snd (convert_file f q (force args) (move_square args) sq w)).
Proof.
  rewrite loop_body_eq.
  destruct (convert_file f q (force args) (move_square args) sq w)
    as [[[[status i] o]|e] w1]; [done|].
  destruct (log _ w1) as [r w2] eqn:El.
  apply log_world in El as (_ & _ & Htr). by destruct r as [[]|].
Qed.

(** The world the loop goes on in after a turn, or stops in. *)
Lemma for_files_step args q sq f files t w :
  exists r1 w1,
    loop_body args q sq t f w = (r1, w1)
    /\ fs w1 = fs (snd (convert_file f q (force args) (move_square args) sq w))
    /\ trace w1
       = trace (snd (convert_file f q (force args) (move_square args) sq w))
    /\ ((exists t1, r1 = Ok t1
           /\ for_files args q sq (f :: files) t w
              = for_files args q sq files t1 w1
           /\ exists t0, loop_body args q sq tally0 f w = (Ok t0, w1))
        \/ (exists e, r1 = Raise e
              /\ for_files args q sq (f :: files) t w = (Raise e, w1)
              /\ loop_body args q sq tally0 f w = (Raise e, w1))).
Proof.
  destruct (loop_body args q sq t f w) as [r1 w1] eqn:E.
  exists r1, w1. split; [done|].
  pose proof (loop_body_fs args q sq t f w) as Hfs.
  pose proof (loop_body_trace args q sq t f w) as Htr.
  rewrite E in Hfs, Htr. split; [done|]. split; [done|].
  destruct r1 as [t1|e].
  - left. exists t1. split; [done|].
    split; [by apply for_files_cons|]. by eapply loop_body_returns.
  - right. exists e. split; [done|].
    split; [by apply for_files_stop|]. by eapply loop_body_raises.
Qed.

(** A turn of the loop for another file leaves a PNG alone. *)
Lemma convert_file_other png q force mv sq w r w' p :
  png_named p = true -> ~ p `prefix_of` sq -> p <> png ->
  convert_file png q force mv sq w = (r, w') ->
  fs w' !! p = fs w !! p.
Proof.
  intros Hp Hpre Hne Hr. apply convert_file_frame in Hr as [_ Hf].
  destruct (Hf p) as [E | (_ & _ & _ & P)]; try done.
  - intros ->. by rewrite jpg_name_not_png in Hp.
  - intros ->. unfold square_target in Hp. by rewrite jpg_name_not_png in Hp.
Qed.

Lemma for_files_others args q sq files t w p :
  png_named p = true -> ~ p `prefix_of` sq -> ~ In p files ->
  fs (snd (for_files args q sq files t w)) !! p = fs w !! p.
Proof.
  intros Hp Hpre. revert t w. induction files as [|f files IH]; intros t w Hin.
  - done.
  - assert (H1 : fs (snd (convert_file f q (force args) (move_square args)
                            sq w)) !! p = fs w !! p).
    { destruct (convert_file f q (force args) (move_square args) sq w)
        as [r w0] eqn:Ec.
      simpl. eapply convert_file_other; eauto. intros ->. apply Hin. by left. }
    destruct (for_files_step args q sq f files t w)
      as (r1 & w1 & E & Hfs & _ & [(t1 & -> & -> & _) | (e & -> & -> & _)]).
    + rewrite IH by (intros Hin'; apply Hin; by right). by rewrite Hfs.
    + simpl. by rewrite Hfs.
Qed.

Lemma for_files_fate args q sq files t w k f r :
  NoDup files ->
  Forall (fun p => png_named p = true /\ ~ p `prefix_of` sq) files ->
  files !! k = Some f ->
  outcomes args q sq files w !! k = Some r ->
  let entry := fs (snd (for_files args q sq files t w)) !! f in
  (is_converted r = true -> entry = None)
  /\ (is_skipped r = true -> entry = fs w !! f)
  /\ (entry = fs w !! f \/ entry = None).
Proof.
  intros Hnd Hall. revert k t w.
  induction files as [|g files IH]; intros k t w Hk Hr; [done|].
  apply NoDup_cons in Hnd as [Hg Hnd].
  apply List.Forall_cons_iff in Hall as [[Hpng Hpre] Hall].
  destruct (for_files_step args q sq g files t w)
    as (r1 & w1 & E & Hfs & _ & Hgo).
  destruct k as [|k]; simpl in Hk, Hr.
  - injection Hk as ->. injection Hr as <-.
    intros entry.
    assert (He : entry
                 = fs (snd (convert_file f q (force args) (move_square args)
                              sq w)) !! f).
    { unfold entry.
      destruct Hgo as [(t1 & _ & -> & _) | (e & _ & -> & _)].
      - rewrite for_files_others, Hfs
          by (try done; intros Hin; apply Hg; by apply list_elem_of_In).
        done.
      - simpl. by rewrite Hfs. }
    rewrite He. clear He entry.
    destruct (convert_file f q (force args) (move_square args) sq w)
      as [r w0] eqn:Ec. simpl.
    pose proof (png_kept_or_removed _ _ _ _ _ _ _ _ Hpng Ec) as Hkeep.
    split; [|split].
    + destruct r as [[[status i] o]|e]; [|done]. simpl. intros Hs.
      apply String.eqb_eq in Hs. subst status.
      by apply convert_file_ok_cases in Ec as [([=] & _) | (_ & Hn)].
    + destruct r as [[[status i] o]|e]; [|done]. simpl. intros Hs.
      apply String.eqb_eq in Hs. subst status.
      by apply convert_file_ok_cases in Ec as [(_ & ->) | ([=] & _)].
    + destruct Hkeep as [Hk | [Hk _]]; auto.
  - destruct Hgo as [(t1 & _ & -> & t0 & E0) | (e & _ & _ & E0)];
      rewrite E0 in Hr; [|done].
    assert (Hf : In f files).
    { apply list_elem_of_In. by eapply list_elem_of_lookup_2. }
    assert (Hfg : f <> g).
    { intros ->. apply Hg. by apply list_elem_of_In. }
    pose proof (proj1 (List.Forall_forall _ _) Hall f Hf) as [Hpf Hpref].
    assert (H1 : fs w1 !! f = fs w !! f).
    { rewrite Hfs.
      destruct (convert_file g q (force args) (move_square args) sq w)
        as [r0 w0] eqn:Ec. simpl. by eapply convert_file_other. }
    intros entry. unfold entry. rewrite <- H1.
    by apply (IH Hnd Hall k t1 w1).
Qed.

Lemma outcomes_pipeline args q sq files w k f i o :
  NoDup files ->
  Forall (fun p => png_named p = true /\ ~ p `prefix_of` sq) files ->
  files !! k = Some f ->
  outcomes args q sq files w !! k = Some (Ok ("converted", i, o)) ->
  exists c img rgb content,
    fs w !! f = Some (File c)
    /\ PIL.decode c = inr img
    /\ flatten_to_rgb img = Ok rgb
    /\ PIL.encode_jpeg rgb q = inr content
    /\ i = Z.of_nat (length c) /\ o = Z.of_nat (length content).
Proof.
  intros Hnd Hall. revert k w.
  induction files as [|g files IH]; intros k w Hk Hr; [done|].
  apply NoDup_cons in Hnd as [Hg Hnd].
  apply List.Forall_cons_iff in Hall as [[Hpng Hpre] Hall].
  destruct k as [|k]; simpl in Hk, Hr.
  - injection Hk as ->. injection Hr as Hr.
    destruct (convert_file f q (force args) (move_square args) sq w)
      as [r w0] eqn:Ec. simpl in Hr. subst r.
    apply converted_pipeline in Ec
      as (c & img & rgb & content & final & Hc & Hd & Hf & He & Hi & Ho & _).
    exists c, img, rgb, content. done.
  - assert (Hf : In f files).
    { apply list_elem_of_In. by eapply list_elem_of_lookup_2. }
    assert (Hfg : f <> g).
    { intros ->. apply Hg. by apply list_elem_of_In. }
    pose proof (proj1 (List.Forall_forall _ _) Hall f Hf) as [Hpf Hpref].
    destruct (loop_body args q sq tally0 g w) as [[t0|e0] w1] eqn:E0; [|done].
    destruct (IH Hnd Hall k _ Hk Hr)
      as (c & img & rgb & content & Hc & Hrest).
    exists c, img, rgb, content. split; [|done].
    rewrite <- Hc. symmetry.
    pose proof (loop_body_fs args q sq tally0 g w) as Hfs.
    rewrite E0 in Hfs. simpl in Hfs. rewrite Hfs.
    destruct (convert_file g q (force args) (move_square args) sq w)
      as [r0 w0] eqn:Ec. simpl. by eapply convert_file_other.
Qed.

(** The events of a run of [convert_file]: the only file it saves is the
    JPEG at the natural output path, encoded from the bytes of the PNG. *)
Lemma convert_file_saves png q force mv sq w r w' :
  convert_file png q force mv sq w = (r, w') ->
  exists evs,
    trace w' = trace w ++ evs
    /\ forall p content,
         In (EvSave p content) evs ->
         p = Pathlib.parent png // (Pathlib.stem png +:+ ".jpg")
         /\ exists c img rgb,
              fs w !! png = Some (File c)
              /\ PIL.decode c = inr img
              /\ flatten_to_rgb img = Ok rgb
              /\ PIL.encode_jpeg rgb q = inr content.
Proof.
  intros Hr. apply convert_file_head in Hr.
  set (jpg := Pathlib.parent png // (Pathlib.stem png +:+ ".jpg")) in *.
  destruct Hr as [(_ & [-> | [-> | [-> | (c & ->)]]]) | Hlate].
  - exists []. split; [by rewrite app_nil_r | by intros ? ? []].
  - exists [EvRead png]. split; [done|].
    intros p content [[=] | []].
  - exists [EvRead png; EvSaveFailed jpg].
    split; [simpl; by rewrite <- app_assoc|].
    intros p content [[=] | [[=] | []]].
  - exists [EvRead png; EvSaveFailed jpg].
    split; [simpl; by rewrite <- app_assoc|].
    intros p content [[=] | [[=] | []]].
  - destruct Hlate as (c & img & rgb & content & _ & _ & Hc & Hd & Hf & He & Hr).
    pose proof (saved_jpg png jpg content w) as Hj.
    apply (convert_file_tail _ _ _ _ _ _ _ _ _ _ Hj) in Hr
      as (wm & w2 & final & Hwm & Hw2 & Hw').
    assert (Hm : exists mk, trace wm = trace (saved png jpg content w) ++ mk
                            /\ only_mkdir mk).
    { destruct Hwm as [-> | (_ & _ & _ & (mk & Hmk & Hom) & _)].
      - exists []. split; [by rewrite app_nil_r | constructor].
      - by exists mk. }
    destruct Hm as (mk & Hmk & Hom).
    assert (H2 : exists mv_evs,
               trace w2 = trace wm ++ mv_evs
               /\ forall p content', ~ In (EvSave p content') mv_evs).
    { destruct Hw2 as [(-> & _) | [(_ & _ & _ & ->)
                      | [(_ & _ & _ & ->) | (_ & _ & _ & partial & ->)]]].
      - exists []. split; [by rewrite app_nil_r | by intros ? ? []].
      - exists []. split; [by rewrite app_nil_r | by intros ? ? []].
      - eexists [_]. split; [reflexivity|]. by intros ? ? [[=] | []].
      - exists []. split; [by rewrite app_nil_r | by intros ? ? []]. }
    destruct H2 as (mv_evs & Hmv & Hno).
    assert (H3 : exists un,
               trace w' = trace w2 ++ un
               /\ forall p content', ~ In (EvSave p content') un).
    { destruct Hw' as [(_ & ->) | (c' & _ & -> & _)].
      - exists []. split; [by rewrite app_nil_r | by intros ? ? []].
      - eexists [_]. split; [reflexivity|]. by intros ? ? [[=] | []]. }
    destruct H3 as (un & Hun & Hno').
    exists ([EvRead png; EvSave jpg content] ++ mk ++ mv_evs ++ un).
    split.
    { rewrite Hun, Hmv, Hmk. simpl. by rewrite <- !app_assoc. }
    intros p content' Hin.
    apply in_app_or in Hin as [[[=] | [[= <- <-] | []]] | Hin].
    { split; [done|]. exists c, img, rgb. done. }
    exfalso.
    apply in_app_or in Hin as [Hin | Hin].
    { unfold only_mkdir in Hom. rewrite Forall_forall in Hom.
      apply list_elem_of_In in Hin.
      by destruct (Hom _ Hin) as (d & [=]). }
    apply in_app_or in Hin as [Hin | Hin]; [by eapply Hno | by eapply Hno'].
Qed.

(** Every JPEG the loop saves is encoded from the bytes one of its files had
    when the loop began. *)
Lemma for_files_saves args q sq files t w :
  NoDup files ->
  Forall (fun p => png_named p = true /\ ~ p `prefix_of` sq) files ->
  exists evs,
    trace (snd (for_files args q sq files t w)) = trace w ++ evs
    /\ forall p content,
         In (EvSave p content) evs ->
         exists f c img rgb,
           In f files
           /\ p = Pathlib.parent f // (Pathlib.stem f +:+ ".jpg")
           /\ fs w !! f = Some (File c)
           /\ PIL.decode c = inr img
           /\ flatten_to_rgb img = Ok rgb
           /\ PIL.encode_jpeg rgb q = inr content.
Proof.
  intros Hnd Hall. revert t w.
  induction files as [|g files IH]; intros t w.
  { exists []. split; [simpl; by rewrite app_nil_r | by intros ? ? []]. }
  apply NoDup_cons in Hnd as [Hg Hnd].
  apply List.Forall_cons_iff in Hall as [[Hpng Hpre] Hall].
  destruct (for_files_step args q sq g files t w)
    as (r1 & w1 & E & Hfs & Htr & Hgo).
  destruct (convert_file g q (force args) (move_square args) sq w)
    as [r0 w0] eqn:Ec. simpl in Hfs, Htr.
  pose proof (convert_file_saves _ _ _ _ _ _ _ _ Ec) as (ev1 & Hev1 & Hs1).
  assert (Hfirst : forall p content,
            In (EvSave p content) ev1 ->
            exists f c img rgb,
              In f (g :: files)
              /\ p = Pathlib.parent f // (Pathlib.stem f +:+ ".jpg")
              /\ fs w !! f = Some (File c)
              /\ PIL.decode c = inr img
              /\ flatten_to_rgb img = Ok rgb
              /\ PIL.encode_jpeg rgb q = inr content).
  { intros p content Hin.
    destruct (Hs1 p content Hin) as (-> & c & img & rgb & Hrest).
    exists g, c, img, rgb. split; [by left|]. done. }
  destruct Hgo as [(t1 & _ & -> & _) | (e & _ & -> & _)].
  - destruct (IH Hnd Hall t1 w1) as (ev2 & Hev2 & Hs2).
    exists (ev1 ++ ev2). split.
    { by rewrite Hev2, Htr, Hev1, app_assoc. }
    intros p content Hin. apply in_app_or in Hin as [Hin | Hin]; [by apply Hfirst|].
    destruct (Hs2 p content Hin) as (f & c & img & rgb & Hf & Hp & Hc & Hrest).
    exists f, c, img, rgb. split; [by right|]. split; [done|].
    split; [|done]. rewrite <- Hc. symmetry. rewrite Hfs.
    pose proof (proj1 (List.Forall_forall _ _) Hall f Hf) as [Hpf Hpref].
    eapply convert_file_other; eauto.
    intros ->. apply Hg. by apply list_elem_of_In.
  - exists ev1. simpl. split; [by rewrite Htr|]. exact Hfirst.
Qed.

Lemma main_fs args w :
  startup_passes w = true ->
  fs (snd (main args w))
  = fs (snd (for_files args (clamp_quality (quality args)) (square_dir w)
               (discovered w) tally0 (print (found_line args w) w)))
  /\ trace (snd (main args w))
     = trace (snd (for_files args (clamp_quality (quality args)) (square_dir w)
                     (discovered w) tally0 (print (found_line args w) w))).
Proof.
  intros Hs. fold (main_loop args w).
  destruct (main_loop args w) as [[t|e] wl] eqn:E.
  - by rewrite (main_run args w t wl Hs E).
  - by rewrite (main_aborted args w e wl Hs E).
Qed.

(** X13: what a run of [main] whose start passes makes of each PNG it has
    discovered and got to: the file is gone when its turn has converted it,
    it is as it was when its turn has skipped it, and in no case is it
    anything but gone or as it was.  The turns of the other files do not
    touch it. *)
Theorem main_fate_of_each_png args w k f r :
  startup_passes w = true ->
  discovered w !! k = Some f ->
  outcomes args (clamp_quality (quality args)) (square_dir w) (discovered w)
    (print (found_line args w) w) !! k = Some r ->
  let entry := fs (snd (main args w)) !! f in
  (is_converted r = true -> entry = None)
  /\ (is_skipped r = true -> entry = fs w !! f)
  /\ (entry = fs w !! f \/ entry = None).
Proof.
  intros Hs Hk Hr. rewrite (proj1 (main_fs args w Hs)).
  apply (for_files_fate _ _ _ _ tally0 _ _ _ _ (discovered_nodup w)
           (discovered_png w) Hk Hr).
Qed.

(** X14: every JPEG a run of [main] saves is encoded from the bytes a
    discovered PNG had when the run began, at the clamped quality, which
    lies between 40 and 95, and is saved at the natural output path of
    that PNG; the sizes the run counts for a converted file are those of
    these bytes and of the encoder's. *)
Theorem main_converts_original_bytes args w :
  40 <= clamp_quality (quality args) <= 95
  /\ (exists evs,
        trace (snd (main args w)) = trace w ++ evs
        /\ forall p content,
             In (EvSave p content) evs ->
             exists f c img rgb,
               In f (discovered w)
               /\ p = Pathlib.parent f // (Pathlib.stem f +:+ ".jpg")
               /\ fs w !! f = Some (File c)
               /\ PIL.decode c = inr img
               /\ flatten_to_rgb img = Ok rgb
               /\ PIL.encode_jpeg rgb (clamp_quality (quality args))
                  = inr content)
  /\ (forall k f i o,
        discovered w !! k = Some f ->
        outcomes args (clamp_quality (quality args)) (square_dir w)
          (discovered w) (print (found_line args w) w) !! k
        = Some (Ok ("converted", i, o)) ->
        exists c img rgb content,
          fs w !! f = Some (File c)
          /\ PIL.decode c = inr img
          /\ flatten_to_rgb img = Ok rgb
          /\ PIL.encode_jpeg rgb (clamp_quality (quality args)) = inr content
          /\ i = Z.of_nat (length c) /\ o = Z.of_nat (length content)).
Proof.
  split; [unfold clamp_quality; lia|]. split.
  - destruct (startup_passes w) eqn:Hs.
    + rewrite (proj2 (main_fs args w Hs)).
      apply (for_files_saves _ _ _ _ tally0 (print (found_line args w) w)
               (discovered_nodup w) (discovered_png w)).
    + destruct (main_not_started args w Hs) as (_ & -> & _).
      exists []. split; [by rewrite app_nil_r | by intros ? ? []].
  - intros k f i o Hk Hr.
    apply (outcomes_pipeline _ _ _ _ _ _ _ _ _ (discovered_nodup w)
             (discovered_png w) Hk Hr).
Qed.

(** *** Where [main] works *)

Lemma for_files_frame args q sq files t w p :
  Forall (fun f => p <> f
                   /\ p <> Pathlib.parent f // (Pathlib.stem f +:+ ".jpg")
                   /\ p <> square_target f sq) files ->
  let w' := snd (for_files args q sq files t w) in
  fs w' !! p = fs w !! p
  \/ (move_square args = true
      /\ fs w !! p = None /\ fs w' !! p = Some Dir /\ p `prefix_of` sq).
Proof.
  revert t w. induction files as [|f files IH]; intros t w Hall; [by left|].
  apply List.Forall_cons_iff in Hall as [(H1 & H2 & H3) Hall].
  destruct (for_files_step args q sq f files t w)
    as (r1 & w1 & E & Hfs & _ & Hgo).
  assert (Hstep : fs w1 !! p = fs w !! p
                  \/ (move_square args = true /\ fs w !! p = None
                      /\ fs w1 !! p = Some Dir /\ p `prefix_of` sq)).
  { rewrite Hfs.
    destruct (convert_file f q (force args) (move_square args) sq w)
      as [r0 w0] eqn:Ec. simpl.
    apply convert_file_frame in Ec as [_ Hf].
    destruct (Hf p H1 H2 H3) as [Eq | (Hask & N & D & P)]; [by left|].
    right. apply andb_true_iff in Hask as [Hmv _]. done. }
  intros w'. unfold w'.
  destruct Hgo as [(t1 & _ & -> & _) | (e & _ & -> & _)]; [|exact Hstep].
  destruct (IH t1 w1 Hall) as [Eq | (Hmv & N & D & P)];
    destruct Hstep as [Eq1 | (Hmv1 & N1 & D1 & P1)].
  - left. congruence.
  - right. repeat split; try done. congruence.
  - right. repeat split; try done. congruence.
  - congruence.
Qed.

(** X15: a run of [main] works below its two roots: an entry that is neither
    below the image directory nor below the square directory is left as it
    was; at most, with move-square on, a missing directory on the way to the
    square directory is made. *)
Theorem main_stays_in_its_directories args w p :
  ~ images_root w `prefix_of` p ->
  ~ square_dir w `prefix_of` p ->
  fs (snd (main args w)) !! p = fs w !! p
  \/ (move_square args = true
      /\ fs w !! p = None /\ fs (snd (main args w)) !! p = Some Dir
      /\ p `prefix_of` square_dir w).
Proof.
  intros Hi Hs.
  destruct (startup_passes w) eqn:Hstart.
  2:{ left. by destruct (main_not_started args w Hstart) as (-> & _). }
  rewrite (proj1 (main_fs args w Hstart)).
  apply (for_files_frame _ _ _ _ tally0 (print (found_line args w) w)).
  apply List.Forall_forall. intros f Hf.
  apply In_discovered in Hf as (_ & Hne & _ & Hpre).
  assert (Hunder : forall c, images_root w `prefix_of` Pathlib.parent f // c
                             \/ square_dir w `prefix_of` Pathlib.parent f // c).
  { intros c. destruct Hpre as [Hp | Hp]; [left | right];
      by apply prefix_app_r. }
  split; [|split].
  - intros ->. rewrite <- (joinpath_parent_name f Hne) in Hi, Hs.
    destruct (Hunder (Pathlib.name f)); auto.
  - intros ->. destruct (Hunder (Pathlib.stem f +:+ ".jpg")); auto.
  - intros ->. apply Hs. unfold square_target. by apply prefix_app_r.
Qed.

End Batch.


(** ** What is never removed and never overwritten *)

Section Keeps.
Context `{PIL.Codecs} `{Host}.

(** A run that has changed the world has passed the test for an existing
    output. *)
Lemma convert_file_passed png q force mv sq w r w' :
  convert_file png q force mv sq w = (r, w') ->
  w' = w
  \/ bool_decide (is_Some (fs w !! (Pathlib.parent png
                                     // (Pathlib.stem png +:+ ".jpg"))))
     && negb force = false.
Proof.
  intros Hr.
  apply convert_file_inv in Hr
    as [(e & _ & ->) | [(jpg & _ & _ & _ & ->) | (jpg & c & Hj & Hskip & _)]];
    [by left | by left |].
  right. apply with_suffix_inv in Hj. by subst jpg.
Qed.

(** One turn removes nothing but its PNG and, when it moves the JPEG, what
    was at the natural output path. *)
Lemma convert_file_survives png q force mv sq w r w' p :
  is_Some (fs w !! p) ->
  p <> png ->
  ~ (mv && Str.endswith (Pathlib.stem png) "-square" = true
     /\ p = Pathlib.parent png // (Pathlib.stem png +:+ ".jpg")) ->
  convert_file png q force mv sq w = (r, w') ->
  is_Some (fs w' !! p).
Proof.
  intros Hp Hne Hmoved Hr. apply convert_file_head in Hr.
  set (jpg := Pathlib.parent png // (Pathlib.stem png +:+ ".jpg")) in *.
  destruct Hr as [(_ & [-> | [-> | [-> | (c & ->)]]]) | Hlate]; try done.
  { simpl. apply lookup_insert_is_Some'. by right. }
  destruct Hlate as (c & img & rgb & content & _ & _ & _ & _ & _ & _ & Hr).
  pose proof (saved_jpg png jpg content w) as Hj.
  apply (convert_file_tail _ _ _ _ _ _ _ _ _ _ Hj) in Hr
    as (wm & w2 & final & Hwm & Hw2 & Hw').
  assert (H1 : is_Some (fs (saved png jpg content w) !! p)).
  { simpl. apply lookup_insert_is_Some'. by right. }
  assert (Hm : is_Some (fs wm !! p)).
  { destruct Hwm as [-> | (_ & Hg)]; [done|].
    destruct H1 as [n Hn]. exists n. by eapply grows_keeps. }
  assert (H2 : is_Some (fs w2 !! p)).
  { destruct Hw2 as [(-> & _) | [(_ & _ & _ & ->)
                    | [(Hask & _ & _ & ->) | (_ & _ & _ & partial & ->)]]];
      simpl; try done.
    apply lookup_insert_is_Some'. right.
    rewrite lookup_delete_ne; [done|]. intros <-. by apply Hmoved. }
  destruct Hw' as [(_ & ->) | (c' & _ & -> & _)]; [done|].
  simpl. by rewrite lookup_delete_ne.
Qed.

(** Without force-overwrite, one turn leaves every entry but its PNG as it
    is. *)
Lemma convert_file_keeps png q mv sq w r w' p node :
  fs w !! p = Some node ->
  p <> png ->
  convert_file png q false mv sq w = (r, w') ->
  fs w' !! p = Some node.
Proof.
  intros Hp Hne Hr.
  destruct (convert_file_passed _ _ _ _ _ _ _ _ Hr) as [-> | Hpass]; [done|].
  apply convert_file_head in Hr.
  set (jpg := Pathlib.parent png // (Pathlib.stem png +:+ ".jpg")) in *.
  rewrite andb_true_r in Hpass. apply is_Some_false in Hpass.
  assert (Hpj : p <> jpg) by (intros ->; congruence).
  destruct Hr as [(_ & [-> | [-> | [-> | (c & ->)]]]) | Hlate]; try done.
  { simpl. by rewrite lookup_insert_ne. }
  destruct Hlate as (c & img & rgb & content & _ & _ & _ & _ & _ & _ & Hr).
  pose proof (saved_jpg png jpg content w) as Hj.
  apply (convert_file_tail _ _ _ _ _ _ _ _ _ _ Hj) in Hr
    as (wm & w2 & final & Hwm & Hw2 & Hw').
  assert (H1 : fs (saved png jpg content w) !! p = Some node).
  { simpl. by rewrite lookup_insert_ne. }
  assert (Hm : fs wm !! p = Some node).
  { destruct Hwm as [-> | (_ & Hg)]; [done|]. by eapply grows_keeps. }
  assert (H2 : fs w2 !! p = Some node).
  { destruct Hw2 as [(-> & _) | [(_ & _ & _ & ->)
                    | [(_ & _ & Hex & ->) | (_ & _ & _ & partial & ->)]]];
      simpl; try done.
    rewrite andb_true_r in Hex. apply is_Some_false in Hex.
    rewrite lookup_insert_ne, lookup_delete_ne; [done | done |].
    intros <-. congruence. }
  destruct Hw' as [(_ & ->) | (c' & _ & -> & _)]; [done|].
  simpl. by rewrite lookup_delete_ne.
Qed.

Lemma for_files_keeps args q sq files t w p node :
  force args = false ->
  fs w !! p = Some node ->
  ~ In p files ->
  fs (snd (for_files args q sq files t w)) !! p = Some node.
Proof.
  intros Hforce. revert t w.
  induction files as [|f files IH]; intros t w Hp Hin; [done|].
  destruct (for_files_step args q sq f files t w)
    as (r1 & w1 & E & Hfs & _ & Hgo).
  assert (H1 : fs w1 !! p = Some node).
  { rewrite Hfs.
    destruct (convert_file f q (force args) (move_square args) sq w)
      as [r0 w0] eqn:Ec. simpl. rewrite Hforce in Ec.
    eapply convert_file_keeps; eauto. intros ->. apply Hin. by left. }
  destruct Hgo as [(t1 & _ & -> & _) | (e & _ & -> & _)]; [|exact H1].
  apply IH; [exact H1|]. intros Hin'. apply Hin. by right.
Qed.

(** X16: without force-overwrite a run of [main] overwrites nothing and removes
    nothing but PNGs it has discovered: every other entry of the tree is at
    the end what it was at the start. *)
Theorem main_without_force_keeps_files args w p node :
  force args = false ->
  fs w !! p = Some node ->
  ~ In p (discovered w) ->
  fs (snd (main args w)) !! p = Some node.
Proof.
  intros Hforce Hp Hin.
  destruct (startup_passes w) eqn:Hstart.
  2:{ by destruct (main_not_started args w Hstart) as (-> & _). }
  rewrite (proj1 (main_fs args w Hstart)).
  by apply for_files_keeps.
Qed.

Lemma for_files_gone args q sq files t w p :
  is_Some (fs w !! p) ->
  fs (snd (for_files args q sq files t w)) !! p = None ->
  exists f,
    In f files
    /\ (p = f
        \/ (move_square args = true
            /\ Str.endswith (Pathlib.stem f) "-square" = true
            /\ p = Pathlib.parent f // (Pathlib.stem f +:+ ".jpg"))).
Proof.
  revert t w. induction files as [|f files IH]; intros t w Hp Hgone.
  { simpl in Hgone. rewrite Hgone in Hp. by destruct Hp. }
  destruct (decide (p = f)) as [->|Hne]; [exists f; split; [by left | by left]|].
  destruct (decide (move_square args = true
                    /\ Str.endswith (Pathlib.stem f) "-square" = true
                    /\ p = Pathlib.parent f // (Pathlib.stem f +:+ ".jpg")))
    as [Hmoved|Hnot].
  { exists f. split; [by left | by right]. }
  destruct (for_files_step args q sq f files t w)
    as (r1 & w1 & E & Hfs & _ & Hgo).
  assert (H1 : is_Some (fs w1 !! p)).
  { rewrite Hfs.
    destruct (convert_file f q (force args) (move_square args) sq w)
      as [r0 w0] eqn:Ec. simpl.
    apply (convert_file_survives f q (force args) (move_square args) sq w
             r0 w0 p Hp Hne); [|exact Ec].
    intros [Hask Hpj]. apply andb_true_iff in Hask as [Hmv Hsq].
    by apply Hnot. }
  destruct Hgo as [(t1 & _ & Hgo & _) | (e & _ & Hgo & _)];
    rewrite Hgo in Hgone.
  - destruct (IH t1 w1 H1 Hgone) as (g & Hg & Hcase).
    exists g. split; [by right | done].
  - simpl in Hgone. rewrite Hgone in H1. by destruct H1.
Qed.

(** X17: whatever the flags, an entry that a run of [main] has removed from the
    tree is a PNG it has discovered, or it was at the natural output path
    of a discovered square variant and move-square is on. *)
Theorem main_removes_only args w p :
  is_Some (fs w !! p) ->
  fs (snd (main args w)) !! p = None ->
  exists f,
    In f (discovered w)
    /\ (p = f
        \/ (move_square args = true
            /\ Str.endswith (Pathlib.stem f) "-square" = true
            /\ p = Pathlib.parent f // (Pathlib.stem f +:+ ".jpg"))).
Proof.
  intros Hp Hgone.
  destruct (startup_passes w) eqn:Hstart.
  2:{ destruct (main_not_started args w Hstart) as (Hfs & _).
      rewrite Hfs in Hgone. rewrite Hgone in Hp. by destruct Hp. }
  rewrite (proj1 (main_fs args w Hstart)) in Hgone.
  by apply for_files_gone in Hgone.
Qed.

End Keeps.

(** ** More on flattening *)

Section MoreFlatten.
Context `{PIL.Codecs}.

Lemma BLEND_byte (m a b : Z) : 0 <= PIL.BLEND m a b <= 255.
Proof.
  unfold PIL.BLEND, PIL.u8.
  pose proof (Z.mod_pos_bound (PIL.DIV255 (a * (255 - m) + b * m)) 256). lia.
Qed.

Lemma over_white_lightens (a v : Z) :
  0 <= a <= 255 -> 0 <= v <= 255 -> v <= Spec.over_white a v <= 255.
Proof.
  intros Ha Hv. unfold Spec.over_white.
  assert (Hp : 0 <= (255 - a) * (255 - v)) by (apply Z.mul_nonneg_nonneg; lia).
  assert (Hq : 0 <= a * (255 - v)) by (apply Z.mul_nonneg_nonneg; lia).
  split.
  - apply Z.div_le_lower_bound; [lia|]. nia.
  - apply Z.lt_succ_r. apply Z.div_lt_upper_bound; [lia|]. nia.
Qed.

(** X18: the image the decoder delivers in one of the modes RGB, L, RGBA and LA
    is always flattened, into an RGB image of the same size with three bytes
    per pixel. *)
Theorem flatten_gives_rgb (img : PIL.Image) :
  str_in (PIL.mode img) ["RGB"; "L"; "RGBA"; "LA"] = true ->
  PIL.wf img ->
  exists out,
    flatten_to_rgb img = Ok out
    /\ PIL.mode out = "RGB" /\ PIL.size out = PIL.size img /\ PIL.wf out.
Proof.
  intros Hm Hwf. pose proof Hwf as (Hx & Hy & Hlen & Hpx).
  unfold str_in in Hm. simpl in Hm. rewrite !orb_true_iff in Hm.
  destruct Hm as [Hm | [Hm | [Hm | [Hm | Hm]]]]; try discriminate Hm;
    apply String.eqb_eq in Hm.
  - exists img. unfold flatten_to_rgb, PIL.convert. rewrite Hm. simpl.
    rewrite <- Hm. destruct img; done.
  - eexists. unfold flatten_to_rgb, PIL.convert. rewrite Hm. simpl.
    split; [reflexivity|]. split; [reflexivity|]. split; [reflexivity|].
    unfold PIL.wf. simpl. rewrite length_map. repeat split; try done.
    apply Forall_fmap. eapply Forall_impl; [exact Hpx|].
    intros px [_ Hb]. simpl. split; [reflexivity|].
    repeat (apply List.Forall_cons; [by apply band_range|]). apply List.Forall_nil.
  - eexists. rewrite flatten_alpha_mode by (done || by left).
    split; [reflexivity|]. split; [reflexivity|]. split; [reflexivity|].
    unfold PIL.wf. simpl. rewrite length_map. repeat split; try done.
    apply Forall_fmap. eapply Forall_impl; [exact Hpx|].
    intros px _. rewrite Hm. simpl. split; [reflexivity|].
    repeat (apply List.Forall_cons; [apply BLEND_byte|]). apply List.Forall_nil.
  - eexists. rewrite flatten_alpha_mode by (done || by right).
    split; [reflexivity|]. split; [reflexivity|]. split; [reflexivity|].
    unfold PIL.wf. simpl. rewrite length_map. repeat split; try done.
    apply Forall_fmap. eapply Forall_impl; [exact Hpx|].
    intros px _. rewrite Hm. simpl. split; [reflexivity|].
    repeat (apply List.Forall_cons; [apply BLEND_byte|]). apply List.Forall_nil.
Qed.

(** X19: laying an image with an alpha band over white never darkens it: every
    value of a flattened pixel lies between the value the pixel had and
    255. *)
Theorem flatten_only_lightens (img : PIL.Image) :
  alpha_mode (PIL.mode img) ->
  PIL.wf img ->
  exists out,
    flatten_to_rgb img = Ok out
    /\ forall (i : nat) (px : list Z),
         PIL.data img !! i = Some px ->
         exists flat,
           PIL.data out !! i = Some flat
           /\ Forall2 (fun v f => v <= f <= 255)
                (PIL.rgb_bytes (PIL.mode img) px) flat.
Proof.
  intros Hm Hwf. pose proof Hwf as (_ & _ & Hlen & _).
  eexists. split; [by apply flatten_alpha_mode|]. simpl.
  intros i px Hi. rewrite list_lookup_fmap, Hi. simpl.
  eexists. split; [reflexivity|].
  assert (Hpx : Forall (fun v => 0 <= v <= 255) px).
  { apply (wf_pixels img); [done|].
    apply list_elem_of_In. by eapply list_elem_of_lookup_2. }
  pose proof (fun k => band_range k px Hpx) as Hb.
  unfold pasted_pixel.
  destruct Hm as [-> | ->]; simpl;
    repeat (apply Forall2_cons; split;
            [rewrite BLEND_over_white by apply Hb;
             apply over_white_lightens; apply Hb|]);
    apply Forall2_nil_2.
Qed.

(** X20: an image with a single band that is neither of mode 1 nor of mode L
    (a palette image, say) and that carries a transparency entry is never
    flattened: it is used as its own mask, and the paste refuses a mask of
    its mode. *)
Theorem flatten_refuses_own_mask (img : PIL.Image) :
  PIL.nbands (PIL.mode img) = 1%nat ->
  str_in (PIL.mode img) ["1"; "L"] = false ->
  has_key "transparency" (PIL.info img) = true ->
  (exists e, flatten_to_rgb img = Raise e)
  /\ forall rgb,
       PIL.convert_other img "RGB" = inr rgb ->
       PIL.size rgb = PIL.size img ->
       flatten_to_rgb img = Raise (ValueError "bad transparency mask").
Proof.
  destruct img as [m sz inf dat]. simpl. intros Hn Hm Hkey.
  assert (Hno : forall s, In s ["RGB"; "L"; "1"; "RGBA"; "LA"; "RGBa"] ->
                          String.eqb m s = false /\ String.eqb s m = false).
  { intros s Hs. rewrite (String.eqb_sym s m).
    destruct (String.eqb_spec m s) as [->|]; [|done]. exfalso.
    simpl in Hs.
    repeat (destruct Hs as [<- | Hs]; [vm_compute in Hn, Hm; congruence|]).
    done. }
  pose proof (Hno "RGB" ltac:(simpl; tauto)) as [N1 N1'].
  pose proof (Hno "L" ltac:(simpl; tauto)) as [N2 N2'].
  pose proof (Hno "1" ltac:(simpl; tauto)) as [N3 N3'].
  pose proof (Hno "RGBA" ltac:(simpl; tauto)) as [N4 N4'].
  pose proof (Hno "LA" ltac:(simpl; tauto)) as [N5 N5'].
  pose proof (Hno "RGBa" ltac:(simpl; tauto)) as [N6 N6'].
  clear Hno.
  assert (Hflat :
    flatten_to_rgb {| PIL.mode := m; PIL.size := sz; PIL.info := inf;
                      PIL.data := dat |}
    = result_bind (PIL.of_codec (PIL.convert_other
                     {| PIL.mode := m; PIL.size := sz; PIL.info := inf;
                        PIL.data := dat |} "RGB"))
        (fun im' =>
           if negb (bool_decide (sz = PIL.size im'))
           then Raise (ValueError "images do not match")
           else Raise (ValueError "bad transparency mask"))).
  { unfold flatten_to_rgb, PIL.split, PIL.paste, PIL.convert, PIL.core_paste,
      PIL.new, str_in.
    cbn [PIL.mode PIL.size PIL.info PIL.data existsb].
    rewrite Hn, Hkey.
    rewrite ?N1, ?N2, ?N3, ?N4, ?N5, ?N6, ?N1', ?N2', ?N3', ?N4', ?N5', ?N6'.
    cbn [orb andb negb Nat.eqb tuple_last rev List.rev app result_bind
         String.eqb Ascii.eqb Bool.eqb].
    destruct (PIL.convert_other _ _) as [msg|im'];
      cbn [PIL.of_codec result_bind]; [done|].
    rewrite (bool_decide_eq_true_2 (sz = sz)) by done.
    cbn [PIL.mode PIL.size PIL.info PIL.data existsb].
    rewrite ?N1, ?N2, ?N3, ?N4, ?N5, ?N6.
    cbn [orb andb negb]. done. }
  rewrite Hflat. split.
  - destruct (PIL.convert_other _ _) as [msg|im']; simpl; [eauto|].
    destruct (negb _); eauto.
  - intros rgb -> Hsz. simpl. rewrite Hsz. simpl.
    by rewrite bool_decide_eq_true_2.
Qed.

End MoreFlatten.

(** ** More on the quality *)

(** X21: clamping leaves exactly the qualities from 40 to 95 as they are, does
    nothing when it is done again, and keeps the order of qualities. *)
Theorem clamp_quality_idempotent_monotone :
  (forall Q, clamp_quality Q = Q <-> 40 <= Q <= 95)
  /\ (forall Q, clamp_quality (clamp_quality Q) = clamp_quality Q)
  /\ (forall a b, a <= b -> clamp_quality a <= clamp_quality b).
Proof. unfold clamp_quality. repeat split; lia. Qed.

(** ** The further properties on the small machine *)

Module Checks.
Import Example.

Lemma run_pair {A} (m : M A) (w : World) : m w = (fst (m w), snd (m w)).
Proof. by destruct (m w). Defined.

Lemma convert_file_status_witness :
  fst convert_a = Ok ("converted", 1000, 600)
  /\ (fs two_files !! (images // "a.jpg") = None \/ false = true).
Proof.
  assert (E : fst convert_a = Ok ("converted", 1000, 600)) by Run.run_eq.
  split; [exact E|]. apply Run.exists_run in E.
  destruct (convert_file_status _ _ _ _ _ _ _ _ _ _ E) as [(Hs & _) | (_ & Hc)];
    [discriminate Hs | exact Hc].
Defined.

Lemma converted_is_encoded_witness :
  fst convert_a = Ok ("converted", 1000, 600)
  /\ exists c img rgb content final,
       fs two_files !! (images // "a.png") = Some (File c)
       /\ PIL.decode c = inr img
       /\ flatten_to_rgb img = Ok rgb
       /\ PIL.encode_jpeg rgb 82 = inr content
       /\ 1000 = Z.of_nat (length c) /\ 600 = Z.of_nat (length content)
       /\ (final = images // "a.jpg"
           \/ final = square_target (images // "a.png") square)
       /\ fs (snd convert_a) !! final = Some (File content).
Proof.
  assert (E : fst convert_a = Ok ("converted", 1000, 600)) by Run.run_eq.
  split; [exact E|]. apply Run.exists_run in E.
  exact (converted_is_encoded _ _ _ _ _ _ _ _ _ E).
Defined.

Lemma convert_file_touches_witness :
  changes_only
    (fun p => p = images // "icon-square.png"
              \/ p = images // "icon-square.jpg"
              \/ p = square // "icon.jpg")
    square mixed (snd convert_icon)
  /\ cwd (snd convert_icon) = cwd mixed.
Proof.
  exact (convert_file_touches (images // "icon-square.png") 82 false true square
           mixed _ _ (run_pair _ mixed)).
Defined.

Lemma convert_file_without_move_witness :
  false && Str.endswith (Pathlib.stem (images // "a.png")) "-square" = false
  /\ stdout (snd convert_a) = stdout two_files
  /\ (forall p, p <> images // "a.png" -> p <> images // "a.jpg" ->
                fs (snd convert_a) !! p = fs two_files !! p)
  /\ exists evs,
       trace (snd convert_a) = trace two_files ++ evs
       /\ Forall (fun e => e = EvRead (images // "a.png")
                           \/ e = EvSaveFailed (images // "a.jpg")
                           \/ e = EvUnlink (images // "a.png")
                           \/ exists c, e = EvSave (images // "a.jpg") c)
            evs.
Proof.
  split; [reflexivity|].
  exact (convert_file_without_move (images // "a.png") 82 false false square
           two_files _ _ eq_refl (run_pair _ two_files)).
Defined.

Lemma unreadable_png_changes_nothing_witness :
  readable (images // "broken.png") mixed = false
  /\ (fst convert_broken = Ok ("skipped", 0, 0)
      \/ exists e, fst convert_broken = Raise e)
  /\ fs (snd convert_broken) = fs mixed
  /\ stdout (snd convert_broken) = stdout mixed
  /\ cwd (snd convert_broken) = cwd mixed
  /\ (trace (snd convert_broken) = trace mixed
      \/ trace (snd convert_broken)
         = trace mixed ++ [EvRead (images // "broken.png")]).
Proof.
  split; [reflexivity|].
  exact (unreadable_png_changes_nothing (images // "broken.png") 82 false true
           square mixed _ _ eq_refl (run_pair _ mixed)).
Defined.

Lemma png_never_lost_witness :
  png_named (images // "a.png") = true
  /\ (fs (snd convert_a) !! (images // "a.png")
      = fs two_files !! (images // "a.png")
      \/ (fs (snd convert_a) !! (images // "a.png") = None
          /\ exists c img rgb content final,
               fs two_files !! (images // "a.png") = Some (File c)
               /\ PIL.decode c = inr img
               /\ flatten_to_rgb img = Ok rgb
               /\ PIL.encode_jpeg rgb 82 = inr content
               /\ (final = images // "a.jpg"
                   \/ final = square_target (images // "a.png") square)
               /\ fs (snd convert_a) !! final = Some (File content))).
Proof.
  split; [reflexivity|].
  exact (png_never_lost (images // "a.png") 82 false false square two_files
           _ _ eq_refl (run_pair _ two_files)).
Defined.

Lemma square_dir_made_witness :
  Str.endswith (Pathlib.stem (images // "icon-square.png")) "-square" = true
  /\ fst convert_icon = Ok ("converted", 3, 200)
  /\ fs mixed !! square = None
  /\ fs (snd convert_icon) !! square = Some Dir.
Proof.
  assert (E : fst convert_icon = Ok ("converted", 3, 200)) by Run.run_eq.
  split; [reflexivity|]. split; [exact E|]. split; [reflexivity|].
  apply Run.exists_run in E.
  exact (square_dir_made (images // "icon-square.png") 82 false square mixed
           3 200 _ eq_refl E).
Defined.


Lemma collect_png_files_no_directory_witness :
  fs two_files !! square <> Some Dir
  /\ collect_png_files square two_files = (Ok [], two_files).
Proof.
  assert (Hno : fs two_files !! square <> Some Dir) by (vm_compute; discriminate).
  split; [exact Hno|]. exact (collect_png_files_no_directory square two_files Hno).
Defined.

Lemma discovered_no_duplicates_witness :
  startup_passes mixed = true
  /\ main (args false true) mixed
     = match for_files (args false true)
               (clamp_quality (quality (args false true))) (square_dir mixed)
               (discovered mixed) tally0
               (print "[png2jpg] Found 3 PNG file(s). Starting conversion (quality=82) (move-square enabled) ..."
                  mixed) with
       | (Ok t, wl) =>
           (if errors t =? 0 then Ok tt else Raise (SystemExit 1), summary t wl)
       | (Raise e, wl) => (Raise e, wl)
       end
  /\ NoDup (discovered mixed)
  /\ In (images // "done.png") (discovered mixed)
  /\ (exists c, fs mixed !! (images // "done.png") = Some (File c))
  /\ png_named (images // "done.png") = true
  /\ (images_root mixed `prefix_of` images // "done.png"
      \/ square_dir mixed `prefix_of` images // "done.png").
Proof.
  assert (Hs : startup_passes mixed = true) by Run.run_eq.
  assert (Hin : In (images // "done.png") (discovered mixed)).
  { vm_compute. auto. }
  pose proof (discovered_no_duplicates (args false true) mixed)
    as (Hmain & Hnd & Hall).
  split; [exact Hs|]. split; [exact (Hmain Hs)|].
  split; [exact Hnd|]. split; [exact Hin|]. exact (Hall _ Hin).
Defined.

Lemma counters_by_outcome_witness :
  exists t w',
    for_files (args false true) 82 square (discovered mixed) tally0 mixed
    = (Ok t, w')
    /\ converted t = 1 /\ skipped t = 1 /\ errors t = 1.
Proof.
  pose proof (counters_by_outcome (args false true) 82 square
                (discovered mixed) mixed) as (Hcount & Hret).
  destruct (Hret (fun _ => eq_refl)) as (t & w' & E).
  exists t, w'. split; [exact E|].
  destruct (Hcount t w' E) as (Hc & Hs & He & _).
  rewrite Hc, Hs, He. repeat split; Run.run_eq.
Defined.


Lemma main_fate_of_each_png_witness :
  startup_passes mixed = true
  /\ discovered mixed !! 1%nat = Some (images // "icon-square.png")
  /\ discovered mixed !! 2%nat = Some (images // "done.png")
  /\ fs (snd (main (args false true) mixed)) !! (images // "icon-square.png")
     = None
  /\ fs (snd (main (args false true) mixed)) !! (images // "done.png")
     = fs mixed !! (images // "done.png").
Proof.
  assert (Hex : startup_passes mixed = true) by Run.run_eq.
  assert (H1 : discovered mixed !! 1%nat = Some (images // "icon-square.png"))
    by Run.run_eq.
  assert (H2 : discovered mixed !! 2%nat = Some (images // "done.png"))
    by Run.run_eq.
  assert (O1 : outcomes (args false true)
                 (clamp_quality (quality (args false true))) (square_dir mixed)
                 (discovered mixed)
                 (print (found_line (args false true) mixed) mixed) !! 1%nat
               = Some (Ok ("converted", 3, 200))) by Run.run_eq.
  assert (O2 : outcomes (args false true)
                 (clamp_quality (quality (args false true))) (square_dir mixed)
                 (discovered mixed)
                 (print (found_line (args false true) mixed) mixed) !! 2%nat
               = Some (Ok ("skipped", 0, 0))) by Run.run_eq.
  split; [exact Hex|]. split; [exact H1|]. split; [exact H2|]. split.
  - exact (proj1 (main_fate_of_each_png _ _ _ _ _ Hex H1 O1) eq_refl).
  - exact (proj1 (proj2 (main_fate_of_each_png _ _ _ _ _ Hex H2 O2)) eq_refl).
Defined.

Lemma main_converts_original_bytes_witness :
  discovered two_files !! 1%nat = Some (images // "a.png")
  /\ 40 <= clamp_quality (quality (args false false)) <= 95
  /\ (exists evs,
        trace (snd (main (args false false) two_files))
        = trace two_files ++ evs
        /\ forall p content,
             In (EvSave p content) evs ->
             exists f c img rgb,
               In f (discovered two_files)
               /\ p = Pathlib.parent f // (Pathlib.stem f +:+ ".jpg")
               /\ fs two_files !! f = Some (File c)
               /\ PIL.decode c = inr img
               /\ flatten_to_rgb img = Ok rgb
               /\ PIL.encode_jpeg rgb
                    (clamp_quality (quality (args false false)))
                  = inr content)
  /\ exists c img rgb content,
       fs two_files !! (images // "a.png") = Some (File c)
       /\ PIL.decode c = inr img
       /\ flatten_to_rgb img = Ok rgb
       /\ PIL.encode_jpeg rgb (clamp_quality (quality (args false false)))
          = inr content
       /\ 1000 = Z.of_nat (length c) /\ 600 = Z.of_nat (length content).
Proof.
  assert (H1 : discovered two_files !! 1%nat = Some (images // "a.png"))
    by Run.run_eq.
  assert (O1 : outcomes (args false false)
                 (clamp_quality (quality (args false false)))
                 (square_dir two_files) (discovered two_files)
                 (print (found_line (args false false) two_files) two_files)
               !! 1%nat
               = Some (Ok ("converted", 1000, 600))) by Run.run_eq.
  pose proof (main_converts_original_bytes (args false false) two_files)
    as (Hq & Hsaves & Hsizes).
  split; [exact H1|]. split; [exact Hq|]. split; [exact Hsaves|].
  exact (Hsizes _ _ _ _ H1 O1).
Defined.

Lemma main_stays_in_its_directories_witness :
  ~ images_root mixed `prefix_of` ["site"]
  /\ ~ square_dir mixed `prefix_of` ["site"]
  /\ (fs (snd (main (args false true) mixed)) !! ["site"] = fs mixed !! ["site"]
      \/ (move_square (args false true) = true
          /\ fs mixed !! ["site"] = None
          /\ fs (snd (main (args false true) mixed)) !! ["site"] = Some Dir
          /\ ["site"] `prefix_of` square_dir mixed)).
Proof.
  assert (Hi : ~ images_root mixed `prefix_of` ["site"]).
  { intros Hp. apply prefix_length in Hp. simpl in Hp. lia. }
  assert (Hs : ~ square_dir mixed `prefix_of` ["site"]).
  { intros Hp. apply prefix_length in Hp. simpl in Hp. lia. }
  split; [exact Hi|]. split; [exact Hs|].
  exact (main_stays_in_its_directories (args false true) mixed ["site"] Hi Hs).
Defined.

Lemma main_without_force_keeps_files_witness :
  force (args false true) = false
  /\ fs mixed !! (images // "done.jpg") = Some (File [Byte.x09])
  /\ ~ In (images // "done.jpg") (discovered mixed)
  /\ fs (snd (main (args false true) mixed)) !! (images // "done.jpg")
     = Some (File [Byte.x09]).
Proof.
  assert (Hin : ~ In (images // "done.jpg") (discovered mixed)).
  { vm_compute. intros [Heq | [Heq | [Heq | []]]]; discriminate Heq. }
  split; [reflexivity|]. split; [reflexivity|]. split; [exact Hin|].
  exact (main_without_force_keeps_files (args false true) mixed
           (images // "done.jpg") (File [Byte.x09]) eq_refl eq_refl Hin).
Defined.

Lemma main_removes_only_witness :
  is_Some (fs mixed !! (images // "icon-square.png"))
  /\ fs (snd (main (args false true) mixed)) !! (images // "icon-square.png")
     = None
  /\ exists f,
       In f (discovered mixed)
       /\ (images // "icon-square.png" = f
           \/ (move_square (args false true) = true
               /\ Str.endswith (Pathlib.stem f) "-square" = true
               /\ images // "icon-square.png"
                  = Pathlib.parent f // (Pathlib.stem f +:+ ".jpg"))).
Proof.
  assert (Hp : is_Some (fs mixed !! (images // "icon-square.png")))
    by (eexists; Run.run_eq).
  assert (Hgone : fs (snd (main (args false true) mixed))
                    !! (images // "icon-square.png") = None) by Run.run_eq.
  split; [exact Hp|]. split; [exact Hgone|].
  exact (main_removes_only (args false true) mixed _ Hp Hgone).
Defined.

Lemma flatten_gives_rgb_witness :
  exists out,
    flatten_to_rgb rgba_pixels = Ok out
    /\ PIL.mode out = "RGB" /\ PIL.size out = PIL.size rgba_pixels
    /\ PIL.wf out.
Proof.
  exact (flatten_gives_rgb rgba_pixels eq_refl Run.rgba_pixels_wf).
Defined.

Lemma flatten_only_lightens_witness :
  exists out,
    flatten_to_rgb rgba_pixels = Ok out
    /\ exists flat,
         PIL.data out !! 2%nat = Some flat
         /\ Forall2 (fun v f => v <= f <= 255) [10; 20; 30] flat.
Proof.
  destruct (flatten_only_lightens rgba_pixels (or_introl eq_refl)
              Run.rgba_pixels_wf) as (out & E & Hpx).
  exists out. split; [exact E|].
  exact (Hpx 2%nat [10; 20; 30; 128] eq_refl).
Defined.

Lemma flatten_refuses_own_mask_witness :
  PIL.nbands (PIL.mode Palette.transparent) = 1%nat
  /\ (exists e, @flatten_to_rgb Palette.codecs Palette.transparent = Raise e)
  /\ @flatten_to_rgb Palette.codecs Palette.transparent
     = Raise (ValueError "bad transparency mask").
Proof.
  split; [reflexivity|].
  pose proof (@flatten_refuses_own_mask Palette.codecs Palette.transparent
                eq_refl eq_refl eq_refl) as [Hraise Hmask].
  split; [exact Hraise|].
  exact (Hmask _ eq_refl eq_refl).
Defined.

Lemma clamp_quality_idempotent_monotone_witness :
  (40 <= 82 <= 95 /\ clamp_quality 82 = 82)
  /\ clamp_quality (clamp_quality 999) = clamp_quality 999
  /\ (10 <= 50 /\ clamp_quality 10 <= clamp_quality 50).
Proof.
  pose proof clamp_quality_idempotent_monotone as (Hfix & Hidem & Hmono).
  split; [|split].
  - split; [lia|]. apply Hfix. lia.
  - apply Hidem.
  - split; [lia|]. apply Hmono. lia.
Defined.

End Checks.
